(** * inno-lde: the extraction gateway and the submission orchestrator

    A shallow embedding of [src/app/api/extract-document/route.ts] (the
    [POST] handler with its two normalisation helpers) and of the page
    component's [processFiles], [handleFileChange], [removeFile] and
    [downloadResults], with the library encoders they call and the
    decoders that read their output back.

    The handler works on values typed [any]; they are embedded as the
    untyped values of the language, with the coercions the code relies on
    ([||], [&&], [> 0], template literals, [join]) written out.  Exceptions
    are explicit: a computation either completes normally or throws. *)

From Stdlib Require Import ZArith QArith String Ascii List Bool Lia DecimalString.
From Stdlib Require Strings.Byte.
From Stdlib Require DecimalFacts DecimalPos.
From stdpp Require Import base list strings gmap.

Open Scope string_scope.

(** ** Values

    A value of type [any].  Numbers are the rationals denoted by finite
    doubles; the characters of a string stand for its code units; the fields
    of an object are listed in property-enumeration order and looked up by
    first match. *)

#[warnings="-register-all"]
Inductive any : Type :=
| JUndefined
| JNull
| JBool (b : bool)
| JNum (q : Q)
| JStr (s : string)
| JArr (items : list any)
| JObj (fields : list (string * any)).

(** ** Completions: normal return or a thrown error with its message *)

Inductive completion (A : Type) : Type :=
| Normal (a : A)
| Throw (message : string).

Arguments Normal {A} a.
Arguments Throw {A} message.

#[global] Instance completion_ret : MRet completion := @Normal.
#[global] Instance completion_bind : MBind completion :=
  λ A B f m, match m with Normal a => f a | Throw e => Throw e end.

(** [mapi f l] runs [f index element] from left to right, as [map] and
    [forEach] call their callback, and stops at the first throw. *)
Fixpoint mapi_from {A B} (f : nat → A → completion B) (index : nat) (l : list A)
  : completion (list B) :=
  match l with
  | [] => Normal []
  | x :: rest => y ← f index x; ys ← mapi_from f (S index) rest; Normal (y :: ys)
  end.

Definition mapi {A B} (f : nat → A → completion B) (l : list A) : completion (list B) :=
  mapi_from f 0 l.

(** ** Object and property access *)

Definition lookup_field (k : string) (fields : list (string * any)) : any :=
  match find (λ kv, String.eqb (fst kv) k) fields with
  | Some kv => snd kv
  | None => JUndefined
  end.

Definition has_field (k : string) (fields : list (string * any)) : bool :=
  existsb (λ kv, String.eqb (fst kv) k) fields.

(** The decimal digits of an integer. *)
Definition integer_to_string (z : Z) : string :=
  NilZero.string_of_int (Z.to_int z).

Definition nat_to_string (n : nat) : string :=
  integer_to_string (Z.of_nat n).

Definition JNat (n : nat) : any := JNum (inject_Z (Z.of_nat n)).

Definition cannot_read (what k : string) : string :=
  "Cannot read properties of " ++ what ++ " (reading '" ++ k ++ "')".

(** [o.k] for the property names this program reads.  None of them is on
    [Object.prototype]; on arrays and strings only [length] is found. *)
Definition get (o : any) (k : string) : completion any :=
  match o with
  | JUndefined => Throw (cannot_read "undefined" k)
  | JNull => Throw (cannot_read "null" k)
  | JBool _ | JNum _ => Normal JUndefined
  | JStr s => Normal (if String.eqb k "length" then JNat (String.length s) else JUndefined)
  | JArr items => Normal (if String.eqb k "length" then JNat (length items) else JUndefined)
  | JObj fields => Normal (lookup_field k fields)
  end.

(** [o[i]] for a literal index [i]. *)
Definition get_index (o : any) (i : nat) : completion any :=
  match o with
  | JUndefined => Throw (cannot_read "undefined" (nat_to_string i))
  | JNull => Throw (cannot_read "null" (nat_to_string i))
  | JBool _ | JNum _ => Normal JUndefined
  | JStr s =>
      Normal match String.get i s with
             | Some c => JStr (String c EmptyString)
             | None => JUndefined
             end
  | JArr items => Normal (default JUndefined (items !! i))
  | JObj fields => Normal (lookup_field (nat_to_string i) fields)
  end.

(** [o?.k] *)
Definition get_opt (o : any) (k : string) : completion any :=
  match o with
  | JUndefined | JNull => Normal JUndefined
  | _ => get o k
  end.

Definition isArray (v : any) : bool :=
  match v with JArr _ => true | _ => false end.

(** ** Coercions *)

(** ToBoolean *)
Definition truthy (v : any) : bool :=
  match v with
  | JUndefined | JNull => false
  | JBool b => b
  | JNum q => negb (Qnum q =? 0)%Z
  | JStr s => negb (String.eqb s "")
  | JArr _ | JObj _ => true
  end.

(** [a || b]: [b] is only evaluated when [a] is falsy. *)
Definition or_else (a b : completion any) : completion any :=
  x ← a; if truthy x then Normal x else b.

Infix "|||" := or_else (at level 50, left associativity).

Definition is_integer (q : Q) : bool :=
  (Z.rem (Qnum q) (Z.pos (Qden q)) =? 0)%Z.

Definition integer_part (q : Q) : Z :=
  (Z.quot (Qnum q) (Z.pos (Qden q)))%Z.

(** The two conversions between numbers and their text that the embedding
    does not spell out are an interface of the engine: the digits of a
    number that is not an integer of magnitude at most 2^53 (up to there
    every integer is a double and prints with its exact digits; beyond,
    the shortest digits that read back as the same double are printed),
    and whether the number that a string denotes is positive. *)
Class Engine := {
  fraction_to_string : Q → string;
  string_is_positive : string → bool
}.

Section Coercions.
Context `{Engine}.

(** Number::toString *)
Definition number_to_string (q : Q) : string :=
  if is_integer q && (Z.abs (integer_part q) <=? 2 ^ 53)%Z
  then integer_to_string (integer_part q)
  else fraction_to_string q.

(** ToString.  An array is joined with commas; an object prints as
    [[object Object]] unless an own [toString] field (never callable in
    parsed JSON) hides the inherited method, in which case the
    conversion throws. *)
Fixpoint to_string (v : any) : completion string :=
  match v with
  | JUndefined => Normal "undefined"
  | JNull => Normal "null"
  | JBool b => Normal (if b then "true" else "false")
  | JNum q => Normal (number_to_string q)
  | JStr s => Normal s
  | JArr items =>
      parts ← (fix each (l : list any) : completion (list string) :=
                 match l with
                 | [] => Normal []
                 | x :: rest =>
                     s ← match x with
                         | JUndefined | JNull => Normal ""
                         | _ => to_string x
                         end;
                     ss ← each rest;
                     Normal (s :: ss)
                 end) items;
      Normal (String.concat "," parts)
  | JObj fields =>
      if has_field "toString" fields
      then Throw "Cannot convert object to primitive value"
      else Normal "[object Object]"
  end.

(** [Array.prototype.join]: [undefined] and [null] elements print as the
    empty string, the others through ToString. *)
Definition join_element (x : any) : completion string :=
  match x with
  | JUndefined | JNull => Normal ""
  | _ => to_string x
  end.

Definition join (separator : string) (items : list any) : completion string :=
  parts ← mapi (λ _ x, join_element x) items;
  Normal (String.concat separator parts).

(** [v > 0], through ToPrimitive and ToNumber. *)
Definition gt_zero (v : any) : completion bool :=
  match v with
  | JUndefined | JNull => Normal false
  | JBool b => Normal b
  | JNum q => Normal (0 <? Qnum q)%Z
  | JStr s => Normal (string_is_positive s)
  | JArr _ | JObj _ => s ← to_string v; Normal (string_is_positive s)
  end.

End Coercions.

(** ** Normalisation of the upstream payload (route.ts, lines 177-283) *)

Record Entity := {
  type : any;
  value : any;
  confidence : any
}.

Section Normalisation.
Context `{Engine}.

(** [result.predictions && result.predictions.length > 0] *)
Definition has_predictions (result : any) : completion bool :=
  predictions ← get result "predictions";
  if truthy predictions
  then predictions ← get result "predictions";
       len ← get predictions "length";
       gt_zero len
  else Normal false.

(** [a.map(f)] and [a.forEach(f)]: the callback runs on each element with
    its index; on a value that is no array the method is missing. *)
Definition array_map {B} (a : any) (f : nat → any → completion B)
  : completion (list B) :=
  match a with
  | JArr items => mapi f items
  | _ => Throw "map is not a function"
  end.

(** [(segment) => segment.text || segment] *)
Definition segment_text (segment : any) : completion any :=
  get segment "text" ||| Normal segment.

(** [(region) => region.text || region.value || ""] *)
Definition region_text (region : any) : completion any :=
  get region "text" ||| get region "value" ||| Normal (JStr "").

(** The [if] block on [predictions[0]] of [extractTextFromResult]: [Some]
    is a [return] inside the block, [None] falls out of it. *)
Definition text_of_prediction (prediction : any) : completion (option any) :=
  extracted_text ← get prediction "extracted_text";
  if truthy extracted_text then Normal (Some extracted_text) else
  ocr_text ← get prediction "ocr_text";
  if truthy ocr_text then Normal (Some ocr_text) else
  text ← get prediction "text";
  if truthy text then Normal (Some text) else
  text_segments ← get prediction "text_segments";
  if truthy text_segments && isArray text_segments then
    mapped ← array_map text_segments (λ _ segment, segment_text segment);
    joined ← join " " mapped;
    Normal (Some (JStr joined))
  else
  regions ← get prediction "regions";
  if truthy regions && isArray regions then
    mapped ← array_map regions (λ _ region, region_text region);
    joined ← join " " mapped;
    Normal (Some (JStr joined))
  else Normal None.

(** The body of the [try] of [extractTextFromResult]. *)
Definition extractTextFromResult_try (result : any) : completion any :=
  nonempty ← has_predictions result;
  returned ← (if nonempty : bool
              then predictions ← get result "predictions";
                   prediction ← get_index predictions 0;
                   text_of_prediction prediction
              else Normal None);
  match returned with
  | Some text => Normal text
  | None =>
      text ← get result "text";
      if truthy text then Normal text else
      ocr_result ← get result "ocr_result";
      if truthy ocr_result then Normal ocr_result else
      Normal (JStr "No text extracted")
  end.

Definition extractTextFromResult (result : any) : any :=
  match extractTextFromResult_try result with
  | Normal text => text
  | Throw _ => JStr "Error extracting text"
  end.

(** The four callbacks that push one entity each. *)
Definition entity_of_entity (entity : any) : completion Entity :=
  t ← get entity "type" ||| get entity "label" ||| get entity "class"
        ||| Normal (JStr "Unknown");
  v ← get entity "value" ||| get entity "text" ||| get entity "content"
        ||| Normal (JStr "");
  c ← get entity "confidence" ||| get entity "score" ||| get entity "probability"
        ||| Normal (JNat 0);
  Normal {| type := t; value := v; confidence := c |}.

Definition entity_of_pair (pair : any) : completion Entity :=
  t ← get pair "key" ||| Normal (JStr "Key-Value");
  v ← get pair "value" ||| Normal (JStr "");
  c ← get pair "confidence" ||| Normal (JNat 0);
  Normal {| type := t; value := v; confidence := c |}.

(** [table.rows?.length || table.data?.length || 0] *)
Definition row_count (table : any) : completion any :=
  (rows ← get table "rows"; get_opt rows "length")
    ||| (data ← get table "data"; get_opt data "length")
    ||| Normal (JNat 0).

Definition entity_of_table (index : nat) (table : any) : completion Entity :=
  rows ← row_count table;
  rows_text ← to_string rows;
  c ← get table "confidence" ||| Normal (JNat 0);
  Normal {| type := JStr "Table";
            value := JStr ("Table " ++ number_to_string (inject_Z (Z.of_nat (index + 1)))
                             ++ " (" ++ rows_text ++ " rows)");
            confidence := c |}.

Definition entity_of_box (index : nat) (box : any) : completion Entity :=
  t ← get box "label" ||| get box "class" ||| Normal (JStr "Detection");
  v ← get box "text" ||| get box "value"
        ||| Normal (JStr ("Detection " ++ number_to_string (inject_Z (Z.of_nat (index + 1)))));
  c ← get box "confidence" ||| get box "score" ||| Normal (JNat 0);
  Normal {| type := t; value := v; confidence := c |}.

(** [if (a && Array.isArray(a)) { a.forEach(f) }], giving the entities
    pushed by the block. *)
Definition pushed_from (a : any) (f : nat → any → completion Entity)
  : completion (list Entity) :=
  if truthy a && isArray a then array_map a f else Normal [].

(** The body of the [try] of [extractEntitiesFromResult]: the entities
    array after the four blocks have pushed into it. *)
Definition extractEntitiesFromResult_try (result : any) : completion (list Entity) :=
  nonempty ← has_predictions result;
  if nonempty : bool then
    predictions ← get result "predictions";
    prediction ← get_index predictions 0;
    entities ← get prediction "entities";
    from_entities ← pushed_from entities (λ _ entity, entity_of_entity entity);
    key_value_pairs ← get prediction "key_value_pairs";
    from_pairs ← pushed_from key_value_pairs (λ _ pair, entity_of_pair pair);
    tables ← get prediction "tables";
    from_tables ← pushed_from tables entity_of_table;
    bounding_boxes ← get prediction "bounding_boxes";
    from_boxes ← pushed_from bounding_boxes entity_of_box;
    Normal (from_entities ++ from_pairs ++ from_tables ++ from_boxes)%list
  else Normal [].

Definition extractEntitiesFromResult (result : any) : list Entity :=
  match extractEntitiesFromResult_try result with
  | Normal entities => entities
  | Throw _ => []
  end.

End Normalisation.

(** ** JSON.stringify and the encoders used on the way out *)

Definition newline : string := String (ascii_of_nat 10) EmptyString.

Definition hex_digit (upper : bool) (n : N) : ascii :=
  let digits := if upper then "0123456789ABCDEF" else "0123456789abcdef" in
  default "0"%char (String.get (N.to_nat n) digits).

(** QuoteJSONString, on one code unit and on a string. *)
Definition backslash : string := String (ascii_of_nat 92) EmptyString.
Definition double_quote : string := String (ascii_of_nat 34) EmptyString.

Definition quote_char (c : ascii) : string :=
  let n := N_of_ascii c in
  if (n =? 8)%N then backslash ++ "b"
  else if (n =? 9)%N then backslash ++ "t"
  else if (n =? 10)%N then backslash ++ "n"
  else if (n =? 12)%N then backslash ++ "f"
  else if (n =? 13)%N then backslash ++ "r"
  else if (n =? 34)%N then backslash ++ double_quote
  else if (n =? 92)%N then backslash ++ backslash
  else if (n <? 32)%N
       then backslash ++ "u00"
              ++ String (hex_digit false (n / 16)) (String (hex_digit false (n mod 16)) EmptyString)
       else String c EmptyString.

Fixpoint quote_chars (s : string) : string :=
  match s with
  | EmptyString => EmptyString
  | String c rest => quote_char c ++ quote_chars rest
  end.

Definition quote (s : string) : string :=
  double_quote ++ quote_chars s ++ double_quote.

(** The text of a non-empty array or object: its parts between the
    brackets, one per line under a non-empty [gap]. *)
Definition bracketed (opening closing gap stepback : string) (parts : list string) : string :=
  if String.eqb gap ""
  then opening ++ String.concat "," parts ++ closing
  else let indent := stepback ++ gap in
       opening ++ newline ++ indent
         ++ String.concat ("," ++ newline ++ indent) parts
         ++ newline ++ stepback ++ closing.

Section Stringify.
Context `{Engine}.

(** SerializeJSONProperty with [gap] as the indentation unit and
    [stepback] as the current indentation; [None] is [undefined]. *)
Fixpoint serialize (gap stepback : string) (v : any) : option string :=
  match v with
  | JUndefined => None
  | JNull => Some "null"
  | JBool b => Some (if b then "true" else "false")
  | JNum q => Some (number_to_string q)
  | JStr s => Some (quote s)
  | JArr items =>
      let parts :=
        (fix each (l : list any) : list string :=
           match l with
           | [] => []
           | x :: rest => default "null" (serialize gap (stepback ++ gap) x) :: each rest
           end) items in
      Some match parts with
           | [] => "[]"
           | _ => bracketed "[" "]" gap stepback parts
           end
  | JObj fields =>
      let parts :=
        (fix each (l : list (string * any)) : list string :=
           match l with
           | [] => []
           | (k, x) :: rest =>
               match serialize gap (stepback ++ gap) x with
               | Some text =>
                   (quote k ++ ":" ++ (if String.eqb gap "" then "" else " ") ++ text)
                     :: each rest
               | None => each rest
               end
           end) fields in
      Some match parts with
           | [] => "{}"
           | _ => bracketed "{" "}" gap stepback parts
           end
  end.

(** [JSON.stringify(v)] and [JSON.stringify(v, null, 2)] *)
Definition JSON_stringify (v : any) : option string := serialize "" "" v.
Definition JSON_stringify_2 (v : any) : option string := serialize "  " "" v.

End Stringify.

(** [Buffer.from(bytes).toString("base64")] *)
Definition base64_digit (n : N) : ascii :=
  default "="%char
    (String.get (N.to_nat n)
       "ABCDEFGHIJKLMNOPQRSTUVWXYZabcdefghijklmnopqrstuvwxyz0123456789+/").

Definition base64_group (n : N) (digits : nat) : string :=
  let d k := base64_digit ((n / 64 ^ k) mod 64) in
  match digits with
  | 2 => String (d 3%N) (String (d 2%N) "==")
  | 3 => String (d 3%N) (String (d 2%N) (String (d 1%N) "="))
  | _ => String (d 3%N) (String (d 2%N) (String (d 1%N) (String (d 0%N) EmptyString)))
  end.

Fixpoint base64 (bytes : list Byte.byte) : string :=
  match bytes with
  | [] => ""
  | [a] => base64_group (Byte.to_N a * 65536) 2
  | [a; b] => base64_group (Byte.to_N a * 65536 + Byte.to_N b * 256) 3
  | a :: b :: c :: rest =>
      base64_group (Byte.to_N a * 65536 + Byte.to_N b * 256 + Byte.to_N c) 4 ++ base64 rest
  end.

(** ** The extraction gateway (route.ts, lines 3-175) *)

Module File.
Record t := {
  name : string;
  type : string;
  size : nat;
  bytes : list Byte.byte
}.
End File.

(** A form field holds a string or a file. *)
Inductive FormDataEntryValue :=
| EntryString (s : string)
| EntryFile (f : File.t).

Definition FormData := list (string * FormDataEntryValue).

(** [formData.get(name)]: the first value under [name], or [null]. *)
Definition FormData_get (name : string) (formData : FormData) : option FormDataEntryValue :=
  snd <$> find (λ entry, String.eqb (fst entry) name) formData.

(** [!entry] for what [formData.get] returns. *)
Definition missing (entry : option FormDataEntryValue) : bool :=
  match entry with
  | None => true
  | Some (EntryString s) => String.eqb s ""
  | Some (EntryFile _) => false
  end.

(** The entry once [!entry] has been found false. *)
Definition provided (entry : option FormDataEntryValue) : option FormDataEntryValue :=
  if missing entry then None else entry.

(** The credential as it is spliced into headers and the query string. *)
Definition entry_to_string (entry : FormDataEntryValue) : string :=
  match entry with
  | EntryString s => s
  | EntryFile _ => "[object File]"
  end.

(** [await file.arrayBuffer()] *)
Definition arrayBuffer (entry : FormDataEntryValue) : completion (list Byte.byte) :=
  match entry with
  | EntryFile f => Normal (File.bytes f)
  | EntryString _ => Throw "file.arrayBuffer is not a function"
  end.

Definition file_name (entry : FormDataEntryValue) : any :=
  match entry with EntryFile f => JStr (File.name f) | EntryString _ => JUndefined end.

Definition file_type (entry : FormDataEntryValue) : any :=
  match entry with EntryFile f => JStr (File.type f) | EntryString _ => JUndefined end.

Definition file_size (entry : FormDataEntryValue) : any :=
  match entry with EntryFile f => JNat (File.size f) | EntryString _ => JUndefined end.

(** The incoming request: [request.formData()] gives the form or rejects. *)
Record NextRequest := {
  formData : completion FormData
}.

(** One [fetch] to the upstream service and what it resolves to. *)
Record UpstreamRequest := {
  url : string;
  method : string;
  headers : list (string * string);
  body : option string
}.

(** [text] and [json] are what [await response.text()] and
    [await response.json()] resolve to, or the error they reject with. *)
Module Response.
Record t := {
  status : nat;
  text : completion string;
  json : completion any
}.

Definition ok (r : t) : bool := ((200 <=? status r) && (status r <=? 299))%nat.
End Response.

(** What the handler answers: [NextResponse.json(body, { status })]. *)
Record NextResponse := {
  reply_body : any;
  reply_status : nat
}.

Definition NextResponse_json (body : any) (status : nat) : NextResponse :=
  {| reply_body := body; reply_status := status |}.

Definition error_body (message : string) : any := JObj [("error", JStr message)].

Definition predict_url : string := "https://predict.app.landing.ai/inference/v1/predict".

Definition entity_to_any (e : Entity) : any :=
  JObj [("type", type e); ("value", value e); ("confidence", confidence e)].

(** The handler's computations thread the log of the [fetch] calls issued
    so far and may throw. *)
Definition Gateway (A : Type) : Type :=
  list UpstreamRequest → completion A * list UpstreamRequest.

#[global] Instance Gateway_ret : MRet Gateway := λ A a log, (Normal a, log).
#[global] Instance Gateway_bind : MBind Gateway :=
  λ A B f m log,
    match m log with
    | (Normal a, log') => f a log'
    | (Throw e, log') => (Throw e, log')
    end.

Definition lift {A} (c : completion A) : Gateway A := λ log, (c, log).

(** [try { m } catch (e) { handler e }] *)
Definition try_catch {A} (m : Gateway A) (handler : string → Gateway A) : Gateway A :=
  λ log,
    match m log with
    | (Normal a, log') => (Normal a, log')
    | (Throw e, log') => handler e log'
    end.

Section Gateway.
Context `{Engine}.

(** The upstream service: what the [n]-th [fetch] of an invocation (counted
    from 0) resolves to, or the error it rejects with. *)
Variable upstream : nat → UpstreamRequest → completion Response.t.

(** [new Date().toISOString()] at the time the handler answers. *)
Variable now : string.

Definition fetch (request : UpstreamRequest) : Gateway Response.t :=
  λ log, (upstream (length log) request, (log ++ [request])%list).

Definition images_body (base64File : string) : any :=
  JObj [("type", JStr "file_upload");
        ("images", JArr [JObj [("type", JStr "base64"); ("value", JStr base64File)]])].

Definition file_body (file : FormDataEntryValue) (base64File : string) : any :=
  JObj [("file", JStr base64File);
        ("filename", file_name file);
        ("filetype", file_type file)].

Definition post (target : string) (auth : list (string * string)) (payload : any)
  : UpstreamRequest :=
  {| url := target;
     method := "POST";
     headers := (("Content-Type", "application/json") :: auth)%list;
     body := JSON_stringify payload |}.

(** The five formats, in the order of the source. *)
Definition format1 (file : FormDataEntryValue) (apiKey base64File : string) :=
  post predict_url [("apikey", apiKey)] (images_body base64File).
Definition format2 (file : FormDataEntryValue) (apiKey base64File : string) :=
  post predict_url [("Authorization", "Bearer " ++ apiKey)] (images_body base64File).
Definition format3 (file : FormDataEntryValue) (apiKey base64File : string) :=
  post predict_url [("API-Key", apiKey)] (images_body base64File).
Definition format4 (file : FormDataEntryValue) (apiKey base64File : string) :=
  post predict_url [("apikey", apiKey)] (file_body file base64File).
Definition format5 (file : FormDataEntryValue) (apiKey base64File : string) :=
  post (predict_url ++ "?apikey=" ++ apiKey) [] (images_body base64File).

(** The probe steps in order. *)
Definition formats (file : FormDataEntryValue) (apiKey base64File : string)
  : list UpstreamRequest :=
  [format1 file apiKey base64File;
   format2 file apiKey base64File;
   format3 file apiKey base64File;
   format4 file apiKey base64File;
   format5 file apiKey base64File].

(** Whether step [k] (counted from 0), issued as the [k]-th call, is
    answered with status 401. *)
Definition unauthorized (steps : list UpstreamRequest) (k : nat) : bool :=
  match steps !! k with
  | Some step =>
      match upstream k step with
      | Normal response => (Response.status response =? 401)%nat
      | Throw _ => false
      end
  | None => false
  end.

(** The body of the inner [try]: [landingAIResponse] is assigned by the
    first [fetch] and reassigned while its status is 401. *)
Definition probe (file : FormDataEntryValue) (apiKey base64File : string)
  : Gateway Response.t :=
  landingAIResponse ← fetch (format1 file apiKey base64File);
  landingAIResponse ←
    (if (Response.status landingAIResponse =? 401)%nat
     then fetch (format2 file apiKey base64File) else mret landingAIResponse);
  landingAIResponse ←
    (if (Response.status landingAIResponse =? 401)%nat
     then fetch (format3 file apiKey base64File) else mret landingAIResponse);
  landingAIResponse ←
    (if (Response.status landingAIResponse =? 401)%nat
     then fetch (format4 file apiKey base64File) else mret landingAIResponse);
  landingAIResponse ←
    (if (Response.status landingAIResponse =? 401)%nat
     then fetch (format5 file apiKey base64File) else mret landingAIResponse);
  mret landingAIResponse.

(** Lines 123-165: the answer for the response that probing ended with.
    The body text of a response that is not ok is awaited before its
    status is looked at. *)
Definition answer (file : FormDataEntryValue) (landingAIResponse : Response.t)
  : completion NextResponse :=
  if negb (Response.ok landingAIResponse) then
    errorText ← Response.text landingAIResponse;
    if (Response.status landingAIResponse =? 401)%nat then
      Normal (NextResponse_json
                (error_body "Invalid API key or authentication failed. Please check your LandingAI API key.")
                401)
    else if (Response.status landingAIResponse =? 403)%nat then
      Normal (NextResponse_json
                (error_body "Access forbidden. Please check your API key permissions.")
                403)
    else
      Normal (NextResponse_json
                (error_body ("LandingAI API error ("
                               ++ number_to_string (inject_Z (Z.of_nat (Response.status landingAIResponse)))
                               ++ "): " ++ errorText))
                500)
  else
    result ← Response.json landingAIResponse;
    let processedResult :=
      JObj [("data", result);
            ("extractedText", extractTextFromResult result);
            ("entities", JArr (entity_to_any <$> extractEntitiesFromResult result));
            ("fileName", file_name file);
            ("fileSize", file_size file);
            ("processedAt", JStr now)] in
    Normal (NextResponse_json processedResult 200).

(** The body of the outer [try]. *)
Definition POST_try (request : NextRequest) : Gateway NextResponse :=
  formData ← lift (formData request);
  match provided (FormData_get "file" formData) with
  | None => mret (NextResponse_json (error_body "No file provided") 400)
  | Some file =>
      match provided (FormData_get "apiKey" formData) with
      | None => mret (NextResponse_json (error_body "No API key provided") 400)
      | Some apiKey =>
          bytes ← lift (arrayBuffer file);
          let base64File := base64 bytes in
          probed ← try_catch
                     (landingAIResponse ← probe file (entry_to_string apiKey) base64File;
                      mret (inl landingAIResponse))
                     (λ _, mret (inr (NextResponse_json (error_body "Network error occurred") 500)));
          match probed with
          | inl landingAIResponse => lift (answer file landingAIResponse)
          | inr reply => mret reply
          end
      end
  end.

(** The handler, started with no call issued: its answer and the [fetch]
    calls it made, oldest first. *)
Definition POST (request : NextRequest) : NextResponse * list UpstreamRequest :=
  match POST_try request [] with
  | (Normal reply, log) => (reply, log)
  | (Throw message, log) =>
      (NextResponse_json (error_body ("Failed to process document: " ++ message)) 500, log)
  end.

End Gateway.

(** ** The submission orchestrator (page component) *)

Module Status.
Inductive t := processing | completed | error.

#[global] Instance eq_dec : EqDecision t.
Proof. solve_decision. Defined.

Definition to_string (s : t) : string :=
  match s with
  | processing => "processing"
  | completed => "completed"
  | error => "error"
  end.
End Status.

(** An optional field that is absent holds [JUndefined]. *)
Record ExtractionResult := {
  fileName : string;
  status : Status.t;
  data : any;
  error : any;
  extractedText : any;
  entities : any
}.

(** [files.map((file) => ({ fileName: file.name, status: "processing" }))] *)
Definition initialResults (files : list File.t) : list ExtractionResult :=
  (λ file, {| fileName := File.name file;
              status := Status.processing;
              data := JUndefined;
              error := JUndefined;
              extractedText := JUndefined;
              entities := JUndefined |}) <$> files.

(** The three updaters handed to [setResults]; each is
    [(prev) => prev.map((r, i) => (i === index ? { ...r, ... } : r))], and
    reads the fields of [result] only when it reaches the entry at [index]. *)
Definition mark_completed (index : nat) (result : any) (prev : list ExtractionResult)
  : completion (list ExtractionResult) :=
  mapi (λ i r,
          if (i =? index)%nat then
            result_data ← get result "data";
            result_extractedText ← get result "extractedText";
            result_entities ← get result "entities";
            Normal {| fileName := fileName r;
                      status := Status.completed;
                      data := result_data;
                      error := error r;
                      extractedText := result_extractedText;
                      entities := result_entities |}
          else Normal r) prev.

Definition mark_error (index : nat) (message : completion any) (prev : list ExtractionResult)
  : completion (list ExtractionResult) :=
  mapi (λ i r,
          if (i =? index)%nat then
            message ← message;
            Normal {| fileName := fileName r;
                      status := Status.error;
                      data := data r;
                      error := message;
                      extractedText := extractedText r;
                      entities := entities r |}
          else Normal r) prev.

(** The promise of the file at [index], given what the [fetch] to the
    gateway resolved to: the updater it hands to [setResults]. *)
Definition settle (index : nat) (outcome : completion Response.t)
  : list ExtractionResult → completion (list ExtractionResult) :=
  match (response ← outcome; result ← Response.json response; Normal (response, result)) with
  | Normal (response, result) =>
      if Response.ok response
      then mark_completed index result
      else mark_error index (get result "error" ||| Normal (JStr "Processing failed"))
  | Throw _ => mark_error index (Normal (JStr "Network error occurred"))
  end.

(** The response the page receives when the gateway answers [reply]. *)
Section Transport.
Context `{Engine}.

Definition received (reply : NextResponse) : Response.t :=
  {| Response.status := reply_status reply;
     Response.text := Normal (default "" (JSON_stringify (reply_body reply)));
     Response.json := Normal (reply_body reply) |}.
End Transport.

(** The state of one run of [processFiles]: the results list, and the
    indices of the files whose promise has not applied its update yet. *)
Record Run := {
  results : list ExtractionResult;
  in_flight : gset nat
}.

(** The run once lines 347-394 have executed: the results initialised and
    one promise per file in flight. *)
Definition dispatched (files : list File.t) : Run :=
  {| results := initialResults files;
     in_flight := list_to_set (seq 0 (length files)) |}.

(** White space as [trim] sees it, among the code units below 256. *)
Definition is_white_space (c : ascii) : bool :=
  let n := N_of_ascii c in
  ((9 <=? n) && (n <=? 13) || (n =? 32) || (n =? 160))%N.

(** [!apiKey.trim()] *)
Definition blank (apiKey : string) : bool :=
  forallb is_white_space (list_ascii_of_string apiKey).

(** [processFiles]: [None] when it returns after an alert, without
    dispatching anything. *)
Definition processFiles (apiKey : string) (files : list File.t) : option Run :=
  if blank apiKey then None
  else if (length files =? 0)%nat then None
  else Some (dispatched files).

(** One step: some in-flight promise settles and its updater is applied.
    These are the steps of a run during which the file list is left
    alone; [event], further down, adds what the user may do meanwhile. *)
Inductive step : Run → Run → Prop :=
| step_settle (s : Run) (index : nat) (outcome : completion Response.t)
    (next : list ExtractionResult) :
    index ∈ in_flight s →
    settle index outcome (results s) = Normal next →
    step s {| results := next; in_flight := in_flight s ∖ {[index]} |}.

Inductive reachable (files : list File.t) : Run → Prop :=
| reachable_start : reachable files (dispatched files)
| reachable_step (s s' : Run) : reachable files s → step s s' → reachable files s'.

(** ** Export (downloadResults) *)

Definition result_to_any (r : ExtractionResult) : any :=
  JObj [("fileName", JStr (fileName r));
        ("status", JStr (Status.to_string (status r)));
        ("data", data r);
        ("extractedText", extractedText r);
        ("entities", entities r);
        ("error", error r)].

(** [results.filter((r) => r.status === "completed")] *)
Definition completedResults (results : list ExtractionResult) : list ExtractionResult :=
  filter (λ r, status r = Status.completed) results.

Definition is_unreserved (c : ascii) : bool :=
  let n := N_of_ascii c in
  ((65 <=? n) && (n <=? 90) || (97 <=? n) && (n <=? 122) || (48 <=? n) && (n <=? 57))%N
  || existsb (Ascii.eqb c) (list_ascii_of_string "-_.!~*'()").

Definition percent (n : N) : string :=
  String "%"%char (String (hex_digit true (n / 16)) (String (hex_digit true (n mod 16)) EmptyString)).

(** [encodeURIComponent], on code units below 256. *)
Fixpoint encodeURIComponent (s : string) : string :=
  match s with
  | EmptyString => EmptyString
  | String c rest =>
      let n := N_of_ascii c in
      (if is_unreserved c then String c EmptyString
       else if (n <? 128)%N then percent n
       else percent (192 + n / 64) ++ percent (128 + n mod 64))
        ++ encodeURIComponent rest
  end.

(** [s.split("T")[0]] *)
Fixpoint before_T (s : string) : string :=
  match s with
  | EmptyString => EmptyString
  | String c rest => if Ascii.eqb c "T" then EmptyString else String c (before_T rest)
  end.

Record Download := {
  href : string;
  download : string
}.

Section ExportLink.
Context `{Engine}.

(** [JSON.stringify(completedResults, null, 2)] *)
Definition dataStr (results : list ExtractionResult) : option string :=
  JSON_stringify_2 (JArr (result_to_any <$> completedResults results)).

(** The attributes of the link that [downloadResults] clicks; [now] is
    [new Date().toISOString()]. *)
Definition downloadResults (now : string) (results : list ExtractionResult) : Download :=
  let dataUri := "data:application/json;charset=utf-8,"
                   ++ encodeURIComponent (default "undefined" (dataStr results)) in
  let exportFileDefaultName := "extraction-results-" ++ before_T now ++ ".json" in
  {| href := dataUri; download := exportFileDefaultName |}.

End ExportLink.

(** ** Vocabulary of the statements *)

Definition nullish (v : any) : bool :=
  match v with JUndefined | JNull => true | _ => false end.

(** The field [k] of a value that is neither [undefined] nor [null];
    [JUndefined] when the field is absent. *)
Definition field (o : any) (k : string) : any :=
  match get o k with
  | Normal v => v
  | Throw _ => JUndefined
  end.

Definition is_string (v : any) : bool :=
  match v with JStr _ => true | _ => false end.

(** The first of the fields [keys] of [o] that holds a truthy value, else
    [fallback]. *)
Fixpoint first_truthy (o : any) (keys : list string) (fallback : any) : any :=
  match keys with
  | [] => fallback
  | k :: rest => if truthy (field o k) then field o k else first_truthy o rest fallback
  end.

(** What a text segment contributes to the joined text: the segment
    itself when it is a string, its [text] field when that is a non-empty
    string. *)
Definition segment_contribution (segment : any) : option string :=
  match segment with
  | JStr s => Some s
  | JObj _ =>
      match field segment "text" with
      | JStr t => if String.eqb t "" then None else Some t
      | _ => None
      end
  | _ => None
  end.

(** What the specification promises for a text segment: the segment
    itself when it is already a string, its own [text] field otherwise. *)
Definition promised_segment (segment : any) : any :=
  match segment with
  | JStr _ => segment
  | _ => field segment "text"
  end.

(** A field that is absent or holds a string, as a string ([""] when
    absent); [None] for any other value. *)
Definition optional_string (v : any) : option string :=
  match v with
  | JUndefined => Some ""
  | JStr s => Some s
  | _ => None
  end.

(** What a region contributes: its [text], or its [value], or nothing. *)
Definition region_contribution (region : any) : option string :=
  match region with
  | JObj _ =>
      text ← optional_string (field region "text");
      value ← optional_string (field region "value");
      Some (if String.eqb text "" then value else text)
  | _ => None
  end.

(** The number of rows of a table whose [rows] and [data] are each an
    array or absent: the length of [rows], or of [data] when there are no
    rows. *)
Definition optional_length (v : any) : option nat :=
  match v with
  | JUndefined => Some 0
  | JArr items => Some (length items)
  | _ => None
  end.

Definition counted_rows (table : any) : option nat :=
  match table with
  | JObj _ =>
      rows ← optional_length (field table "rows");
      data ← optional_length (field table "data");
      Some (if (rows =? 0)%nat then data else rows)
  | _ => None
  end.

(** The entity that the specification promises for an element of
    [entities]: [label]/[class], [text]/[content], [score]/[probability]. *)
Definition promised_entity (entity : any) : Entity :=
  {| type := first_truthy entity ["label"; "class"] (JStr "Unknown");
     value := first_truthy entity ["text"; "content"] (JStr "");
     confidence := first_truthy entity ["score"; "probability"] (JNat 0) |}.

(** The entity that the code builds for it. *)
Definition normalized_entity (entity : any) : Entity :=
  {| type := first_truthy entity ["type"; "label"; "class"] (JStr "Unknown");
     value := first_truthy entity ["value"; "text"; "content"] (JStr "");
     confidence := first_truthy entity ["confidence"; "score"; "probability"] (JNat 0) |}.

Definition table_entity (index rows : nat) (table : any) : Entity :=
  {| type := JStr "Table";
     value := JStr ("Table " ++ nat_to_string (index + 1)
                      ++ " (" ++ nat_to_string rows ++ " rows)");
     confidence := first_truthy table ["confidence"] (JNat 0) |}.

(** An engine to run the definitions on the sample inputs below, none of
    which reaches either conversion: their numbers are printed only when
    they are small integers, and no string is compared with a number. *)
Definition plain_engine : Engine :=
  {| fraction_to_string := λ _, "";
     string_is_positive := λ _, false |}.

(** [predictions[0]] of a payload, [JUndefined] when there is none. *)
Definition first_prediction (result : any) : any :=
  match get result "predictions" with
  | Normal predictions =>
      match get_index predictions 0 with
      | Normal prediction => prediction
      | Throw _ => JUndefined
      end
  | Throw _ => JUndefined
  end.

(** The fields whose value [extractTextFromResult] may return as it is. *)
Definition text_sources (payload : any) : list any :=
  let prediction := first_prediction payload in
  [field prediction "extracted_text";
   field prediction "ocr_text";
   field prediction "text";
   field payload "text";
   field payload "ocr_result"].

(** ** Sample inputs *)

Definition sample_file : File.t :=
  {| File.name := "scan.pdf";
     File.type := "application/pdf";
     File.size := 3;
     File.bytes := [Byte.x4d; Byte.x61; Byte.x6e] |}.

Definition sample_form : FormData :=
  [("file", EntryFile sample_file); ("apiKey", EntryString "secret")].

Definition sample_request : NextRequest := {| formData := Normal sample_form |}.

Definition keyless_request : NextRequest :=
  {| formData := Normal [("file", EntryFile sample_file)] |}.

Definition sample_now : string := "2024-05-01T10:00:00.000Z".

(** An upstream service that answers every call with the same status and
    a body that is not JSON. *)
Definition answering (status : nat) : nat → UpstreamRequest → completion Response.t :=
  λ _ _, Normal {| Response.status := status;
                   Response.text := Normal "denied";
                   Response.json := Throw "Unexpected token d in JSON at position 0" |}.

(** An upstream service that answers every call with status 200 and the
    JSON [payload]. *)
Definition serving (payload : any) : nat → UpstreamRequest → completion Response.t :=
  λ _ _, Normal {| Response.status := 200;
                   Response.text := Normal "";
                   Response.json := Normal payload |}.

(** An upstream service that answers every call with the same status and
    a body whose stream breaks while it is read. *)
Definition unreadable (status : nat) : nat → UpstreamRequest → completion Response.t :=
  λ _ _, Normal {| Response.status := status;
                   Response.text := Throw "terminated";
                   Response.json := Throw "terminated" |}.

(** The run of two files, and the run after the first file's call has
    failed at the network. *)
Definition two_files : list File.t := [sample_file; sample_file].

Definition first_failed : Run :=
  {| results := [{| fileName := "scan.pdf";
                    status := Status.error;
                    data := JUndefined;
                    error := JStr "Network error occurred";
                    extractedText := JUndefined;
                    entities := JUndefined |};
                 {| fileName := "scan.pdf";
                    status := Status.processing;
                    data := JUndefined;
                    error := JUndefined;
                    extractedText := JUndefined;
                    entities := JUndefined |}];
     in_flight := in_flight (dispatched two_files) ∖ {[0]} |}.

(** [{"predictions":[{"text_segments":[{"text":"a"},{"text":"b"}]}]}] *)
Definition segments_payload : any :=
  JObj [("predictions",
         JArr [JObj [("text_segments",
                      JArr [JObj [("text", JStr "a")]; JObj [("text", JStr "b")]])]])].

(** [{"predictions":[{"text_segments":[{"text":"Hello"},{"text":""},{"text":"World"}]}]}] *)
Definition empty_segment : any := JObj [("text", JStr "")].

Definition empty_segment_payload : any :=
  JObj [("predictions",
         JArr [JObj [("text_segments",
                      JArr [JObj [("text", JStr "Hello")]; empty_segment;
                            JObj [("text", JStr "World")]])]])].

(** [{"predictions":[{}],"text":"top"}] *)
Definition bare_prediction_payload : any :=
  JObj [("predictions", JArr [JObj []]); ("text", JStr "top")].

(** [{"type":"PERSON","label":"NAME","text":"Jane","score":0.9}] inside
    [{"predictions":[{"entities":[...]}]}] *)
Definition typed_entity : any :=
  JObj [("type", JStr "PERSON"); ("label", JStr "NAME");
        ("text", JStr "Jane"); ("score", JNum (9 # 10))].

Definition typed_entity_payload : any :=
  JObj [("predictions", JArr [JObj [("entities", JArr [typed_entity])]])].


(** [{"text":42}] *)
Definition numeric_text_payload : any := JObj [("text", JNum 42)].

(** ** The page's other handlers and what it derives from its state *)

(** [l.filter((_, i) => keep i)] *)
Fixpoint filter_index_from {A} (keep : nat → bool) (i : nat) (l : list A) : list A :=
  match l with
  | [] => []
  | x :: rest =>
      if keep i then x :: filter_index_from keep (S i) rest
      else filter_index_from keep (S i) rest
  end.

Definition filter_index {A} (keep : nat → bool) (l : list A) : list A :=
  filter_index_from keep 0 l.

(** The two pieces of state that [handleFileChange] and [removeFile] set. *)
Module Page.
Record t := {
  files : list File.t;
  results : list ExtractionResult
}.
End Page.

(** [handleFileChange]: [selected] is [e.target.files], [None] for [null]. *)
Definition handleFileChange (selected : option (list File.t)) (page : Page.t) : Page.t :=
  match selected with
  | Some selectedFiles => {| Page.files := selectedFiles; Page.results := [] |}
  | None => page
  end.

(** [removeFile] *)
Definition removeFile (index : nat) (page : Page.t) : Page.t :=
  let newFiles := filter_index (λ i, negb (i =? index)%nat) (Page.files page) in
  {| Page.files := newFiles;
     Page.results := if (length newFiles =? 0)%nat then [] else Page.results page |}.

(** [results.filter((r) => r.status === "completed").length] and its
    sibling for errors; the number shown as processing is
    [results.length - completedCount - errorCount]. *)
Definition completedCount (results : list ExtractionResult) : nat :=
  length (filter (λ r, status r = Status.completed) results).

Definition errorCount (results : list ExtractionResult) : nat :=
  length (filter (λ r, status r = Status.error) results).

Definition processingShown (results : list ExtractionResult) : Z :=
  (Z.of_nat (length results) - Z.of_nat (completedCount results)
   - Z.of_nat (errorCount results))%Z.

(** [disabled={isProcessing || files.length === 0 || !apiKey.trim()}] on the
    extract button, and [completedCount > 0] around the download button. *)
Definition extract_disabled (isProcessing : bool) (files : list File.t) (apiKey : string)
  : bool :=
  isProcessing || (length files =? 0)%nat || blank apiKey.

Definition download_offered (results : list ExtractionResult) : bool :=
  (0 <? completedCount results)%nat.

(** The entry that a failed call leaves, and the one a successful call
    leaves. *)
Definition failed_entry (entry : ExtractionResult) (message : any) : ExtractionResult :=
  {| fileName := fileName entry;
     status := Status.error;
     data := data entry;
     error := message;
     extractedText := extractedText entry;
     entities := entities entry |}.

Definition completed_entry (entry : ExtractionResult) (result : any) : ExtractionResult :=
  {| fileName := fileName entry;
     status := Status.completed;
     data := field result "data";
     error := error entry;
     extractedText := field result "extractedText";
     entities := field result "entities" |}.

(** A run after exactly [n] of its promises have applied their update. *)
Inductive settled_after (files : list File.t) : nat → Run → Prop :=
| settled_none : settled_after files 0 (dispatched files)
| settled_next (n : nat) (s s' : Run) :
    settled_after files n s → step s s' → settled_after files (S n) s'.

(** The page while the calls of a run are under way: its files and
    results, and the indices of the calls that have not applied their
    update yet.  The file input and the Remove buttons stay enabled during
    a run, so besides a call settling, [handleFileChange] and [removeFile]
    may write the state too. *)
Record Session := {
  page : Page.t;
  pending : gset nat
}.

(** The session once [processFiles] has dispatched the calls for [files]. *)
Definition started (files : list File.t) : Session :=
  {| page := {| Page.files := files; Page.results := initialResults files |};
     pending := list_to_set (seq 0 (length files)) |}.

Inductive event : Session → Session → Prop :=
| event_settle (s : Session) (index : nat) (outcome : completion Response.t)
    (next : list ExtractionResult) :
    index ∈ pending s →
    settle index outcome (Page.results (page s)) = Normal next →
    event s {| page := {| Page.files := Page.files (page s); Page.results := next |};
               pending := pending s ∖ {[index]} |}
| event_select (s : Session) (selected : option (list File.t)) :
    event s {| page := handleFileChange selected (page s); pending := pending s |}
| event_remove (s : Session) (index : nat) :
    event s {| page := removeFile index (page s); pending := pending s |}.

Inductive session (files : list File.t) : Session → Prop :=
| session_start : session files (started files)
| session_event (s s' : Session) : session files s → event s s' → session files s'.

(** ** More vocabulary of the statements *)

(** The elements of a field that holds an array; none for any other value. *)
Definition elements_of (v : any) : list any :=
  match v with
  | JArr items => items
  | _ => []
  end.

(** The entities that the code builds for a key-value pair and for the
    bounding box at [index]. *)
Definition pair_entity (pair : any) : Entity :=
  {| type := first_truthy pair ["key"] (JStr "Key-Value");
     value := first_truthy pair ["value"] (JStr "");
     confidence := first_truthy pair ["confidence"] (JNat 0) |}.

Definition box_entity (index : nat) (box : any) : Entity :=
  {| type := first_truthy box ["label"; "class"] (JStr "Detection");
     value := first_truthy box ["text"; "value"]
                (JStr ("Detection " ++ nat_to_string (index + 1)));
     confidence := first_truthy box ["confidence"; "score"] (JNat 0) |}.

(** An entity whose three fields are filled in. *)
Definition populated (e : Entity) : Prop :=
  truthy (type e) = true ∧ nullish (value e) = false ∧ nullish (confidence e) = false.

(** A reply that reports an error: an object with one field, [error], that
    holds a non-empty string. *)
Definition error_reply (reply : NextResponse) (message : string) : Prop :=
  reply_body reply = error_body message ∧ message ≠ "".

(** ** Decoders, to state that the two encoders lose nothing *)

Definition base64_value (c : ascii) : option N :=
  let n := N_of_ascii c in
  (if (65 <=? n) && (n <=? 90) then Some (n - 65)
   else if (97 <=? n) && (n <=? 122) then Some (n - 71)
   else if (48 <=? n) && (n <=? 57) then Some (n + 4)
   else if n =? 43 then Some 62
   else if n =? 47 then Some 63
   else None)%N.

(** The first [count] bytes of the 24-bit group [n]. *)
Definition bytes_of_group (n : N) (count : nat) : option (list Byte.byte) :=
  b1 ← Byte.of_N (n / 65536);
  b2 ← Byte.of_N ((n / 256) mod 256);
  b3 ← Byte.of_N (n mod 256);
  Some (take count [b1; b2; b3]).

Fixpoint base64_decode (s : string) : option (list Byte.byte) :=
  match s with
  | EmptyString => Some []
  | String a (String b (String c (String d rest))) =>
      va ← base64_value a;
      vb ← base64_value b;
      if Ascii.eqb c "=" then
        if Ascii.eqb d "=" && String.eqb rest ""
        then bytes_of_group ((va * 64 + vb) * 4096) 1
        else None
      else
        vc ← base64_value c;
        if Ascii.eqb d "=" then
          if String.eqb rest ""
          then bytes_of_group (((va * 64 + vb) * 64 + vc) * 64) 2
          else None
        else
          vd ← base64_value d;
          group ← bytes_of_group (((va * 64 + vb) * 64 + vc) * 64 + vd) 3;
          tail ← base64_decode rest;
          Some (group ++ tail)%list
  | _ => None
  end.

Definition hex_value (c : ascii) : option N :=
  let n := N_of_ascii c in
  (if (48 <=? n) && (n <=? 57) then Some (n - 48)
   else if (65 <=? n) && (n <=? 70) then Some (n - 55)
   else if (97 <=? n) && (n <=? 102) then Some (n - 87)
   else None)%N.

Definition escaped_byte (h l : ascii) : option N :=
  high ← hex_value h; low ← hex_value l; Some (high * 16 + low)%N.

(** [decodeURIComponent], on the escapes of code units below 256. *)
Fixpoint decodeURIComponent (s : string) : option string :=
  match s with
  | EmptyString => Some EmptyString
  | String c rest =>
      if Ascii.eqb c "%" then
        match rest with
        | String h (String l rest') =>
            first ← escaped_byte h l;
            if (first <? 128)%N
            then String (ascii_of_N first) <$> decodeURIComponent rest'
            else
              match rest' with
              | String p (String h' (String l' rest'')) =>
                  second ← escaped_byte h' l';
                  if Ascii.eqb p "%" && (194 <=? first)%N && (first <=? 195)%N
                     && (128 <=? second)%N && (second <=? 191)%N
                  then String (ascii_of_N ((first - 192) * 64 + (second - 128)))
                         <$> decodeURIComponent rest''
                  else None
              | _ => None
              end
        | _ => None
        end
      else String c <$> decodeURIComponent rest
  end.

(** ** Reading a JSON text back

    The value that a JSON text denotes, by the grammar of ECMA-404, as
    [JSON.parse] reads it; a number is kept as its token. *)
#[warnings="-register-all"]
Inductive json : Type :=
| JsonNull
| JsonBool (b : bool)
| JsonNumber (token : string)
| JsonString (s : string)
| JsonArray (items : list json)
| JsonObject (members : list (string * json)).

Definition quote_mark : ascii := ascii_of_nat 34.
Definition escape_mark : ascii := ascii_of_nat 92.

Definition is_digit (c : ascii) : bool :=
  let n := N_of_ascii c in ((48 <=? n) && (n <=? 57))%N.

(** White space between the tokens: space, tab, line feed, carriage return. *)
Definition is_space (c : ascii) : bool :=
  let n := N_of_ascii c in ((n =? 32) || (n =? 9) || (n =? 10) || (n =? 13))%N.

Fixpoint skip_space (s : string) : string :=
  match s with
  | String c rest => if is_space c then skip_space rest else s
  | EmptyString => EmptyString
  end.

Fixpoint skip_digits (s : string) : string :=
  match s with
  | String c rest => if is_digit c then skip_digits rest else s
  | EmptyString => EmptyString
  end.

(** The number grammar: an optional minus, an integer part without a
    leading zero, an optional fraction, an optional exponent. *)
Definition exponent_ok (s : string) : bool :=
  match s with
  | EmptyString => true
  | String c rest =>
      (Ascii.eqb c "e" || Ascii.eqb c "E")
      && match (match rest with
                | String sign rest' =>
                    if Ascii.eqb sign "+" || Ascii.eqb sign "-" then rest' else rest
                | EmptyString => rest
                end) with
         | String d digits => is_digit d && String.eqb (skip_digits digits) ""
         | EmptyString => false
         end
  end.

Definition fraction_ok (s : string) : bool :=
  match s with
  | String c rest =>
      if Ascii.eqb c "."
      then match rest with
           | String d digits => is_digit d && exponent_ok (skip_digits digits)
           | EmptyString => false
           end
      else exponent_ok s
  | EmptyString => true
  end.

Definition JSON_number (s : string) : bool :=
  match (match s with
         | String c rest => if Ascii.eqb c "-" then rest else s
         | EmptyString => s
         end) with
  | String d rest =>
      if Ascii.eqb d "0" then fraction_ok rest
      else is_digit d && fraction_ok (skip_digits rest)
  | EmptyString => false
  end.

Definition is_number_char (c : ascii) : bool :=
  is_digit c || existsb (Ascii.eqb c) (list_ascii_of_string "+-.eE").

(** The longest run of characters that a number token can hold. *)
Fixpoint take_number (s : string) : string * string :=
  match s with
  | String c rest =>
      if is_number_char c
      then let (token, rest') := take_number rest in (String c token, rest')
      else (EmptyString, s)
  | EmptyString => (EmptyString, EmptyString)
  end.

(** [after literal s]: what follows [literal] at the start of [s]. *)
Fixpoint after (literal s : string) : option string :=
  match literal, s with
  | EmptyString, _ => Some s
  | String a literal', String b s' => if Ascii.eqb a b then after literal' s' else None
  | String _ _, EmptyString => None
  end.

(** The character that an escape letter stands for. *)
Definition unescaped (c : ascii) : option ascii :=
  let n := N_of_ascii c in
  (if n =? 34 then Some c
   else if n =? 92 then Some c
   else if n =? 47 then Some c
   else if n =? 98 then Some (ascii_of_N 8)
   else if n =? 102 then Some (ascii_of_N 12)
   else if n =? 110 then Some (ascii_of_N 10)
   else if n =? 114 then Some (ascii_of_N 13)
   else if n =? 116 then Some (ascii_of_N 9)
   else None)%N.

Definition consed {A} (c : ascii) (r : option (string * A)) : option (string * A) :=
  match r with
  | Some (s, rest) => Some (String c s, rest)
  | None => None
  end.

(** The characters of a string token up to its closing quote, on code
    units below 256, and what follows the quote. *)
Fixpoint read_string (s : string) : option (string * string) :=
  match s with
  | EmptyString => None
  | String c rest =>
      if Ascii.eqb c quote_mark then Some (EmptyString, rest)
      else if Ascii.eqb c escape_mark then
        match rest with
        | String e rest' =>
            if Ascii.eqb e "u" then
              match rest' with
              | String h3 (String h2 (String h1 (String h0 rest''))) =>
                  match escaped_byte h3 h2, escaped_byte h1 h0 with
                  | Some high, Some low =>
                      if (high =? 0)%N then consed (ascii_of_N low) (read_string rest'')
                      else None
                  | _, _ => None
                  end
              | _ => None
              end
            else
              match unescaped e with
              | Some c' => consed c' (read_string rest')
              | None => None
              end
        | EmptyString => None
        end
      else if (N_of_ascii c <? 32)%N then None
      else consed c (read_string rest)
  end.

Definition read_atom (s : string) : option (json * string) :=
  match after "null" s, after "true" s, after "false" s with
  | Some rest, _, _ => Some (JsonNull, rest)
  | _, Some rest, _ => Some (JsonBool true, rest)
  | _, _, Some rest => Some (JsonBool false, rest)
  | None, None, None =>
      let (token, rest) := take_number s in
      if JSON_number token then Some (JsonNumber token, rest) else None
  end.

(** A value, the elements of an array after its opening bracket, and the
    members of an object after its opening brace.  [fuel] bounds the
    number of nested calls; the length of the text is enough. *)
Fixpoint read_value (fuel : nat) (s : string) : option (json * string) :=
  match fuel with
  | O => None
  | S fuel =>
      match skip_space s with
      | EmptyString => None
      | String c rest =>
          if Ascii.eqb c "[" then
            match read_elements fuel rest with
            | Some (items, rest') => Some (JsonArray items, rest')
            | None =>
                match skip_space rest with
                | String c' rest' =>
                    if Ascii.eqb c' "]" then Some (JsonArray [], rest') else None
                | EmptyString => None
                end
            end
          else if Ascii.eqb c "{" then
            match read_members fuel rest with
            | Some (members, rest') => Some (JsonObject members, rest')
            | None =>
                match skip_space rest with
                | String c' rest' =>
                    if Ascii.eqb c' "}" then Some (JsonObject [], rest') else None
                | EmptyString => None
                end
            end
          else if Ascii.eqb c quote_mark then
            match read_string rest with
            | Some (text, rest') => Some (JsonString text, rest')
            | None => None
            end
          else read_atom (String c rest)
      end
  end
with read_elements (fuel : nat) (s : string) : option (list json * string) :=
  match fuel with
  | O => None
  | S fuel =>
      match read_value fuel s with
      | Some (item, rest) =>
          match skip_space rest with
          | String c rest' =>
              if Ascii.eqb c "," then
                match read_elements fuel rest' with
                | Some (items, rest'') => Some (item :: items, rest'')
                | None => None
                end
              else if Ascii.eqb c "]" then Some ([item], rest')
              else None
          | EmptyString => None
          end
      | None => None
      end
  end
with read_members (fuel : nat) (s : string) : option (list (string * json) * string) :=
  match fuel with
  | O => None
  | S fuel =>
      match skip_space s with
      | String q rest =>
          if Ascii.eqb q quote_mark then
            match read_string rest with
            | Some (key, rest) =>
                match skip_space rest with
                | String colon rest =>
                    if Ascii.eqb colon ":" then
                      match read_value fuel rest with
                      | Some (item, rest) =>
                          match skip_space rest with
                          | String c rest' =>
                              if Ascii.eqb c "," then
                                match read_members fuel rest' with
                                | Some (members, rest'') => Some ((key, item) :: members, rest'')
                                | None => None
                                end
                              else if Ascii.eqb c "}" then Some ([(key, item)], rest')
                              else None
                          | EmptyString => None
                          end
                      | None => None
                      end
                    else None
                | EmptyString => None
                end
            | None => None
            end
          else None
      | EmptyString => None
      end
  end.

(** [JSON.parse(text)]: one value and nothing but white space after it. *)
Definition JSON_parse (text : string) : option json :=
  match read_value (String.length text) text with
  | Some (v, rest) => if String.eqb (skip_space rest) "" then Some v else None
  | None => None
  end.


(** What [JSON.stringify] keeps of a value: [undefined] counts as [null]
    in an array and is left out of an object. *)
Section Kept.
Context `{Engine}.

Fixpoint jsonify (v : any) : json :=
  match v with
  | JUndefined | JNull => JsonNull
  | JBool b => JsonBool b
  | JNum q => JsonNumber (number_to_string q)
  | JStr s => JsonString s
  | JArr items => JsonArray (map jsonify items)
  | JObj fields =>
      JsonObject
        (flat_map (λ kv, match snd kv with
                         | JUndefined => []
                         | _ => [(fst kv, jsonify (snd kv))]
                         end) fields)
  end.

(** The member [k] of an exported entry: none when the field is absent. *)
Definition member (k : string) (v : any) : list (string * json) :=
  match v with
  | JUndefined => []
  | _ => [(k, jsonify v)]
  end.

(** What the specification promises for a completed entry in the
    document: an object with the file's name, the status completed, and
    the entry's data, extracted text and entities (each optional field
    when the entry has it). *)
Definition exported_entry (r : ExtractionResult) : json :=
  JsonObject ([("fileName", JsonString (fileName r)); ("status", JsonString "completed")]
                ++ member "data" (data r)
                ++ member "extractedText" (extractedText r)
                ++ member "entities" (entities r)
                ++ member "error" (error r))%list.

End Kept.

Fixpoint all_space (s : string) : bool :=
  match s with
  | String c rest => is_space c && all_space rest
  | EmptyString => true
  end.

(** A text after which a number token ends. *)
Definition delimited (rest : string) : bool :=
  match rest with
  | String c _ => negb (is_number_char c)
  | EmptyString => true
  end.

(** Whether every character of a text may occur in a number token. *)
Definition number_chars (s : string) : bool :=
  forallb is_number_char (list_ascii_of_string s).

(** The white space that [JSON.stringify] prints after an opening bracket
    and between the parts, before a closing bracket, and after a colon. *)
Definition opening_gap (gap stepback : string) : string :=
  if String.eqb gap "" then "" else newline ++ stepback ++ gap.

Definition closing_gap (gap stepback : string) : string :=
  if String.eqb gap "" then "" else newline ++ stepback.

Definition colon_gap (gap : string) : string :=
  if String.eqb gap "" then "" else " ".

(** ** More sample inputs *)

(** An upstream service that answers the first call with 401 and fails
    at the network on the second. *)
Definition failing_second : nat → UpstreamRequest → completion Response.t :=
  λ n _, if (n =? 0)%nat
         then Normal {| Response.status := 401;
                        Response.text := Normal "denied";
                        Response.json := Throw "Unexpected token d in JSON at position 0" |}
         else Throw "read ECONNRESET".

(** A form whose [file] field holds text. *)
Definition text_file_request : NextRequest :=
  {| formData := Normal [("file", EntryString "scan.pdf"); ("apiKey", EntryString "secret")] |}.

(** A first prediction with one element in each of the four arrays. *)
Definition mixed_prediction : any :=
  JObj [("entities", JArr [JObj [("label", JStr "NAME"); ("text", JStr "Jane")]]);
        ("key_value_pairs", JArr [JObj [("key", JStr "Total"); ("value", JStr "42")]]);
        ("tables", JArr [JObj [("rows", JArr [JNat 1; JNat 2])]]);
        ("bounding_boxes", JArr [JObj [("class", JStr "logo")]])].

Definition mixed_payload : any := JObj [("predictions", JArr [mixed_prediction])].

Definition mixed_payload_with_more : any :=
  JObj [("predictions", JArr [mixed_prediction; JObj [("text", JStr "second")]])].

(** [{"predictions":[null],"text":"top"}] *)
Definition null_prediction_payload : any :=
  JObj [("predictions", JArr [JNull]); ("text", JStr "top")].

(** A first prediction with a good entity and a [null] among the tables. *)
Definition null_table_payload : any :=
  JObj [("predictions",
         JArr [JObj [("entities", JArr [JObj [("label", JStr "NAME"); ("text", JStr "Jane")]]);
                     ("tables", JArr [JNull])]])].

Definition second_file : File.t :=
  {| File.name := "page2.png";
     File.type := "image/png";
     File.size := 1;
     File.bytes := [Byte.x89] |}.

(** The session of two files after another file has been selected while
    both calls were under way. *)
Definition interrupted : Session :=
  {| page := {| Page.files := [second_file]; Page.results := [] |};
     pending := pending (started two_files) |}.

(** An engine whose number texts are JSON number tokens: a number that is
    no safe integer prints as its integer part.  The sample inputs hold no
    such number. *)
Definition integral_engine : Engine :=
  {| fraction_to_string := λ q, integer_to_string (integer_part q);
     string_is_positive := λ _, false |}.

(** The results of two files, the first completed and the second failed. *)
Definition mixed_results : list ExtractionResult :=
  [{| fileName := "scan.pdf";
      status := Status.completed;
      data := JObj [("pages", JNat 2)];
      error := JUndefined;
      extractedText := JStr "No text extracted";
      entities := JArr [] |};
   {| fileName := "page2.png";
      status := Status.error;
      data := JUndefined;
      error := JStr "Network error occurred";
      extractedText := JUndefined;
      entities := JUndefined |}].

(** * Properties *)

(** ** Completions and coercions *)

Lemma get_field (o : any) (k : string) :
  nullish o = false → get o k = Normal (field o k).
Proof. unfold field. by destruct o. Qed.

Lemma get_Normal_nullish (o : any) (k : string) (v : any) :
  get o k = Normal v → nullish o = false ∧ field o k = v.
Proof. unfold field. destruct o; simpl; intros Hget; by inversion Hget. Qed.

Lemma mapi_from_length {A B} (f : nat → A → completion B) (l : list A) :
  ∀ start ys, mapi_from f start l = Normal ys → length ys = length l.
Proof.
  induction l as [|x l IH]; intros start ys; simpl.
  - by intros [= <-].
  - destruct (f start x) as [y|e]; simpl; [|done].
    destruct (mapi_from f (S start) l) as [ys'|e] eqn:Hrest; simpl; [|done].
    intros [= <-]. simpl. f_equal. by eapply IH.
Qed.

Lemma mapi_from_lookup {A B} (f : nat → A → completion B) (l : list A) :
  ∀ start ys i x,
    mapi_from f start l = Normal ys → l !! i = Some x →
    ∃ y, ys !! i = Some y ∧ f (start + i) x = Normal y.
Proof.
  induction l as [|x0 l IH]; intros start ys i x; simpl; [done|].
  destruct (f start x0) as [y0|e] eqn:Hhead; simpl; [|done].
  destruct (mapi_from f (S start) l) as [ys'|e] eqn:Hrest; simpl; [|done].
  intros [= <-] Hi. destruct i as [|i]; simpl in *.
  - inversion Hi; subst. exists y0. by rewrite Nat.add_0_r.
  - destruct (IH _ _ _ _ Hrest Hi) as (y & Hy & Hf).
    exists y. split; [done|]. by replace (start + S i) with (S start + i) by lia.
Qed.

Lemma mapi_from_total {A B} (f : nat → A → completion B) (g : nat → A → B) (l : list A) :
  ∀ start,
    (∀ i x, l !! i = Some x → f (start + i) x = Normal (g (start + i) x)) →
    mapi_from f start l = Normal (imap (λ i, g (start + i)) l).
Proof.
  induction l as [|x l IH]; intros start Hf; simpl; [done|].
  rewrite <- (Nat.add_0_r start) at 1.
  rewrite (Hf 0 x eq_refl). simpl. rewrite Nat.add_0_r.
  rewrite IH.
  - simpl. do 2 f_equal. apply imap_ext. intros i y _. simpl. f_equal. lia.
  - intros i y Hi. replace (S start + i) with (start + S i) by lia. by apply (Hf (S i)).
Qed.

Lemma mapi_total {A B} (f : nat → A → completion B) (g : nat → A → B) (l : list A) :
  (∀ i x, l !! i = Some x → f i x = Normal (g i x)) →
  mapi f l = Normal (imap g l).
Proof. intros Hf. unfold mapi. by rewrite (mapi_from_total f g l 0). Qed.

Lemma mapi_lookup {A B} (f : nat → A → completion B) (l : list A) ys i x :
  mapi f l = Normal ys → l !! i = Some x → ∃ y, ys !! i = Some y ∧ f i x = Normal y.
Proof. intros Hm Hi. by apply (mapi_from_lookup f l 0 ys i x). Qed.

Lemma mapi_length {A B} (f : nat → A → completion B) (l : list A) ys :
  mapi f l = Normal ys → length ys = length l.
Proof. apply mapi_from_length. Qed.

Section NumberText.
Context `{Engine}.

Lemma number_to_string_nat (n : nat) :
  (Z.of_nat n ≤ 2 ^ 53)%Z →
  number_to_string (inject_Z (Z.of_nat n)) = nat_to_string n.
Proof.
  intros Hn. unfold number_to_string, is_integer, integer_part, nat_to_string. simpl.
  rewrite Z.rem_1_r, Z.quot_1_r. simpl.
  rewrite Z.abs_eq by lia.
  by destruct (Z.leb_spec (Z.of_nat n) (2 ^ 53)); [|lia].
Qed.

End NumberText.

(** ** Text extraction *)

Section TextExtraction.
Context `{Engine}.

Lemma has_predictions_cons (result prediction : any) (rest : list any) :
  get result "predictions" = Normal (JArr (prediction :: rest)) →
  has_predictions result = Normal true.
Proof. intros Hget. unfold has_predictions. by rewrite Hget. Qed.

Lemma has_predictions_none (result : any) :
  nullish result = false →
  field result "predictions" = JUndefined ∨ field result "predictions" = JArr [] →
  has_predictions result = Normal false.
Proof.
  intros Hresult Hnone. unfold has_predictions.
  rewrite (get_field _ _ Hresult). by destruct Hnone as [-> | ->].
Qed.

Lemma text_of_prediction_fields (prediction : any) :
  nullish prediction = false →
  text_of_prediction prediction =
    if truthy (field prediction "extracted_text")
    then Normal (Some (field prediction "extracted_text"))
    else if truthy (field prediction "ocr_text")
    then Normal (Some (field prediction "ocr_text"))
    else if truthy (field prediction "text")
    then Normal (Some (field prediction "text"))
    else if truthy (field prediction "text_segments") && isArray (field prediction "text_segments")
    then mapped ← array_map (field prediction "text_segments") (λ _ segment, segment_text segment);
         joined ← join " " mapped;
         Normal (Some (JStr joined))
    else if truthy (field prediction "regions") && isArray (field prediction "regions")
    then mapped ← array_map (field prediction "regions") (λ _ region, region_text region);
         joined ← join " " mapped;
         Normal (Some (JStr joined))
    else Normal None.
Proof.
  intros Hp. unfold text_of_prediction. rewrite !(get_field _ _ Hp). simpl.
  repeat (match goal with |- context [truthy ?v] => destruct (truthy v) end; simpl; try done).
Qed.

Lemma top_level_text (result : any) :
  nullish result = false →
  (text ← get result "text";
   if truthy text then Normal text else
   ocr_result ← get result "ocr_result";
   if truthy ocr_result then Normal ocr_result else
   Normal (JStr "No text extracted"))
  = Normal (first_truthy result ["text"; "ocr_result"] (JStr "No text extracted")).
Proof.
  intros Hresult. rewrite !(get_field _ _ Hresult). simpl.
  destruct (truthy (field result "text")); [done|].
  by destruct (truthy (field result "ocr_result")).
Qed.

Lemma segment_text_contribution (segment : any) (s : string) :
  segment_contribution segment = Some s → segment_text segment = Normal (JStr s).
Proof.
  unfold segment_contribution, segment_text, field.
  destruct segment as [| | | |s'|items|fields]; try done; simpl.
  - by intros [= ->].
  - destruct (lookup_field "text" fields) as [| | | |t| |] eqn:Htext; try done.
    destruct (String.eqb t "") eqn:Hempty; [done|]. intros [= ->].
    unfold or_else. simpl. by rewrite Hempty.
Qed.

Lemma region_text_contribution (region : any) (s : string) :
  region_contribution region = Some s → region_text region = Normal (JStr s).
Proof.
  unfold region_contribution, region_text, field.
  destruct region as [| | | | | |fields]; try done; simpl.
  unfold or_else; simpl.
  destruct (lookup_field "text" fields) as [| | | |t| |]; try done; simpl;
    destruct (lookup_field "value" fields) as [| | | |v| |]; try done; simpl.
  all: intros [= <-];
    repeat (match goal with
            | |- context [String.eqb ?a ""] => destruct (String.eqb_spec a ""); subst; simpl
            end);
    done.
Qed.

Lemma mapi_from_contributions (f : any → completion any) (c : any → option string)
    (items : list any) (texts : list string) :
  (∀ x s, c x = Some s → f x = Normal (JStr s)) →
  mapM c items = Some texts →
  ∀ start, mapi_from (λ _ x, f x) start items = Normal (JStr <$> texts).
Proof.
  intros Hf Hall. apply mapM_Some in Hall.
  induction Hall as [|x s items texts Hx _ IH]; intros start; simpl; [done|].
  by rewrite (Hf _ _ Hx), IH.
Qed.

Lemma join_strings (separator : string) (texts : list string) :
  join separator (JStr <$> texts) = Normal (String.concat separator texts).
Proof.
  unfold join, mapi.
  assert (∀ start, mapi_from (λ _ x, join_element x) start (JStr <$> texts) = Normal texts)
    as ->; [|done].
  induction texts as [|s texts IH]; intros start; simpl; [done|]. by rewrite IH.
Qed.

Lemma joined_contributions (f : any → completion any) (c : any → option string)
    (items : list any) (texts : list string) :
  (∀ x s, c x = Some s → f x = Normal (JStr s)) →
  mapM c items = Some texts →
  (mapped ← array_map (JArr items) (λ _ x, f x);
   joined ← join " " mapped;
   Normal (Some (JStr joined)))
  = Normal (Some (JStr (String.concat " " texts))).
Proof.
  intros Hf Hall. simpl. unfold mapi.
  rewrite (mapi_from_contributions f c items texts Hf Hall). simpl.
  by rewrite join_strings.
Qed.

Lemma extractText_with_prediction (result prediction : any) (rest : list any) :
  get result "predictions" = Normal (JArr (prediction :: rest)) →
  extractTextFromResult_try result =
    returned ← text_of_prediction prediction;
    match returned with
    | Some text => Normal text
    | None => Normal (first_truthy result ["text"; "ocr_result"] (JStr "No text extracted"))
    end.
Proof.
  intros Hget. unfold extractTextFromResult_try.
  rewrite (has_predictions_cons _ _ _ Hget). simpl. rewrite Hget. simpl.
  destruct (text_of_prediction prediction) as [[text|]|e]; simpl; try done.
  apply top_level_text. by apply get_Normal_nullish in Hget as [? _].
Qed.

(** X23. For every payload with a non-empty [predictions] array whose
    element 0 is not null, the extracted text is the first truthy of
    [extracted_text], [ocr_text], [text]; then the space-join of
    [text_segments] when each segment is a string or carries a non-empty
    string [text] (it contributes that text, or itself); then the
    space-join of [regions] when each region's [text] and [value] are a
    string or absent (it contributes its [text], or its [value], or
    nothing).  For every payload with no [predictions] (absent or empty)
    the text is the top-level [text], then [ocr_result], else
    "No text extracted". *)
Theorem text_extraction_precedence (result : any) :
  (∀ (prediction : any) (rest : list any),
      get result "predictions" = Normal (JArr (prediction :: rest)) →
      nullish prediction = false →
      let first := field prediction in
      (truthy (first "extracted_text") = true →
       extractTextFromResult result = first "extracted_text")
      ∧ (truthy (first "extracted_text") = false →
         truthy (first "ocr_text") = true →
         extractTextFromResult result = first "ocr_text")
      ∧ (truthy (first "extracted_text") = false →
         truthy (first "ocr_text") = false →
         truthy (first "text") = true →
         extractTextFromResult result = first "text")
      ∧ (∀ (segments : list any) (texts : list string),
            truthy (first "extracted_text") = false →
            truthy (first "ocr_text") = false →
            truthy (first "text") = false →
            first "text_segments" = JArr segments →
            mapM segment_contribution segments = Some texts →
            extractTextFromResult result = JStr (String.concat " " texts))
      ∧ (∀ (regions : list any) (texts : list string),
            truthy (first "extracted_text") = false →
            truthy (first "ocr_text") = false →
            truthy (first "text") = false →
            isArray (first "text_segments") = false →
            first "regions" = JArr regions →
            mapM region_contribution regions = Some texts →
            extractTextFromResult result = JStr (String.concat " " texts)))
  ∧ (nullish result = false →
     field result "predictions" = JUndefined ∨ field result "predictions" = JArr [] →
     extractTextFromResult result
     = first_truthy result ["text"; "ocr_result"] (JStr "No text extracted")).
Proof.
  split.
  - intros prediction rest Hget Hp first. unfold extractTextFromResult.
    rewrite (extractText_with_prediction _ _ _ Hget), (text_of_prediction_fields _ Hp).
    fold first. repeat split.
    + by intros ->.
    + by intros -> ->.
    + by intros -> -> ->.
    + intros segments texts -> -> -> -> Hall. simpl.
      change (mapi (λ _ segment, segment_text segment) segments)
        with (array_map (JArr segments) (λ _ segment, segment_text segment)).
      by rewrite (joined_contributions segment_text segment_contribution _ _
                    segment_text_contribution Hall).
    + intros regions texts -> -> -> Hsegments -> Hall.
      rewrite Hsegments, andb_false_r. simpl.
      change (mapi (λ _ region, region_text region) regions)
        with (array_map (JArr regions) (λ _ region, region_text region)).
      by rewrite (joined_contributions region_text region_contribution _ _
                    region_text_contribution Hall).
  - intros Hresult Hnone. unfold extractTextFromResult, extractTextFromResult_try.
    rewrite (has_predictions_none _ Hresult Hnone). simpl.
    by rewrite (top_level_text _ Hresult).
Qed.

(** C10. When [predictions] is a non-empty array whose element 0 has
    none of [extracted_text], [ocr_text], [text], [text_segments],
    [regions], the text still falls back to the top-level [text], then
    the top-level [ocr_result], before "No text extracted". *)
Theorem top_level_fallback_after_predictions (result prediction : any) (rest : list any) :
  get result "predictions" = Normal (JArr (prediction :: rest)) →
  nullish prediction = false →
  Forall (λ k, field prediction k = JUndefined)
    ["extracted_text"; "ocr_text"; "text"; "text_segments"; "regions"] →
  extractTextFromResult result
  = first_truthy result ["text"; "ocr_result"] (JStr "No text extracted").
Proof.
  intros Hget Hp Hnone. unfold extractTextFromResult.
  rewrite (extractText_with_prediction _ _ _ Hget), (text_of_prediction_fields _ Hp).
  repeat (apply Forall_cons in Hnone as [-> Hnone]). done.
Qed.

End TextExtraction.

(** ** Entity extraction *)

Lemma or_else_assoc (a b c : completion any) : (a ||| b) ||| c = a ||| (b ||| c).
Proof.
  unfold or_else. destruct a as [x|e]; simpl; [|done].
  destruct (truthy x) eqn:Hx; simpl; [by rewrite Hx|done].
Qed.

Lemma or_else_field (o : any) (k : string) (b : completion any) :
  nullish o = false →
  get o k ||| b = if truthy (field o k) then Normal (field o k) else b.
Proof. intros Ho. rewrite (get_field _ _ Ho). unfold or_else. by simpl. Qed.

Lemma mapi_Normal_imap {A B} (f : nat → A → completion B) (g : nat → A → B)
    (l : list A) (ys : list B) :
  mapi f l = Normal ys →
  (∀ i x y, l !! i = Some x → f i x = Normal y → y = g i x) →
  ys = imap g l.
Proof.
  intros Hm Hg. apply list_eq. intros i. rewrite list_lookup_imap.
  destruct (l !! i) as [x|] eqn:Hx; simpl.
  - destruct (mapi_lookup _ _ _ _ _ Hm Hx) as (y & -> & Hy). f_equal. by eapply Hg.
  - apply lookup_ge_None. rewrite (mapi_length _ _ _ Hm). by apply lookup_ge_None.
Qed.

Section EntityExtraction.
Context `{Engine}.

Lemma pushed_from_array (items : list any) (f : nat → any → completion Entity) :
  pushed_from (JArr items) f = mapi f items.
Proof. reflexivity. Qed.

Lemma entity_of_entity_Normal (entity : any) (e : Entity) :
  entity_of_entity entity = Normal e → e = normalized_entity entity.
Proof.
  destruct (nullish entity) eqn:Hn; [by destruct entity|].
  unfold entity_of_entity, normalized_entity. rewrite !or_else_assoc.
  rewrite !(or_else_field _ _ _ Hn). simpl.
  repeat (match goal with |- context [truthy ?v] => destruct (truthy v) end; simpl);
    by intros [= <-].
Qed.

Lemma row_count_counted (table : any) (rows : nat) :
  counted_rows table = Some rows →
  row_count table = Normal (JNat rows).
Proof.
  unfold counted_rows, row_count, field.
  destruct table as [| | | | | |fields]; try done. simpl. unfold or_else.
  destruct (lookup_field "rows" fields) as [| | | | |r|]; try done; simpl;
    destruct (lookup_field "data" fields) as [| | | | |d|]; try done; simpl;
    intros [= <-]; try done.
  - by destruct d.
  - by destruct r.
  - destruct r; simpl; [by destruct d|done].
Qed.

Lemma entity_of_table_counted (index : nat) (table : any) (rows : nat) :
  counted_rows table = Some rows →
  (Z.of_nat index < 2 ^ 32)%Z →
  (Z.of_nat rows < 2 ^ 32)%Z →
  entity_of_table index table = Normal (table_entity index rows table).
Proof.
  intros Hrows Hindex Hbound. unfold entity_of_table, table_entity.
  rewrite (row_count_counted _ _ Hrows). simpl.
  rewrite !number_to_string_nat by lia.
  assert (nullish table = false) as Hn by (by destruct table).
  rewrite (or_else_field _ _ _ Hn). simpl.
  by destruct (truthy (field table "confidence")).
Qed.


(** The four blocks of a run that completes. *)
Lemma extractEntities_blocks (result prediction : any) (rest : list any) (es : list Entity) :
  get result "predictions" = Normal (JArr (prediction :: rest)) →
  extractEntitiesFromResult_try result = Normal es →
  ∃ from_entities from_pairs from_tables from_boxes,
    pushed_from (field prediction "entities") (λ _ entity, entity_of_entity entity)
      = Normal from_entities
    ∧ pushed_from (field prediction "key_value_pairs") (λ _ pair, entity_of_pair pair)
      = Normal from_pairs
    ∧ pushed_from (field prediction "tables") entity_of_table = Normal from_tables
    ∧ pushed_from (field prediction "bounding_boxes") entity_of_box = Normal from_boxes
    ∧ es = (from_entities ++ from_pairs ++ from_tables ++ from_boxes)%list.
Proof.
  intros Hget. unfold extractEntitiesFromResult_try.
  rewrite (has_predictions_cons _ _ _ Hget). simpl. rewrite Hget. simpl.
  destruct (nullish prediction) eqn:Hn; [by destruct prediction|].
  rewrite !(get_field _ _ Hn). simpl.
  destruct (pushed_from (field prediction "entities") _) as [e1|]; simpl; [|done].
  destruct (pushed_from (field prediction "key_value_pairs") _) as [e2|]; simpl; [|done].
  destruct (pushed_from (field prediction "tables") _) as [e3|]; simpl; [|done].
  destruct (pushed_from (field prediction "bounding_boxes") _) as [e4|]; simpl; [|done].
  intros [= <-]. by exists e1, e2, e3, e4.
Qed.

Lemma extractEntities_completes (result : any) (es : list Entity) :
  extractEntitiesFromResult_try result = Normal es →
  extractEntitiesFromResult result = es.
Proof. unfold extractEntitiesFromResult. by intros ->. Qed.

(** C4, as amended: each element of [entities] becomes one entity whose
    type is the first truthy of its [type], [label], [class], else
    ["Unknown"]; whose value is the first truthy of [value], [text],
    [content], else [""]; whose confidence is the first truthy of
    [confidence], [score], [probability], else [0]; whenever extraction
    completes.  In particular [{label:"NAME", text:"Jane", score:0.9}]
    becomes [{type:"NAME", value:"Jane", confidence:0.9}]. *)
Theorem entities_first_truthy_field :
  (∀ (result prediction : any) (rest elements : list any) (es : list Entity),
      get result "predictions" = Normal (JArr (prediction :: rest)) →
      field prediction "entities" = JArr elements →
      extractEntitiesFromResult_try result = Normal es →
      ∃ others,
        extractEntitiesFromResult result
        = ((normalized_entity <$> elements) ++ others)%list)
  ∧ extractEntitiesFromResult
      (JObj [("predictions",
              JArr [JObj [("entities",
                           JArr [JObj [("label", JStr "NAME");
                                       ("text", JStr "Jane");
                                       ("score", JNum (9 # 10))]])]])])
    = [{| type := JStr "NAME"; value := JStr "Jane"; confidence := JNum (9 # 10) |}].
Proof.
  split; [|reflexivity].
  intros result prediction rest elements es Hget Helements Hes.
  rewrite (extractEntities_completes _ _ Hes).
  destruct (extractEntities_blocks _ _ _ _ Hget Hes)
    as (e1 & e2 & e3 & e4 & H1 & _ & _ & _ & ->).
  exists (e2 ++ e3 ++ e4)%list. f_equal.
  rewrite Helements, pushed_from_array in H1.
  rewrite (mapi_Normal_imap _ (λ _, normalized_entity) _ _ H1).
  - exact (imap_const normalized_entity elements).
  - intros i x y _. apply entity_of_entity_Normal.
Qed.


End EntityExtraction.

(** ** The gateway *)

Section GatewayProperties.
Context `{Engine}.
Variable upstream : nat → UpstreamRequest → completion Response.t.
Variable now : string.

(** A request with both fields: the calls are those of [probe], and the
    answer is the one for the response it ended with. *)
Lemma POST_probe (request : NextRequest) (fd : FormData) (f : File.t)
    (key : FormDataEntryValue) :
  formData request = Normal fd →
  provided (FormData_get "file" fd) = Some (EntryFile f) →
  provided (FormData_get "apiKey" fd) = Some key →
  POST upstream now request =
    match probe upstream (EntryFile f) (entry_to_string key) (base64 (File.bytes f)) [] with
    | (Normal response, calls) =>
        (match answer now (EntryFile f) response with
         | Normal reply => reply
         | Throw message =>
             NextResponse_json (error_body ("Failed to process document: " ++ message)) 500
         end, calls)
    | (Throw _, calls) => (NextResponse_json (error_body "Network error occurred") 500, calls)
    end.
Proof.
  intros Hfd Hfile Hkey. unfold POST, POST_try, lift, try_catch, mbind, Gateway_bind.
  rewrite Hfd, Hfile, Hkey. simpl.
  destruct (probe _ _ _ _ []) as [[response|e] calls]; simpl; [|done].
  by destruct (answer _ _ response).
Qed.

Ltac next_call :=
  match goal with
  | |- context [upstream ?k ?step] =>
      let r := fresh "r" in let U := fresh "U" in let St := fresh "St" in
      destruct (upstream k step) as [r|] eqn:U; simpl;
      [destruct (Response.status r =? 401)%nat eqn:St; simpl|]
  end.

(** C1. For every file and credential, the calls of the handler are a
    non-empty prefix of the five probe steps in their fixed order; step
    k+1 is issued if and only if step k was issued and answered with
    status 401, so any other status (or a failed call) ends probing; and
    when all five steps are answered 401 exactly five calls are made. *)
Theorem probing_order (request : NextRequest) (fd : FormData) (f : File.t)
    (key : FormDataEntryValue) :
  formData request = Normal fd →
  provided (FormData_get "file" fd) = Some (EntryFile f) →
  provided (FormData_get "apiKey" fd) = Some key →
  let steps := formats (EntryFile f) (entry_to_string key) (base64 (File.bytes f)) in
  let calls := snd (POST upstream now request) in
  calls = take (length calls) steps
  ∧ (1 ≤ length calls ≤ 5)%nat
  ∧ (∀ k, (S k < 5)%nat →
       (S k < length calls)%nat
       ↔ (k < length calls)%nat ∧ unauthorized upstream steps k = true)
  ∧ ((∀ k, (k < 5)%nat → unauthorized upstream steps k = true) → length calls = 5).
Proof.
  intros Hfd Hfile Hkey steps calls. subst calls.
  rewrite (POST_probe _ _ _ _ Hfd Hfile Hkey).
  unfold probe, fetch, mbind, Gateway_bind, mret, Gateway_ret. simpl.
  assert (∀ k step, steps !! k = Some step →
            unauthorized upstream steps k
            = match upstream k step with
              | Normal response => (Response.status response =? 401)%nat
              | Throw _ => false
              end) as Hun.
  { intros k step Hk. unfold unauthorized. by rewrite Hk. }
  pose proof (Hun 0 _ eq_refl) as H0. pose proof (Hun 1 _ eq_refl) as H1.
  pose proof (Hun 2 _ eq_refl) as H2. pose proof (Hun 3 _ eq_refl) as H3.
  pose proof (Hun 4 _ eq_refl) as H4. clear Hun.
  repeat next_call;
    rewrite ?U, ?U0, ?U1, ?U2, ?U3 in *; rewrite ?St, ?St0, ?St1, ?St2, ?St3 in *; simpl;
    (split; [reflexivity|]); (split; [lia|]);
    (split;
     [intros k Hk; do 4 (try destruct k as [|k]); simpl; try lia;
      rewrite ?H0, ?H1, ?H2, ?H3, ?H4; split; try lia; intros [? ?]; try lia; done
     |intros Hall;
      pose proof (Hall 0 ltac:(lia)) as A0; pose proof (Hall 1 ltac:(lia)) as A1;
      pose proof (Hall 2 ltac:(lia)) as A2; pose proof (Hall 3 ltac:(lia)) as A3;
      congruence || reflexivity]).
Qed.

Lemma POST_final (request : NextRequest) (fd : FormData) (f : File.t)
    (key : FormDataEntryValue) (response : Response.t) :
  formData request = Normal fd →
  provided (FormData_get "file" fd) = Some (EntryFile f) →
  provided (FormData_get "apiKey" fd) = Some key →
  fst (probe upstream (EntryFile f) (entry_to_string key) (base64 (File.bytes f)) [])
  = Normal response →
  fst (POST upstream now request)
  = match answer now (EntryFile f) response with
    | Normal reply => reply
    | Throw message =>
        NextResponse_json (error_body ("Failed to process document: " ++ message)) 500
    end.
Proof.
  intros Hfd Hfile Hkey Hfinal. rewrite (POST_probe _ _ _ _ Hfd Hfile Hkey).
  destruct (probe _ _ _ _ []) as [outcome calls]. simpl in Hfinal. by subst outcome.
Qed.

Lemma answer_ok (f : File.t) (response : Response.t) (payload : any) :
  Response.ok response = true →
  Response.json response = Normal payload →
  answer now (EntryFile f) response
  = Normal (NextResponse_json
              (JObj [("data", payload);
                     ("extractedText", extractTextFromResult payload);
                     ("entities", JArr (entity_to_any <$> extractEntitiesFromResult payload));
                     ("fileName", JStr (File.name f));
                     ("fileSize", JNat (File.size f));
                     ("processedAt", JStr now)])
              200).
Proof. intros Hok Hjson. unfold answer. by rewrite Hok, Hjson. Qed.

Lemma status_not_ok (response : Response.t) :
  Response.status response = 401 ∨ Response.status response = 403 →
  Response.ok response = false.
Proof. unfold Response.ok. by intros [-> | ->]. Qed.

(** The response that probing ends with is what the upstream service
    answered to the last call made; a failed call is the last one too. *)
Lemma probe_last_call (file : FormDataEntryValue) (apiKey base64File : string) :
  let outcome := probe upstream file apiKey base64File [] in
  ∃ step, last (snd outcome) = Some step
          ∧ upstream (pred (length (snd outcome))) step = fst outcome.
Proof.
  unfold probe, fetch, mbind, Gateway_bind, mret, Gateway_ret. simpl.
  repeat next_call;
    repeat match goal with
           | St : (Response.status ?r =? 401)%nat = false |- _ => rewrite !St; clear St; simpl
           end;
    eexists; (split; [reflexivity|]); simpl; congruence.
Qed.

Lemma POST_last_call (request : NextRequest) (fd : FormData) (f : File.t)
    (key : FormDataEntryValue) (step : UpstreamRequest) (response : Response.t) :
  formData request = Normal fd →
  provided (FormData_get "file" fd) = Some (EntryFile f) →
  provided (FormData_get "apiKey" fd) = Some key →
  last (snd (POST upstream now request)) = Some step →
  upstream (pred (length (snd (POST upstream now request)))) step = Normal response →
  fst (POST upstream now request)
  = match answer now (EntryFile f) response with
    | Normal reply => reply
    | Throw message =>
        NextResponse_json (error_body ("Failed to process document: " ++ message)) 500
    end.
Proof.
  intros Hfd Hfile Hkey. rewrite (POST_probe _ _ _ _ Hfd Hfile Hkey).
  destruct (probe_last_call (EntryFile f) (entry_to_string key) (base64 (File.bytes f)))
    as (step' & Hlast & Hanswer).
  destruct (probe _ _ _ _ []) as [[response'|e] calls]; simpl in *;
    intros Hstep Hresponse; rewrite Hlast in Hstep; injection Hstep as ->;
    rewrite Hanswer in Hresponse; [by injection Hresponse as ->|discriminate].
Qed.

(** C2, as amended.  The answer is decided by what the upstream service
    answered to the last call made.  When the body text of that response
    can be read: status 401 gives status 401 with the invalid-credential
    message; 403 gives 403 with the forbidden message; any other status
    outside 200-299 gives status 500 with a message holding the upstream
    status code and the body text.  A 2xx response with a JSON payload
    gives status 200 with the payload, its extracted text and entities,
    and the file's name and size.  A response outside 200-299 whose body
    text cannot be read gives status 500 with the reading error, whatever
    its status. *)
Theorem response_mapping (request : NextRequest) (fd : FormData) (f : File.t)
    (key : FormDataEntryValue) (step : UpstreamRequest) (response : Response.t) :
  formData request = Normal fd →
  provided (FormData_get "file" fd) = Some (EntryFile f) →
  provided (FormData_get "apiKey" fd) = Some key →
  let calls := snd (POST upstream now request) in
  last calls = Some step →
  upstream (pred (length calls)) step = Normal response →
  let reply := fst (POST upstream now request) in
  (∀ body : string,
     Response.text response = Normal body →
     (Response.status response = 401 →
      reply = NextResponse_json
                (error_body "Invalid API key or authentication failed. Please check your LandingAI API key.")
                401)
     ∧ (Response.status response = 403 →
        reply = NextResponse_json
                  (error_body "Access forbidden. Please check your API key permissions.")
                  403)
     ∧ (Response.ok response = false →
        Response.status response ≠ 401 →
        Response.status response ≠ 403 →
        (Response.status response < 1000)%nat →
        reply = NextResponse_json
                  (error_body ("LandingAI API error (" ++ nat_to_string (Response.status response)
                                 ++ "): " ++ body))
                  500))
  ∧ (∀ payload : any,
       Response.ok response = true →
       Response.json response = Normal payload →
       reply = NextResponse_json
                 (JObj [("data", payload);
                        ("extractedText", extractTextFromResult payload);
                        ("entities", JArr (entity_to_any <$> extractEntitiesFromResult payload));
                        ("fileName", JStr (File.name f));
                        ("fileSize", JNat (File.size f));
                        ("processedAt", JStr now)])
                 200)
  ∧ (∀ message : string,
       Response.ok response = false →
       Response.text response = Throw message →
       reply = NextResponse_json
                 (error_body ("Failed to process document: " ++ message)) 500).
Proof.
  intros Hfd Hfile Hkey calls Hlast Hanswer reply. subst calls reply.
  rewrite (POST_last_call _ _ _ _ _ _ Hfd Hfile Hkey Hlast Hanswer).
  split; [|split].
  - intros body Hbody. unfold answer. rewrite Hbody. repeat split.
    + intros H401. rewrite (status_not_ok response) by auto. simpl. by rewrite H401.
    + intros H403. rewrite (status_not_ok response) by auto. simpl. by rewrite H403.
    + intros Hok H401 H403 Hbound. rewrite Hok. simpl.
      apply Nat.eqb_neq in H401, H403. rewrite H401, H403.
      by rewrite number_to_string_nat by lia.
  - intros payload Hok Hjson. by rewrite (answer_ok _ _ _ Hok Hjson).
  - intros message Hok Hbody. unfold answer. by rewrite Hok, Hbody.
Qed.

(** C7. When the file or the credential is missing from the form, the
    handler answers status 400 with an error message and has issued no
    upstream call. *)
Theorem missing_input_rejected (request : NextRequest) (fd : FormData) :
  formData request = Normal fd →
  missing (FormData_get "file" fd) = true ∨ missing (FormData_get "apiKey" fd) = true →
  ∃ message : string,
    POST upstream now request = (NextResponse_json (error_body message) 400, [])
    ∧ message = if missing (FormData_get "file" fd)
                then "No file provided" else "No API key provided".
Proof.
  intros Hfd Hmissing. unfold POST, POST_try, lift, mbind, Gateway_bind. rewrite Hfd.
  unfold provided.
  destruct (missing (FormData_get "file" fd)) eqn:Hfile.
  - by eexists.
  - destruct Hmissing as [|Hkey]; [done|]. rewrite Hkey.
    destruct (FormData_get "file" fd); [|done]. by eexists.
Qed.

End GatewayProperties.

(** ** The orchestrator: index-local updates and monotonic status *)

Lemma mark_completed_lookup (index : nat) (result : any)
    (prev next : list ExtractionResult) (j : nat) (r : ExtractionResult) :
  mark_completed index result prev = Normal next →
  prev !! j = Some r →
  ∃ r', next !! j = Some r'
        ∧ (j ≠ index → r' = r)
        ∧ (j = index → fileName r' = fileName r ∧ status r' = Status.completed
                        ∧ data r' = field result "data"
                        ∧ extractedText r' = field result "extractedText"
                        ∧ entities r' = field result "entities").
Proof.
  intros Hnext Hj. destruct (mapi_lookup _ _ _ _ _ Hnext Hj) as (r' & Hr' & Hf).
  exists r'. split; [done|]. destruct (Nat.eqb_spec j index) as [->|Hne].
  - split; [done|]. intros _. unfold field.
    destruct (get result "data"); simpl in Hf; [|done].
    destruct (get result "extractedText"); simpl in Hf; [|done].
    destruct (get result "entities"); simpl in Hf; [|done].
    by inversion Hf.
  - split; [|done]. intros _. by inversion Hf.
Qed.

Lemma mark_error_lookup (index : nat) (message : completion any)
    (prev next : list ExtractionResult) (j : nat) (r : ExtractionResult) :
  mark_error index message prev = Normal next →
  prev !! j = Some r →
  ∃ r', next !! j = Some r'
        ∧ (j ≠ index → r' = r)
        ∧ (j = index → fileName r' = fileName r ∧ status r' = Status.error).
Proof.
  intros Hnext Hj. destruct (mapi_lookup _ _ _ _ _ Hnext Hj) as (r' & Hr' & Hf).
  exists r'. split; [done|]. destruct (Nat.eqb_spec j index) as [->|Hne].
  - split; [done|]. intros _. destruct message; simpl in Hf; [|done]. by inversion Hf.
  - split; [|done]. intros _. by inversion Hf.
Qed.

Lemma settle_lookup (index : nat) (outcome : completion Response.t)
    (prev next : list ExtractionResult) (j : nat) (r : ExtractionResult) :
  settle index outcome prev = Normal next →
  prev !! j = Some r →
  ∃ r', next !! j = Some r'
        ∧ (j ≠ index → r' = r)
        ∧ (j = index →
           fileName r' = fileName r
           ∧ (status r' = Status.completed ∨ status r' = Status.error)).
Proof.
  unfold settle. intros Hnext Hj.
  destruct (_ ≫= _) as [[response result]|e].
  - destruct (Response.ok response).
    + destruct (mark_completed_lookup _ _ _ _ _ _ Hnext Hj) as (r' & ? & ? & Hat).
      exists r'. repeat split; try done; [by apply Hat | left; by apply Hat].
    + destruct (mark_error_lookup _ _ _ _ _ _ Hnext Hj) as (r' & ? & ? & Hat).
      exists r'. repeat split; try done; [by apply Hat | right; by apply Hat].
  - destruct (mark_error_lookup _ _ _ _ _ _ Hnext Hj) as (r' & ? & ? & Hat).
    exists r'. repeat split; try done; [by apply Hat | right; by apply Hat].
Qed.

Lemma settle_length (index : nat) (outcome : completion Response.t)
    (prev next : list ExtractionResult) :
  settle index outcome prev = Normal next → length next = length prev.
Proof.
  unfold settle. destruct (_ ≫= _) as [[response result]|e];
    [destruct (Response.ok response)|]; apply mapi_length.
Qed.

Lemma settle_sibling (index : nat) (outcome : completion Response.t)
    (prev next : list ExtractionResult) (j : nat) :
  settle index outcome prev = Normal next → j ≠ index → next !! j = prev !! j.
Proof.
  intros Hnext Hne. destruct (prev !! j) as [r|] eqn:Hj.
  - destruct (settle_lookup _ _ _ _ _ _ Hnext Hj) as (r' & -> & Hsame & _).
    by rewrite Hsame.
  - apply lookup_ge_None. rewrite (settle_length _ _ _ _ Hnext). by apply lookup_ge_None.
Qed.

(** An entry whose promise is still in flight is still processing. *)
Lemma in_flight_processing (files : list File.t) (s : Run) :
  reachable files s →
  ∀ j r, results s !! j = Some r → j ∈ in_flight s → status r = Status.processing.
Proof.
  induction 1 as [|s s' _ IH Hstep].
  - intros j r Hj _. unfold dispatched, initialResults in Hj. simpl in Hj.
    rewrite list_lookup_fmap in Hj. destruct (files !! j); by inversion Hj.
  - destruct Hstep as [s index outcome next Hin Hnext]. simpl.
    intros j r Hj Hflight. apply elem_of_difference in Hflight as [Hflight Hne].
    rewrite (settle_sibling _ _ _ _ j Hnext) in Hj by set_solver.
    by eapply IH.
Qed.

Lemma step_status (files : list File.t) (s s' : Run) (j : nat) (r : ExtractionResult) :
  reachable files s → step s s' → results s !! j = Some r →
  ∃ r', results s' !! j = Some r'
        ∧ (r' = r
           ∨ (status r = Status.processing
              ∧ (status r' = Status.completed ∨ status r' = Status.error)))
        ∧ (status r ≠ Status.processing → r' = r).
Proof.
  intros Hreach Hstep Hj. pose proof (in_flight_processing _ _ Hreach j r Hj) as Hinv.
  destruct Hstep as [s index outcome next Hin Hnext]. simpl.
  destruct (settle_lookup _ _ _ _ _ _ Hnext Hj) as (r' & Hr' & Hsame & Hat).
  exists r'. split; [done|]. destruct (decide (j = index)) as [->|Hne].
  - split; [right; split; [by apply Hinv | by apply Hat]|].
    intros Hterminal. by destruct Hterminal; apply Hinv.
  - split; [left|intros _]; by apply Hsame.
Qed.

(** C9. The update applied when a file's call settles keeps the length
    of the results list and every entry at another index; along a run,
    a step leaves an entry as it is or takes it from processing to
    completed or error; an entry that is no longer processing is never
    changed again; and a run starts with every entry processing. *)
Theorem updates_are_index_local_and_monotonic :
  (∀ (index : nat) (outcome : completion Response.t) (prev next : list ExtractionResult),
      settle index outcome prev = Normal next →
      length next = length prev ∧ ∀ j, j ≠ index → next !! j = prev !! j)
  ∧ (∀ (files : list File.t) (s s' : Run) (j : nat) (r : ExtractionResult),
       reachable files s → step s s' → results s !! j = Some r →
       ∃ r', results s' !! j = Some r'
             ∧ (r' = r
                ∨ (status r = Status.processing
                   ∧ (status r' = Status.completed ∨ status r' = Status.error))))
  ∧ (∀ (files : list File.t) (s s' : Run) (j : nat) (r : ExtractionResult),
       reachable files s → rtc step s s' → results s !! j = Some r →
       status r ≠ Status.processing →
       results s' !! j = Some r)
  ∧ (∀ (apiKey : string) (files : list File.t) (s : Run) (j : nat) (r : ExtractionResult),
       processFiles apiKey files = Some s → results s !! j = Some r →
       reachable files s ∧ status r = Status.processing).
Proof.
  split; [|split; [|split]].
  - intros index outcome prev next Hnext. split; [by eapply settle_length|].
    intros j Hne. by eapply settle_sibling.
  - intros files s s' j r Hreach Hstep Hj.
    destruct (step_status _ _ _ _ _ Hreach Hstep Hj) as (r' & ? & ? & _). by exists r'.
  - intros files s s' j r Hreach Hsteps. revert Hreach.
    induction Hsteps as [s|s s1 s2 Hstep _ IH]; intros Hreach Hj Hterminal; [done|].
    destruct (step_status _ _ _ _ _ Hreach Hstep Hj) as (r' & Hr' & _ & Hsame).
    rewrite (Hsame Hterminal) in Hr'. apply IH; eauto using reachable_step.
  - intros apiKey files s j r Hstart Hj. unfold processFiles in Hstart.
    destruct (blank apiKey); [done|]. destruct (length files =? 0)%nat; [done|].
    inversion Hstart; subst s. split; [constructor|].
    unfold dispatched, initialResults in Hj. simpl in Hj.
    rewrite list_lookup_fmap in Hj. destruct (files !! j); by inversion Hj.
Qed.

(** ** Strings *)

Lemma append_assoc (a b c : string) : (a ++ b) ++ c = a ++ (b ++ c).
Proof.
  induction a as [|x a IH]; [done|].
  change (String x ((a ++ b) ++ c) = String x (a ++ (b ++ c))). by f_equal.
Qed.

(** ** Normalisation never throws *)

Lemma mark_completed_total (index : nat) (result : any) (prev : list ExtractionResult) :
  nullish result = false →
  mark_completed index result prev
  = Normal (imap (λ i r,
                    if (i =? index)%nat
                    then {| fileName := fileName r;
                            status := Status.completed;
                            data := field result "data";
                            error := error r;
                            extractedText := field result "extractedText";
                            entities := field result "entities" |}
                    else r) prev).
Proof.
  intros Hresult. unfold mark_completed. apply mapi_total. intros i r _.
  rewrite !(get_field _ _ Hresult). simpl. by destruct (i =? index)%nat.
Qed.

Section NormalisationTotal.
Context `{Engine}.

Lemma text_try_sources (payload t : any) :
  extractTextFromResult_try payload = Normal t →
  is_string t = true ∨ (truthy t = true ∧ t ∈ text_sources payload).
Proof.
  unfold extractTextFromResult_try.
  destruct (nullish payload) eqn:Hpayload; [by destruct payload|].
  destruct (has_predictions payload) as [nonempty|]; simpl; [|done].
  rewrite (top_level_text _ Hpayload).
  assert (∀ v, Normal (first_truthy payload ["text"; "ocr_result"] (JStr "No text extracted"))
               = Normal v →
               is_string v = true ∨ truthy v = true ∧ v ∈ text_sources payload) as Htop.
  { intros v [= <-]. unfold text_sources. simpl.
    destruct (truthy (field payload "text")) eqn:Ht; [right; split; [done|set_solver]|].
    destruct (truthy (field payload "ocr_result")) eqn:Ho; [right; split; [done|set_solver]|].
    by left. }
  destruct nonempty; simpl; [|apply Htop].
  destruct (get payload "predictions") as [predictions|] eqn:Hpredictions; simpl; [|done].
  destruct (get_index predictions 0) as [prediction|] eqn:Hfirst; simpl; [|done].
  assert (first_prediction payload = prediction) as Hprediction
    by (unfold first_prediction; by rewrite Hpredictions, Hfirst).
  destruct (nullish prediction) eqn:Hp; [by destruct prediction|].
  rewrite (text_of_prediction_fields _ Hp).
  unfold text_sources in *. rewrite Hprediction in *.
  destruct (truthy (field prediction "extracted_text")) eqn:H1;
    [simpl; intros [= <-]; right; split; [done|set_solver]|].
  destruct (truthy (field prediction "ocr_text")) eqn:H2;
    [simpl; intros [= <-]; right; split; [done|set_solver]|].
  destruct (truthy (field prediction "text")) eqn:H3;
    [simpl; intros [= <-]; right; split; [done|set_solver]|].
  destruct (_ && _).
  { destruct (array_map _ _) as [mapped|]; simpl; [|done].
    destruct (join " " mapped); simpl; [|done]. intros [= <-]. by left. }
  destruct (_ && _).
  { destruct (array_map _ _) as [mapped|]; simpl; [|done].
    destruct (join " " mapped); simpl; [|done]. intros [= <-]. by left. }
  simpl. apply Htop.
Qed.

Lemma text_sources_or_string (payload : any) :
  is_string (extractTextFromResult payload) = true
  ∨ (truthy (extractTextFromResult payload) = true
     ∧ extractTextFromResult payload ∈ text_sources payload).
Proof.
  unfold extractTextFromResult.
  destruct (extractTextFromResult_try payload) as [t|] eqn:Htry; [|by left].
  by apply text_try_sources.
Qed.

(** X24. For every payload value, normalisation never throws.  Text
    extraction returns a string, or else the truthy value of one of the
    text fields exactly as the payload holds it (so a string whenever
    those fields hold strings); it returns "Error extracting text" when a
    field access fails and "No text extracted" when no field is there.
    Entity extraction returns a sequence, empty when a field access fails
    or no field is there.  When the last upstream call is answered 2xx
    with any JSON payload, the handler answers status 200 and the page
    marks the file completed. *)
Theorem normalization_never_throws (payload : any) :
  (is_string (extractTextFromResult payload) = true
   ∨ (truthy (extractTextFromResult payload) = true
      ∧ extractTextFromResult payload ∈ text_sources payload))
  ∧ ((∀ v, v ∈ text_sources payload → truthy v = true → is_string v = true) →
     is_string (extractTextFromResult payload) = true)
  ∧ (∀ message, extractTextFromResult_try payload = Throw message →
                extractTextFromResult payload = JStr "Error extracting text")
  ∧ (∀ message, extractEntitiesFromResult_try payload = Throw message →
                extractEntitiesFromResult payload = [])
  ∧ (nullish payload = true →
     extractTextFromResult payload = JStr "Error extracting text"
     ∧ extractEntitiesFromResult payload = [])
  ∧ (nullish payload = false →
     Forall (λ k, field payload k = JUndefined) ["predictions"; "text"; "ocr_result"] →
     extractTextFromResult payload = JStr "No text extracted"
     ∧ extractEntitiesFromResult payload = [])
  ∧ (∀ (upstream : nat → UpstreamRequest → completion Response.t) (now : string)
       (request : NextRequest) (fd : FormData) (f : File.t) (key : FormDataEntryValue)
       (step : UpstreamRequest) (response : Response.t) (index : nat)
       (prev : list ExtractionResult) (entry : ExtractionResult),
        formData request = Normal fd →
        provided (FormData_get "file" fd) = Some (EntryFile f) →
        provided (FormData_get "apiKey" fd) = Some key →
        last (snd (POST upstream now request)) = Some step →
        upstream (pred (length (snd (POST upstream now request)))) step = Normal response →
        Response.ok response = true →
        Response.json response = Normal payload →
        prev !! index = Some entry →
        let reply := fst (POST upstream now request) in
        reply_status reply = 200
        ∧ ∃ next entry',
            settle index (Normal (received reply)) prev = Normal next
            ∧ next !! index = Some entry'
            ∧ status entry' = Status.completed
            ∧ data entry' = payload
            ∧ extractedText entry' = extractTextFromResult payload
            ∧ entities entry' = JArr (entity_to_any <$> extractEntitiesFromResult payload)).
Proof.
  split; [apply text_sources_or_string|].
  split.
  { intros Hstrings. destruct (text_sources_or_string payload) as [|[Ht Hin]]; [done|].
    by apply Hstrings. }
  split; [by unfold extractTextFromResult; intros message ->|].
  split; [by unfold extractEntitiesFromResult; intros message ->|].
  split; [by destruct payload|].
  split.
  { intros Hpayload Hnone.
    apply Forall_cons in Hnone as [Hpredictions Hnone].
    apply Forall_cons in Hnone as [Htext Hnone].
    apply Forall_cons in Hnone as [Hocr _].
    unfold extractTextFromResult, extractTextFromResult_try,
      extractEntitiesFromResult, extractEntitiesFromResult_try.
    rewrite (has_predictions_none _ Hpayload (or_introl Hpredictions)). simpl.
    rewrite (top_level_text _ Hpayload). simpl. by rewrite Htext, Hocr. }
  intros upstream now request fd f key step response index prev entry
    Hfd Hfile Hkey Hlast Hanswer Hok Hjson Hentry reply.
  subst reply. rewrite (POST_last_call _ _ _ _ _ _ _ _ Hfd Hfile Hkey Hlast Hanswer).
  rewrite (answer_ok _ _ _ _ Hok Hjson). split; [done|].
  unfold settle, received. simpl.
  rewrite mark_completed_total by done.
  eexists _, _. split; [done|]. rewrite list_lookup_imap, Hentry. simpl.
  rewrite Nat.eqb_refl. done.
Qed.

End NormalisationTotal.

(** ** The gateway on every request *)

Lemma append_nonempty (c : ascii) (s t : string) : String c s ++ t ≠ "".
Proof. change (String c s ++ t) with (String c (s ++ t)). discriminate. Qed.

Section GatewayEdges.
Context `{Engine}.
Variable upstream : nat → UpstreamRequest → completion Response.t.
Variable now : string.

Ltac next_probe :=
  first
    [ match goal with
      | |- context [(Response.status ?r =? 401)%nat] =>
          is_var r; destruct (Response.status r =? 401)%nat; simpl
      end
    | match goal with
      | |- context [upstream ?k ?step] => destruct (upstream k step) as [?|]; simpl
      end ].

Lemma probe_calls_bound (file : FormDataEntryValue) (apiKey base64File : string) :
  (1 ≤ length (snd (probe upstream file apiKey base64File [])) ≤ 5)%nat.
Proof.
  unfold probe, fetch, mbind, Gateway_bind, mret, Gateway_ret. simpl.
  repeat next_probe; simpl; lia.
Qed.

Lemma answer_shape (file : FormDataEntryValue) (response : Response.t) (reply : NextResponse) :
  answer now file response = Normal reply →
  (reply_status reply = 200
   ∧ ∃ payload, Response.json response = Normal payload
       ∧ reply_body reply
         = JObj [("data", payload);
                 ("extractedText", extractTextFromResult payload);
                 ("entities", JArr (entity_to_any <$> extractEntitiesFromResult payload));
                 ("fileName", file_name file);
                 ("fileSize", file_size file);
                 ("processedAt", JStr now)])
  ∨ (reply_status reply ∈ [401; 403; 500] ∧ ∃ message, error_reply reply message).
Proof.
  unfold answer, error_reply. destruct (Response.ok response); simpl.
  - destruct (Response.json response) as [payload|]; simpl; [|done].
    intros [= <-]. left. split; [done|]. by exists payload.
  - destruct (Response.text response) as [errorText|]; simpl; [|done].
    destruct (Response.status response =? 401)%nat;
      [|destruct (Response.status response =? 403)%nat];
      intros [= <-]; right; simpl; (split; [repeat constructor|]); eexists; (split; [done|]);
      try done; apply append_nonempty.
Qed.

Lemma POST_reply_cases (request : NextRequest) :
  let reply := fst (POST upstream now request) in
  let calls := snd (POST upstream now request) in
  (length calls ≤ 5)%nat
  ∧ ((reply_status reply = 200
      ∧ ∃ payload file,
          reply_body reply
          = JObj [("data", payload);
                  ("extractedText", extractTextFromResult payload);
                  ("entities", JArr (entity_to_any <$> extractEntitiesFromResult payload));
                  ("fileName", file_name file);
                  ("fileSize", file_size file);
                  ("processedAt", JStr now)])
     ∨ (reply_status reply ∈ [400; 401; 403; 500]
        ∧ ∃ message, error_reply reply message)).
Proof.
  unfold POST, POST_try, lift, try_catch, mbind, Gateway_bind, mret, Gateway_ret, error_reply.
  destruct (formData request) as [fd|]; simpl.
  2: { split; [lia|]. right. split; [repeat constructor|]. eexists. split; [done|].
       apply append_nonempty. }
  destruct (provided (FormData_get "file" fd)) as [file|]; simpl.
  2: { split; [lia|]. right. split; [repeat constructor|]. by eexists. }
  destruct (provided (FormData_get "apiKey" fd)) as [key|]; simpl.
  2: { split; [lia|]. right. split; [repeat constructor|]. by eexists. }
  destruct (arrayBuffer file) as [bytes|]; simpl.
  2: { split; [lia|]. right. split; [repeat constructor|]. eexists. split; [done|].
       apply append_nonempty. }
  pose proof (probe_calls_bound file (entry_to_string key) (base64 bytes)) as Hbound.
  destruct (probe upstream file (entry_to_string key) (base64 bytes) [])
    as [[response|] calls]; simpl in *.
  2: { split; [lia|]. right. split; [repeat constructor|]. by eexists. }
  destruct (answer now file response) as [reply|] eqn:Hanswer; simpl.
  - split; [lia|]. destruct (answer_shape _ _ _ Hanswer) as [[? [payload [_ ?]]]|[? ?]].
    + left. split; [done|]. by exists payload, file.
    + right. split; [by constructor|done].
  - split; [lia|]. right. split; [repeat constructor|]. eexists. split; [done|].
    apply append_nonempty.
Qed.

(** X1. Whatever the request and the upstream service, the handler makes at
    most five upstream calls and answers either status 200 with the
    processed result (payload, text, entities, file name and size, time) or
    one of 400, 401, 403, 500 with an object whose only field [error] holds
    a non-empty message. *)
Theorem POST_reply_shape (request : NextRequest) :
  let reply := fst (POST upstream now request) in
  let calls := snd (POST upstream now request) in
  (length calls ≤ 5)%nat
  ∧ ((reply_status reply = 200
      ∧ ∃ payload file,
          reply_body reply
          = JObj [("data", payload);
                  ("extractedText", extractTextFromResult payload);
                  ("entities", JArr (entity_to_any <$> extractEntitiesFromResult payload));
                  ("fileName", file_name file);
                  ("fileSize", file_size file);
                  ("processedAt", JStr now)])
     ∨ (reply_status reply ∈ [400; 401; 403; 500]
        ∧ ∃ message, error_reply reply message)).
Proof. apply POST_reply_cases. Qed.

(** X2. A call that fails at the network ends probing: when the steps
    before step [k] were answered 401 and the call of step [k] rejects, the
    handler answers status 500 "Network error occurred" and has made
    exactly the calls up to step [k]. *)
Theorem network_failure_aborts (request : NextRequest) (fd : FormData) (f : File.t)
    (key : FormDataEntryValue) (k : nat) (step : UpstreamRequest) (message : string) :
  formData request = Normal fd →
  provided (FormData_get "file" fd) = Some (EntryFile f) →
  provided (FormData_get "apiKey" fd) = Some key →
  let steps := formats (EntryFile f) (entry_to_string key) (base64 (File.bytes f)) in
  (∀ j, (j < k)%nat → unauthorized upstream steps j = true) →
  steps !! k = Some step →
  upstream k step = Throw message →
  POST upstream now request
  = (NextResponse_json (error_body "Network error occurred") 500, take (S k) steps).
Proof.
  intros Hfd Hfile Hkey steps Hbefore Hstep Hfails.
  rewrite (POST_probe _ _ _ _ _ _ Hfd Hfile Hkey).
  assert (∀ j st, steps !! j = Some st →
            unauthorized upstream steps j
            = match upstream j st with
              | Normal response => (Response.status response =? 401)%nat
              | Throw _ => false
              end) as Hun.
  { intros j st Hj. unfold unauthorized. by rewrite Hj. }
  pose proof (Hun 0 _ eq_refl) as H0. pose proof (Hun 1 _ eq_refl) as H1.
  pose proof (Hun 2 _ eq_refl) as H2. pose proof (Hun 3 _ eq_refl) as H3.
  clear Hun.
  unfold probe, fetch, mbind, Gateway_bind, mret, Gateway_ret. simpl.
  destruct k as [|[|[|[|[|k]]]]]; [inversion Hstep; subst step..|done].
  - by rewrite Hfails.
  - pose proof (Hbefore 0 ltac:(lia)) as B0. rewrite H0 in B0.
    destruct (upstream 0 _) as [r0|]; [|done]. simpl. rewrite B0. simpl.
    by rewrite Hfails.
  - pose proof (Hbefore 0 ltac:(lia)) as B0. rewrite H0 in B0.
    pose proof (Hbefore 1 ltac:(lia)) as B1. rewrite H1 in B1.
    destruct (upstream 0 _) as [r0|]; [|done]. simpl. rewrite B0. simpl.
    destruct (upstream 1 _) as [r1|]; [|done]. simpl. rewrite B1. simpl.
    by rewrite Hfails.
  - pose proof (Hbefore 0 ltac:(lia)) as B0. rewrite H0 in B0.
    pose proof (Hbefore 1 ltac:(lia)) as B1. rewrite H1 in B1.
    pose proof (Hbefore 2 ltac:(lia)) as B2. rewrite H2 in B2.
    destruct (upstream 0 _) as [r0|]; [|done]. simpl. rewrite B0. simpl.
    destruct (upstream 1 _) as [r1|]; [|done]. simpl. rewrite B1. simpl.
    destruct (upstream 2 _) as [r2|]; [|done]. simpl. rewrite B2. simpl.
    by rewrite Hfails.
  - pose proof (Hbefore 0 ltac:(lia)) as B0. rewrite H0 in B0.
    pose proof (Hbefore 1 ltac:(lia)) as B1. rewrite H1 in B1.
    pose proof (Hbefore 2 ltac:(lia)) as B2. rewrite H2 in B2.
    pose proof (Hbefore 3 ltac:(lia)) as B3. rewrite H3 in B3.
    destruct (upstream 0 _) as [r0|]; [|done]. simpl. rewrite B0. simpl.
    destruct (upstream 1 _) as [r1|]; [|done]. simpl. rewrite B1. simpl.
    destruct (upstream 2 _) as [r2|]; [|done]. simpl. rewrite B2. simpl.
    destruct (upstream 3 _) as [r3|]; [|done]. simpl. rewrite B3. simpl.
    by rewrite Hfails.
Qed.

(** X3. A request that cannot be read is answered before any upstream
    call: when the form cannot be parsed, or when the [file] field holds
    text instead of a file (with a credential present), the handler
    answers status 500 "Failed to process document: ..." with the thrown
    message and has made no call. *)
Theorem unreadable_request_rejected (request : NextRequest) :
  (∀ message,
      formData request = Throw message →
      POST upstream now request
      = (NextResponse_json (error_body ("Failed to process document: " ++ message)) 500, []))
  ∧ (∀ fd s,
       formData request = Normal fd →
       FormData_get "file" fd = Some (EntryString s) →
       s ≠ "" →
       missing (FormData_get "apiKey" fd) = false →
       POST upstream now request
       = (NextResponse_json
            (error_body "Failed to process document: file.arrayBuffer is not a function")
            500, [])).
Proof.
  split.
  - intros message Hfd. unfold POST, POST_try, lift, mbind, Gateway_bind. by rewrite Hfd.
  - intros fd s Hfd Hfile Hs Hkey.
    unfold POST, POST_try, lift, mbind, Gateway_bind, provided. rewrite Hfd, Hfile, Hkey.
    simpl. destruct (String.eqb_spec s ""); [done|].
    by destruct (FormData_get "apiKey" fd).
Qed.

(** X4. A 2xx response whose body does not parse as JSON is not
    normalised: the handler answers status 500 "Failed to process
    document: ..." with the parser's message. *)
Theorem unparsable_success_body (request : NextRequest) (fd : FormData) (f : File.t)
    (key : FormDataEntryValue) (response : Response.t) (message : string) :
  formData request = Normal fd →
  provided (FormData_get "file" fd) = Some (EntryFile f) →
  provided (FormData_get "apiKey" fd) = Some key →
  fst (probe upstream (EntryFile f) (entry_to_string key) (base64 (File.bytes f)) [])
  = Normal response →
  Response.ok response = true →
  Response.json response = Throw message →
  fst (POST upstream now request)
  = NextResponse_json (error_body ("Failed to process document: " ++ message)) 500.
Proof.
  intros Hfd Hfile Hkey Hfinal Hok Hjson.
  rewrite (POST_final _ _ _ _ _ _ _ Hfd Hfile Hkey Hfinal).
  unfold answer. by rewrite Hok, Hjson.
Qed.

End GatewayEdges.

(** ** Entity extraction, all four blocks *)

Lemma mapi_from_throws {A B} (f : nat → A → completion B) (bad : A → Prop) (l : list A) :
  (∀ i x, bad x → ∃ message, f i x = Throw message) →
  Exists bad l →
  ∀ start, ∃ message, mapi_from f start l = Throw message.
Proof.
  intros Hf Hbad. induction Hbad as [x l Hx|x l _ IH]; intros start; simpl.
  - destruct (Hf start x Hx) as [message ->]. by exists message.
  - destruct (f start x) as [y|message]; simpl; [|by exists message].
    destruct (IH (S start)) as [message ->]. by exists message.
Qed.

Section EntityBlocks.
Context `{Engine}.

Lemma pushed_from_elements (a : any) (f : nat → any → completion Entity) :
  pushed_from a f = mapi f (elements_of a).
Proof. destruct a; unfold pushed_from; simpl; by rewrite ?andb_false_r. Qed.

Lemma entity_of_entity_total (entity : any) :
  nullish entity = false → entity_of_entity entity = Normal (normalized_entity entity).
Proof.
  intros Hn. unfold entity_of_entity, normalized_entity. rewrite !or_else_assoc.
  rewrite !(or_else_field _ _ _ Hn). simpl.
  repeat (match goal with |- context [truthy ?v] => destruct (truthy v) end; simpl); done.
Qed.

Lemma entity_of_pair_total (pair : any) :
  nullish pair = false → entity_of_pair pair = Normal (pair_entity pair).
Proof.
  intros Hn. unfold entity_of_pair, pair_entity.
  rewrite !(or_else_field _ _ _ Hn). simpl.
  repeat (match goal with |- context [truthy ?v] => destruct (truthy v) end; simpl); done.
Qed.

Lemma entity_of_box_total (index : nat) (box : any) :
  nullish box = false → (Z.of_nat index < 2 ^ 32)%Z →
  entity_of_box index box = Normal (box_entity index box).
Proof.
  intros Hn Hindex. unfold entity_of_box, box_entity. rewrite !or_else_assoc.
  rewrite !(or_else_field _ _ _ Hn). rewrite number_to_string_nat by lia. simpl.
  repeat (match goal with |- context [truthy ?v] => destruct (truthy v) end; simpl); done.
Qed.

Lemma callbacks_throw_on_nullish (x : any) :
  nullish x = true →
  (∃ message, entity_of_entity x = Throw message)
  ∧ (∃ message, entity_of_pair x = Throw message)
  ∧ (∀ i, ∃ message, entity_of_table i x = Throw message)
  ∧ (∀ i, ∃ message, entity_of_box i x = Throw message).
Proof. destruct x; try done; intros _; repeat split; intros; by eexists. Qed.

(** The body of the [try] once [predictions[0]] is known. *)
Lemma extractEntities_with_prediction (result prediction : any) (rest : list any) :
  get result "predictions" = Normal (JArr (prediction :: rest)) →
  extractEntitiesFromResult_try result =
    entities ← get prediction "entities";
    from_entities ← pushed_from entities (λ _ entity, entity_of_entity entity);
    key_value_pairs ← get prediction "key_value_pairs";
    from_pairs ← pushed_from key_value_pairs (λ _ pair, entity_of_pair pair);
    tables ← get prediction "tables";
    from_tables ← pushed_from tables entity_of_table;
    bounding_boxes ← get prediction "bounding_boxes";
    from_boxes ← pushed_from bounding_boxes entity_of_box;
    Normal (from_entities ++ from_pairs ++ from_tables ++ from_boxes)%list.
Proof.
  intros Hget. unfold extractEntitiesFromResult_try.
  rewrite (has_predictions_cons _ _ _ Hget). simpl. by rewrite Hget.
Qed.

(** X5. Entity extraction is additive and ordered: whenever it completes,
    its result is the entities of [entities], then those of
    [key_value_pairs], then those of [tables], then those of
    [bounding_boxes], one per element; a pair gives
    {key or "Key-Value", value or "", confidence or 0} and the box at
    1-based position i gives {label, class or "Detection"; text, value or
    "Detection i"; confidence, score or 0}.  A field that holds no array
    contributes nothing. *)
Theorem entities_in_source_order (result prediction : any) (rest : list any)
    (es : list Entity) :
  get result "predictions" = Normal (JArr (prediction :: rest)) →
  extractEntitiesFromResult_try result = Normal es →
  (Z.of_nat (length (elements_of (field prediction "bounding_boxes"))) < 2 ^ 32)%Z →
  ∃ from_tables,
    extractEntitiesFromResult result
    = ((normalized_entity <$> elements_of (field prediction "entities"))
         ++ (pair_entity <$> elements_of (field prediction "key_value_pairs"))
         ++ from_tables
         ++ imap box_entity (elements_of (field prediction "bounding_boxes")))%list
    ∧ length from_tables = length (elements_of (field prediction "tables")).
Proof.
  intros Hget Hes Hbound. rewrite (extractEntities_completes _ _ Hes).
  destruct (extractEntities_blocks _ _ _ _ Hget Hes)
    as (e1 & e2 & e3 & e4 & H1 & H2 & H3 & H4 & ->).
  rewrite pushed_from_elements in H1, H2, H3, H4.
  exists e3. split; [|by apply mapi_length in H3].
  rewrite (mapi_Normal_imap _ (λ _, normalized_entity) _ _ H1)
    by (intros i x y _; apply entity_of_entity_Normal).
  rewrite (mapi_Normal_imap _ (λ _, pair_entity) _ _ H2).
  2: { intros i x y _ Hy. destruct (nullish x) eqn:Hx; [by destruct x|].
       rewrite (entity_of_pair_total _ Hx) in Hy. by inversion Hy. }
  rewrite (mapi_Normal_imap _ box_entity _ _ H4).
  2: { intros i x y Hi Hy. destruct (nullish x) eqn:Hx; [by destruct x|].
       apply lookup_lt_Some in Hi.
       rewrite (entity_of_box_total _ _ Hx) in Hy by lia. by inversion Hy. }
  by rewrite (imap_const normalized_entity), (imap_const pair_entity).
Qed.

(** X6. Extraction completes on a well-formed first prediction: when no
    element of the four arrays is null and every table has [rows] and
    [data] that are arrays or absent, the result is exactly the four
    blocks, the table at 1-based position i giving "Table i (n rows)". *)
Theorem entities_of_well_formed_prediction (result prediction : any) (rest : list any) :
  get result "predictions" = Normal (JArr (prediction :: rest)) →
  nullish prediction = false →
  let entities := elements_of (field prediction "entities") in
  let pairs := elements_of (field prediction "key_value_pairs") in
  let tables := elements_of (field prediction "tables") in
  let boxes := elements_of (field prediction "bounding_boxes") in
  Forall (λ x, nullish x = false) (entities ++ pairs ++ boxes)%list →
  Forall (λ table, ∃ rows, counted_rows table = Some rows ∧ (Z.of_nat rows < 2 ^ 32)%Z) tables →
  (Z.of_nat (length tables) < 2 ^ 32)%Z →
  (Z.of_nat (length boxes) < 2 ^ 32)%Z →
  extractEntitiesFromResult result
  = ((normalized_entity <$> entities)
       ++ (pair_entity <$> pairs)
       ++ imap (λ i table, table_entity i (default 0 (counted_rows table)) table) tables
       ++ imap box_entity boxes)%list.
Proof.
  intros Hget Hp entities pairs tables boxes Hobjects Htables Hlen_tables Hlen_boxes.
  apply Forall_app in Hobjects as [Hentities Hobjects].
  apply Forall_app in Hobjects as [Hpairs Hboxes].
  unfold extractEntitiesFromResult.
  rewrite (extractEntities_with_prediction _ _ _ Hget), !(get_field _ _ Hp). simpl.
  rewrite !pushed_from_elements.
  fold entities pairs tables boxes.
  rewrite (mapi_total _ (λ _, normalized_entity) entities).
  2: { intros i x Hi. apply entity_of_entity_total.
       by eapply (proj1 (Forall_lookup _ _) Hentities). }
  simpl. rewrite (mapi_total _ (λ _, pair_entity) pairs).
  2: { intros i x Hi. apply entity_of_pair_total.
       by eapply (proj1 (Forall_lookup _ _) Hpairs). }
  simpl.
  rewrite (mapi_total _ (λ i table, table_entity i (default 0 (counted_rows table)) table)
             tables).
  2: { intros i table Hi.
       destruct (proj1 (Forall_lookup _ _) Htables i table Hi) as (rows & Hrows & Hbound).
       apply lookup_lt_Some in Hi. rewrite Hrows. simpl.
       apply entity_of_table_counted; [done|lia|done]. }
  simpl. rewrite (mapi_total _ box_entity boxes).
  2: { intros i box Hi. apply lookup_lt_Some in Hi as Hlt.
       apply entity_of_box_total; [|lia].
       by eapply (proj1 (Forall_lookup _ _) Hboxes). }
  simpl. by rewrite (imap_const normalized_entity), (imap_const pair_entity).
Qed.

(** X7. Only element 0 of [predictions] is read: two payloads whose
    [predictions] start with the same element give the same entities, and
    the same text when their top-level [text] and [ocr_result] agree. *)
Theorem only_first_prediction_is_read (result result' prediction : any)
    (rest rest' : list any) :
  get result "predictions" = Normal (JArr (prediction :: rest)) →
  get result' "predictions" = Normal (JArr (prediction :: rest')) →
  extractEntitiesFromResult result = extractEntitiesFromResult result'
  ∧ (field result "text" = field result' "text" →
     field result "ocr_result" = field result' "ocr_result" →
     extractTextFromResult result = extractTextFromResult result').
Proof.
  intros Hget Hget'. split.
  - unfold extractEntitiesFromResult.
    by rewrite (extractEntities_with_prediction _ _ _ Hget),
      (extractEntities_with_prediction _ _ _ Hget').
  - intros Htext Hocr. unfold extractTextFromResult.
    rewrite (extractText_with_prediction _ _ _ Hget),
      (extractText_with_prediction _ _ _ Hget').
    simpl. by rewrite Htext, Hocr.
Qed.

(** X8. A first prediction that is [null] defeats both extractions,
    whatever else the payload holds: the text is "Error extracting text"
    (a top-level [text] is not consulted) and the entities are empty. *)
Theorem null_first_prediction (result prediction : any) (rest : list any) :
  get result "predictions" = Normal (JArr (prediction :: rest)) →
  nullish prediction = true →
  extractTextFromResult result = JStr "Error extracting text"
  ∧ extractEntitiesFromResult result = [].
Proof.
  intros Hget Hp. unfold extractTextFromResult, extractEntitiesFromResult.
  rewrite (extractText_with_prediction _ _ _ Hget),
    (extractEntities_with_prediction _ _ _ Hget).
  by destruct prediction.
Qed.

(** X9. Entity extraction is all or nothing: one [null] element in any of
    [entities], [key_value_pairs], [tables] or [bounding_boxes] makes the
    whole result empty, the entities of the other elements and blocks
    included. *)
Theorem null_element_empties_entities (result prediction : any) (rest : list any)
    (k : string) :
  get result "predictions" = Normal (JArr (prediction :: rest)) →
  k ∈ ["entities"; "key_value_pairs"; "tables"; "bounding_boxes"] →
  Exists (λ x, nullish x = true) (elements_of (field prediction k)) →
  extractEntitiesFromResult result = [].
Proof.
  intros Hget Hk Hnull. unfold extractEntitiesFromResult.
  rewrite (extractEntities_with_prediction _ _ _ Hget).
  destruct (nullish prediction) eqn:Hp; [by destruct prediction|].
  rewrite !(get_field _ _ Hp). simpl. rewrite !pushed_from_elements. unfold mapi.
  assert (∀ key (f : nat → any → completion Entity),
            k = key →
            (∀ i x, nullish x = true → ∃ message, f i x = Throw message) →
            ∃ message, mapi_from f 0 (elements_of (field prediction key)) = Throw message)
    as Hthrows.
  { intros key f -> Hf. by apply (mapi_from_throws f (λ x, nullish x = true)). }
  destruct (mapi_from _ 0 (elements_of (field prediction "entities"))) as [e1|] eqn:H1;
    simpl; [|done].
  destruct (mapi_from _ 0 (elements_of (field prediction "key_value_pairs"))) as [e2|] eqn:H2;
    simpl; [|done].
  destruct (mapi_from _ 0 (elements_of (field prediction "tables"))) as [e3|] eqn:H3;
    simpl; [|done].
  destruct (mapi_from _ 0 (elements_of (field prediction "bounding_boxes"))) as [e4|] eqn:H4;
    simpl; [|done].
  exfalso.
  repeat (apply elem_of_cons in Hk as [Hk|Hk]); [..|by apply elem_of_nil in Hk].
  - destruct (Hthrows "entities" (λ _ entity, entity_of_entity entity) Hk) as [m Hm];
      [intros i x Hx; apply (callbacks_throw_on_nullish x Hx)|congruence].
  - destruct (Hthrows "key_value_pairs" (λ _ pair, entity_of_pair pair) Hk) as [m Hm];
      [intros i x Hx; apply (callbacks_throw_on_nullish x Hx)|congruence].
  - destruct (Hthrows "tables" entity_of_table Hk) as [m Hm];
      [intros i x Hx; apply (callbacks_throw_on_nullish x Hx)|congruence].
  - destruct (Hthrows "bounding_boxes" entity_of_box Hk) as [m Hm];
      [intros i x Hx; apply (callbacks_throw_on_nullish x Hx)|congruence].
Qed.

Lemma or_else_result (a : completion any) (fallback v : any) :
  a ||| Normal fallback = Normal v → truthy v = true ∨ v = fallback.
Proof.
  unfold or_else. destruct a as [x|]; simpl; [|done].
  destruct (truthy x) eqn:Hx; intros [= <-]; auto.
Qed.

Lemma truthy_not_nullish (v : any) : truthy v = true → nullish v = false.
Proof. by destruct v. Qed.

Lemma populated_intro (t v c dt dv dc : any) :
  truthy t = true ∨ t = dt → truthy v = true ∨ v = dv → truthy c = true ∨ c = dc →
  truthy dt = true → nullish dv = false → nullish dc = false →
  populated {| type := t; value := v; confidence := c |}.
Proof.
  intros Ht Hv Hc Hdt Hdv Hdc. unfold populated. simpl. split; [|split].
  - by destruct Ht as [Ht| ->].
  - destruct Hv as [Hv| ->]; [by apply truthy_not_nullish|done].
  - destruct Hc as [Hc| ->]; [by apply truthy_not_nullish|done].
Qed.

Lemma entity_parts (a b c : completion any) (e : Entity) :
  (t ← a; v ← b; k ← c; Normal {| type := t; value := v; confidence := k |}) = Normal e →
  ∃ t v k, a = Normal t ∧ b = Normal v ∧ c = Normal k
           ∧ e = {| type := t; value := v; confidence := k |}.
Proof.
  destruct a as [t|], b as [v|], c as [k|]; simpl; try done.
  intros [= <-]. by exists t, v, k.
Qed.

Lemma callbacks_populate :
  (∀ x e, entity_of_entity x = Normal e → populated e)
  ∧ (∀ x e, entity_of_pair x = Normal e → populated e)
  ∧ (∀ i x e, entity_of_table i x = Normal e → populated e)
  ∧ (∀ i x e, entity_of_box i x = Normal e → populated e).
Proof.
  split; [|split; [|split]].
  - intros x0 e He. apply entity_parts in He as (t & v & k & Ht & Hv & Hk & ->).
    apply or_else_result in Ht, Hv, Hk. by eapply populated_intro.
  - intros x0 e He. apply entity_parts in He as (t & v & k & Ht & Hv & Hk & ->).
    apply or_else_result in Ht, Hv, Hk. by eapply populated_intro.
  - intros i x0 e. unfold entity_of_table.
    destruct (row_count x0) as [rows|]; simpl; [|done].
    destruct (to_string rows) as [text|]; simpl; [|done].
    destruct (_ ||| Normal (JNat 0)) as [c|] eqn:Hc; simpl; [|done].
    intros [= <-]. apply or_else_result in Hc.
    eapply (populated_intro _ _ _ (JStr "Table") (JStr _) (JNat 0)); eauto.
  - intros i x0 e He. apply entity_parts in He as (t & v & k & Ht & Hv & Hk & ->).
    apply or_else_result in Ht, Hv, Hk. by eapply populated_intro.
Qed.

(** X22. Every entity that extraction returns is populated, whatever the
    payload: its type is truthy (so never empty or missing), and its value
    and confidence are never [null] or [undefined]. *)
Theorem entities_are_populated (payload : any) :
  Forall populated (extractEntitiesFromResult payload).
Proof.
  destruct callbacks_populate as (Hentity & Hpair & Htable & Hbox).
  unfold extractEntitiesFromResult, extractEntitiesFromResult_try.
  destruct (has_predictions payload) as [[|]|]; simpl; try done.
  destruct (get payload "predictions") as [predictions|]; simpl; [|done].
  destruct (get_index predictions 0) as [prediction|]; simpl; [|done].
  destruct (get prediction "entities") as [a1|]; simpl; [|done].
  destruct (pushed_from a1 _) as [e1|] eqn:H1; simpl; [|done].
  destruct (get prediction "key_value_pairs") as [a2|]; simpl; [|done].
  destruct (pushed_from a2 _) as [e2|] eqn:H2; simpl; [|done].
  destruct (get prediction "tables") as [a3|]; simpl; [|done].
  destruct (pushed_from a3 _) as [e3|] eqn:H3; simpl; [|done].
  destruct (get prediction "bounding_boxes") as [a4|]; simpl; [|done].
  destruct (pushed_from a4 _) as [e4|] eqn:H4; simpl; [|done].
  rewrite pushed_from_elements in H1, H2, H3, H4.
  assert (∀ (f : nat → any → completion Entity) items es,
            (∀ i x e, f i x = Normal e → populated e) →
            mapi f items = Normal es → Forall populated es) as Hblock.
  { intros f items es Hf Hes. apply Forall_lookup. intros i e Hi.
    destruct (items !! i) as [x|] eqn:Hx.
    - destruct (mapi_lookup _ _ _ _ _ Hes Hx) as (y & Hy & Hfx).
      rewrite Hi in Hy. inversion Hy; subst y. by eapply Hf.
    - apply lookup_ge_None in Hx. apply lookup_lt_Some in Hi.
      apply mapi_length in Hes. lia. }
  apply Forall_app_2; [|apply Forall_app_2; [|apply Forall_app_2]].
  - apply (Hblock _ _ _ (λ _, Hentity) H1).
  - apply (Hblock _ _ _ (λ _, Hpair) H2).
  - apply (Hblock _ _ _ Htable H3).
  - apply (Hblock _ _ _ Hbox H4).
Qed.

End EntityBlocks.

(** ** The page: what a settled call writes, and what it shows *)

Lemma mark_error_total (index : nat) (message : any) (prev : list ExtractionResult) :
  mark_error index (Normal message) prev
  = Normal (imap (λ i r,
                    if (i =? index)%nat
                    then {| fileName := fileName r;
                            status := Status.error;
                            data := data r;
                            error := message;
                            extractedText := extractedText r;
                            entities := entities r |}
                    else r) prev).
Proof.
  unfold mark_error. apply mapi_total. intros i r _. by destruct (i =? index)%nat.
Qed.

Lemma settle_cases (index : nat) (prev : list ExtractionResult) (entry : ExtractionResult) :
  prev !! index = Some entry →
  (∀ outcome message,
      outcome = Throw message
      ∨ (∃ response, outcome = Normal response ∧ Response.json response = Throw message) →
      ∃ next, settle index outcome prev = Normal next
              ∧ next !! index = Some (failed_entry entry (JStr "Network error occurred")))
  ∧ (∀ response result,
       Response.json response = Normal result →
       nullish result = false →
       ∃ next, settle index (Normal response) prev = Normal next
               ∧ next !! index
                 = Some (if Response.ok response
                         then completed_entry entry result
                         else failed_entry entry
                                (first_truthy result ["error"] (JStr "Processing failed")))).
Proof.
  intros Hentry. split.
  - intros outcome message Hfailed.
    assert (settle index outcome prev
            = mark_error index (Normal (JStr "Network error occurred")) prev) as ->.
    { unfold settle. destruct Hfailed as [->|(response & -> & Hjson)]; [done|].
      simpl. by rewrite Hjson. }
    rewrite mark_error_total. eexists. split; [done|].
    rewrite list_lookup_imap, Hentry. simpl. by rewrite Nat.eqb_refl.
  - intros response result Hjson Hresult. unfold settle. simpl. rewrite Hjson. simpl.
    destruct (Response.ok response).
    + rewrite (mark_completed_total _ _ _ Hresult). eexists. split; [done|].
      rewrite list_lookup_imap, Hentry. simpl. by rewrite Nat.eqb_refl.
    + rewrite (or_else_field _ _ _ Hresult).
      assert ((if truthy (field result "error")
               then Normal (field result "error")
               else Normal (JStr "Processing failed"))
              = Normal (first_truthy result ["error"] (JStr "Processing failed"))) as ->.
      { simpl. by destruct (truthy (field result "error")). }
      rewrite mark_error_total. eexists. split; [done|].
      rewrite list_lookup_imap, Hentry. simpl. by rewrite Nat.eqb_refl.
Qed.

(** X10. What the call of the file at [index] writes into its entry: a
    rejected fetch or a reply that is not JSON gives status error with
    "Network error occurred"; a JSON reply with an ok status gives status
    completed with the reply's [data], [extractedText] and [entities]; a
    JSON reply with any other status gives status error with the reply's
    [error], or "Processing failed" when that is missing or empty.  The
    file name is kept in every case. *)
Theorem settle_outcomes (index : nat) (prev : list ExtractionResult)
    (entry : ExtractionResult) :
  prev !! index = Some entry →
  (∀ outcome message,
      outcome = Throw message
      ∨ (∃ response, outcome = Normal response ∧ Response.json response = Throw message) →
      ∃ next, settle index outcome prev = Normal next
              ∧ next !! index = Some (failed_entry entry (JStr "Network error occurred")))
  ∧ (∀ response result,
       Response.json response = Normal result →
       nullish result = false →
       ∃ next, settle index (Normal response) prev = Normal next
               ∧ next !! index
                 = Some (if Response.ok response
                         then completed_entry entry result
                         else failed_entry entry
                                (first_truthy result ["error"] (JStr "Processing failed")))).
Proof. apply settle_cases. Qed.

Section EndToEnd.
Context `{Engine}.

(** X11. Gateway and page together: whatever the request and the upstream
    service, the entry of the file ends completed exactly when the gateway
    answered status 200, and then holds the payload's text and entities;
    otherwise it ends in error with the gateway's own message, never with
    the page's "Processing failed". *)
Theorem gateway_reply_reaches_entry
    (upstream : nat → UpstreamRequest → completion Response.t) (now : string)
    (request : NextRequest) (index : nat) (prev : list ExtractionResult)
    (entry : ExtractionResult) :
  prev !! index = Some entry →
  let reply := fst (POST upstream now request) in
  ∃ next entry',
    settle index (Normal (received reply)) prev = Normal next
    ∧ next !! index = Some entry'
    ∧ fileName entry' = fileName entry
    ∧ (status entry' = Status.completed ↔ reply_status reply = 200)
    ∧ (reply_status reply = 200 →
       ∃ payload,
         data entry' = payload
         ∧ extractedText entry' = extractTextFromResult payload
         ∧ entities entry' = JArr (entity_to_any <$> extractEntitiesFromResult payload))
    ∧ (reply_status reply ≠ 200 →
       status entry' = Status.error
       ∧ ∃ message, error entry' = JStr message ∧ error_reply reply message).
Proof.
  intros Hentry reply.
  destruct (settle_cases index prev entry Hentry) as [_ Hjson].
  destruct (POST_reply_cases upstream now request) as [_ Hshape]. fold reply in Hshape.
  destruct Hshape as [[Hstatus (payload & file & Hbody)]|[Hstatus (message & Hbody & Hmessage)]].
  - destruct (Hjson (received reply) (reply_body reply) eq_refl) as (next & Hnext & Hat).
    { by rewrite Hbody. }
    assert (Response.ok (received reply) = true) as Hok
      by (unfold Response.ok, received; simpl; by rewrite Hstatus).
    rewrite Hok in Hat. exists next, (completed_entry entry (reply_body reply)).
    split; [done|]. split; [done|]. split; [done|]. split; [done|]. split.
    + intros _. exists payload. by rewrite Hbody.
    + by intros [].
  - destruct (Hjson (received reply) (reply_body reply) eq_refl) as (next & Hnext & Hat).
    { by rewrite Hbody. }
    assert (reply_status reply ≠ 200) as Hnot
      by (intros Heq; rewrite Heq in Hstatus;
          repeat (apply elem_of_cons in Hstatus as [Hstatus|Hstatus]; [done|]);
          by apply elem_of_nil in Hstatus).
    assert (Response.ok (received reply) = false) as Hok.
    { unfold Response.ok, received. simpl.
      repeat (apply elem_of_cons in Hstatus as [->|Hstatus]; [done|]).
      by apply elem_of_nil in Hstatus. }
    rewrite Hok in Hat.
    assert (first_truthy (reply_body reply) ["error"] (JStr "Processing failed") = JStr message)
      as Hshown.
    { rewrite Hbody. simpl. unfold field. simpl.
      by destruct (String.eqb_spec message ""). }
    rewrite Hshown in Hat. exists next, (failed_entry entry (JStr message)).
    split; [done|]. split; [done|]. split; [done|]. split; [by split|]. split; [done|].
    intros _. split; [done|]. by exists message.
Qed.

End EndToEnd.

(** ** Runs *)

Lemma run_invariant (files : list File.t) (s : Run) :
  reachable files s →
  length (results s) = length files
  ∧ (∀ j, j ∈ in_flight s → (j < length files)%nat)
  ∧ ∀ j r, results s !! j = Some r →
           (∃ file, files !! j = Some file ∧ fileName r = File.name file)
           ∧ (j ∈ in_flight s ↔ status r = Status.processing).
Proof.
  induction 1 as [|s s' Hreach (Hlength & Hrange & Hentries) Hstep].
  - unfold dispatched, initialResults. simpl. split; [by rewrite length_fmap|].
    split.
    { intros j Hj. apply elem_of_list_to_set, elem_of_seq in Hj. lia. }
    intros j r Hj. rewrite list_lookup_fmap in Hj.
    destruct (files !! j) as [file|] eqn:Hfile; inversion Hj; subst r. simpl.
    split; [by exists file|]. split; [done|]. intros _.
    apply elem_of_list_to_set, elem_of_seq. apply lookup_lt_Some in Hfile. lia.
  - destruct Hstep as [s index outcome next Hin Hnext]. simpl.
    split; [by rewrite (settle_length _ _ _ _ Hnext)|].
    split.
    { intros j Hj. apply elem_of_difference in Hj as [Hj _]. by apply Hrange. }
    intros j r' Hj.
    destruct (results s !! j) as [r|] eqn:Hold.
    2: { apply lookup_ge_None in Hold. apply lookup_lt_Some in Hj.
         rewrite (settle_length _ _ _ _ Hnext) in Hj. lia. }
    destruct (Hentries j r Hold) as [(file & Hfile & Hname) Hflight].
    destruct (settle_lookup _ _ _ _ _ _ Hnext Hold) as (r'' & Hr'' & Hsame & Hat).
    rewrite Hj in Hr''. inversion Hr''; subst r''.
    destruct (decide (j = index)) as [->|Hne].
    + destruct (Hat eq_refl) as [Hkept Hterminal].
      split; [exists file; by rewrite Hkept|].
      split; [intros Hgone; apply elem_of_difference in Hgone as [_ Hgone]; set_solver|].
      intros Hprocessing. destruct Hterminal; congruence.
    + rewrite (Hsame Hne). split; [by exists file|].
      rewrite elem_of_difference, elem_of_singleton. rewrite <- Hflight. tauto.
Qed.

Lemma session_invariant (files : list File.t) (s : Session) :
  session files s →
  Page.results (page s) = []
  ∨ (length (Page.results (page s)) = length files
     ∧ ∀ j r, Page.results (page s) !! j = Some r →
              (∃ file, files !! j = Some file ∧ fileName r = File.name file)
              ∧ (j ∈ pending s ↔ status r = Status.processing)).
Proof.
  induction 1 as [|s s' Hsession IH Hevent].
  - right. unfold started, initialResults. simpl. split; [by rewrite length_fmap|].
    intros j r Hj. rewrite list_lookup_fmap in Hj.
    destruct (files !! j) as [file|] eqn:Hfile; inversion Hj; subst r. simpl.
    split; [by exists file|]. split; [done|]. intros _.
    apply elem_of_list_to_set, elem_of_seq. apply lookup_lt_Some in Hfile. lia.
  - destruct Hevent as [s index outcome next Hin Hnext|s selected|s index]; simpl.
    + destruct IH as [Hcleared|[Hlength Hentries]].
      { left. apply nil_length_inv. by rewrite (settle_length _ _ _ _ Hnext), Hcleared. }
      right. split; [by rewrite (settle_length _ _ _ _ Hnext)|].
      intros j r' Hj.
      destruct (Page.results (page s) !! j) as [r|] eqn:Hold.
      2: { apply lookup_ge_None in Hold. apply lookup_lt_Some in Hj.
           rewrite (settle_length _ _ _ _ Hnext) in Hj. lia. }
      destruct (Hentries j r Hold) as [(file & Hfile & Hname) Hpending].
      destruct (settle_lookup _ _ _ _ _ _ Hnext Hold) as (r'' & Hr'' & Hsame & Hat).
      rewrite Hj in Hr''. inversion Hr''; subst r''.
      destruct (decide (j = index)) as [->|Hne].
      * destruct (Hat eq_refl) as [Hkept Hterminal].
        split; [exists file; by rewrite Hkept|].
        split.
        -- intros Hgone. apply elem_of_difference in Hgone as [_ Hgone].
           by destruct Hgone; apply elem_of_singleton.
        -- intros Hprocessing. destruct Hterminal; congruence.
      * rewrite (Hsame Hne). split; [by exists file|].
        rewrite elem_of_difference, elem_of_singleton. rewrite <- Hpending. tauto.
    + destruct selected as [selectedFiles|]; simpl; [by left|exact IH].
    + destruct (length _ =? 0)%nat; [by left|exact IH].
Qed.

(** X12. A run keeps its shape, also when files are selected or removed
    while its calls are under way: the results list is either cleared or
    has one entry per dispatched file, the entry at position j carrying
    the name of dispatched file j and being processing exactly while the
    call of that file has not settled; and once the list is cleared, no
    late call, selection or removal refills it. *)
Theorem run_keeps_its_shape (files : list File.t) (s : Session) :
  session files s →
  (Page.results (page s) = []
   ∨ (length (Page.results (page s)) = length files
      ∧ ∀ j r, Page.results (page s) !! j = Some r →
               (∃ file, files !! j = Some file ∧ fileName r = File.name file)
               ∧ (j ∈ pending s ↔ status r = Status.processing)))
  ∧ (Page.results (page s) = [] →
     ∀ s', event s s' → Page.results (page s') = []).
Proof.
  intros Hsession. split; [by apply session_invariant|].
  intros Hcleared s' Hevent.
  destruct Hevent as [s index outcome next Hin Hnext|s selected|s index]; simpl.
  - apply nil_length_inv. by rewrite (settle_length _ _ _ _ Hnext), Hcleared.
  - by destruct selected.
  - by destruct (length _ =? 0)%nat.
Qed.

Lemma settled_after_reachable (files : list File.t) (n : nat) (s : Run) :
  settled_after files n s → reachable files s.
Proof. induction 1; eauto using reachable_start, reachable_step. Qed.

(** X13. A run ends: after n updates exactly n calls have left the
    in-flight set, so no run has more than one update per file; once every
    file has had its update no entry is processing and no further update
    can happen. *)
Theorem run_is_bounded (files : list File.t) (n : nat) (s : Run) :
  settled_after files n s →
  size (in_flight s) + n = length files
  ∧ (n = length files →
     (∀ j r, results s !! j = Some r → status r ≠ Status.processing)
     ∧ ∀ s', ¬ step s s').
Proof.
  intros Hrun.
  assert (size (in_flight s) + n = length files) as Hsize.
  { induction Hrun as [|n s s' _ IH Hstep].
    - unfold dispatched. simpl.
      rewrite size_list_to_set by apply NoDup_seq. rewrite length_seq. lia.
    - destruct Hstep as [s index outcome next Hin Hnext]. simpl.
      rewrite size_difference by set_solver. rewrite size_singleton.
      assert (size (in_flight s) ≠ 0) by (apply size_non_empty_iff; set_solver).
      lia. }
  split; [done|]. intros ->.
  assert (in_flight s ≡ ∅) as Hempty by (apply size_empty_iff; lia).
  split.
  - intros j r Hj Hprocessing.
    destruct (run_invariant _ _ (settled_after_reachable _ _ _ Hrun)) as (_ & _ & Hentries).
    destruct (Hentries j r Hj) as [_ Hflight]. apply Hflight in Hprocessing.
    rewrite Hempty in Hprocessing. by apply not_elem_of_empty in Hprocessing.
  - intros s' Hstep. destruct Hstep as [s index outcome next Hin Hnext]. set_solver.
Qed.

(** ** The file list and the counters *)

Lemma filter_index_from_delete {A} (index : nat) (l : list A) :
  ∀ start,
    filter_index_from (λ i, negb (i =? index)%nat) start l
    = if decide (index < start)%nat then l else delete (index - start) l.
Proof.
  induction l as [|x l IH]; intros start; simpl.
  - by destruct (decide _).
  - rewrite IH. destruct (Nat.eqb_spec start index) as [->|Hne]; simpl.
    + rewrite Nat.sub_diag. destruct (decide (index < S index)%nat); [|lia].
      by destruct (decide (index < index)%nat); [lia|].
    + destruct (decide (index < start)%nat).
      * by destruct (decide (index < S start)%nat); [|lia].
      * destruct (decide (index < S start)%nat); [lia|].
        by replace (index - start) with (S (index - S start)) by lia.
Qed.

(** X14. [removeFile] deletes exactly the file at [index] (none when the
    index is out of range), so the later files move one position down; it
    clears the results only when no file is left, and otherwise leaves
    them in place.  [handleFileChange] always clears them. *)
Theorem removeFile_deletes_one (index : nat) (page : Page.t) :
  Page.files (removeFile index page) = delete index (Page.files page)
  ∧ ((length (Page.files page) ≤ index)%nat →
     Page.files (removeFile index page) = Page.files page)
  ∧ (∀ j, (index ≤ j)%nat →
          Page.files (removeFile index page) !! j = Page.files page !! S j)
  ∧ (Page.files (removeFile index page) = [] → Page.results (removeFile index page) = [])
  ∧ (Page.files (removeFile index page) ≠ [] →
     Page.results (removeFile index page) = Page.results page)
  ∧ (∀ selected, Page.results (handleFileChange (Some selected) page) = []
                 ∧ Page.files (handleFileChange (Some selected) page) = selected).
Proof.
  assert (Page.files (removeFile index page) = delete index (Page.files page)) as Hfiles.
  { unfold removeFile, filter_index. simpl. rewrite filter_index_from_delete.
    destruct (decide (index < 0)%nat); [lia|]. by rewrite Nat.sub_0_r. }
  split; [done|]. rewrite Hfiles. split.
  { intros Hrange. apply list_eq. intros j. rewrite list_lookup_delete.
    destruct (decide (j < index)%nat); [done|].
    rewrite !(proj2 (lookup_ge_None _ _)); [done|lia..]. }
  split; [intros j Hj; by apply list_lookup_delete_ge|].
  unfold removeFile. simpl. fold (filter_index (λ i, negb (i =? index)%nat) (Page.files page)).
  change (filter_index (λ i, negb (i =? index)%nat) (Page.files page))
    with (Page.files (removeFile index page)).
  rewrite Hfiles. split; [by intros ->|]. split; [|done].
  intros Hleft. by destruct (delete index (Page.files page)).
Qed.

Lemma count_by_status (results : list ExtractionResult) :
  length results
  = length (filter (λ r, status r = Status.processing) results)
    + completedCount results + errorCount results.
Proof.
  unfold completedCount, errorCount.
  induction results as [|r results IH]; [done|].
  rewrite !filter_cons. simpl. destruct (status r); simpl;
    repeat (case_decide; try done); simpl; lia.
Qed.

(** X15. The three numbers of the results card add up: the number shown
    as processing, computed as the length minus the two counts, is the
    number of entries whose status is processing, and is never negative. *)
Theorem counters_partition_results (results : list ExtractionResult) :
  processingShown results
  = Z.of_nat (length (filter (λ r, status r = Status.processing) results))
  ∧ (0 ≤ processingShown results)%Z
  ∧ (completedCount results + errorCount results ≤ length results)%nat.
Proof.
  unfold processingShown. pose proof (count_by_status results). lia.
Qed.

(** X16. The guards of [processFiles] mirror the extract button: while
    idle, the button is enabled exactly when [processFiles] dispatches, and
    then it starts one processing entry per file, named after it, with
    every call in flight. *)
Theorem enabled_button_dispatches (apiKey : string) (files : list File.t) :
  (extract_disabled false files apiKey = false ↔ ∃ s, processFiles apiKey files = Some s)
  ∧ (∀ s, processFiles apiKey files = Some s →
          files ≠ []
          ∧ length (results s) = length files
          ∧ ∀ j file, files !! j = Some file →
                      j ∈ in_flight s
                      ∧ ∃ r, results s !! j = Some r
                             ∧ fileName r = File.name file
                             ∧ status r = Status.processing).
Proof.
  unfold extract_disabled, processFiles. simpl. split.
  - destruct (blank apiKey), (length files =? 0)%nat; simpl; split; try done;
      try (by intros [s Hs]); by eexists.
  - intros s Hs. destruct (blank apiKey); [done|].
    destruct (Nat.eqb_spec (length files) 0) as [|Hlen]; [done|]. inversion Hs; subst s.
    split; [by intros ->|]. unfold dispatched, initialResults. simpl.
    split; [by rewrite length_fmap|]. intros j file Hfile. split.
    + apply elem_of_list_to_set, elem_of_seq. apply lookup_lt_Some in Hfile. lia.
    + eexists. rewrite list_lookup_fmap, Hfile. simpl. done.
Qed.

(** ** The exported link and the probe requests *)

Lemma before_T_app (date rest : string) :
  forallb (λ c, negb (Ascii.eqb c "T")) (list_ascii_of_string date) = true →
  before_T (date ++ String "T" rest) = date.
Proof.
  induction date as [|c date IH]; intros Hdate.
  - change ("" ++ String "T" rest) with (String "T"%char rest). by simpl.
  - change (String c date ++ String "T" rest) with (String c (date ++ String "T" rest)).
    simpl in *. apply andb_prop in Hdate as [Hc Hdate].
    destruct (Ascii.eqb c "T"); [done|]. by rewrite IH.
Qed.

Lemma length_append (a b : string) :
  String.length (a ++ b) = String.length a + String.length b.
Proof.
  induction a as [|x a IH]; [done|].
  change (String x a ++ b) with (String x (a ++ b)). simpl. by rewrite IH.
Qed.

Section ExportEdges.
Context `{Engine}.

(** X17. The exported document is "[]" exactly when no entry is completed;
    so whenever the page offers the download (some entry is completed) the
    document holds at least one entry. *)
Theorem empty_document_iff_none_completed (results : list ExtractionResult) :
  (dataStr results = Some "[]" ↔ completedCount results = 0)
  ∧ (download_offered results = true → dataStr results ≠ Some "[]").
Proof.
  assert (dataStr results = Some "[]" ↔ completedCount results = 0) as Hiff.
  { unfold dataStr, completedCount, JSON_stringify_2.
    fold (completedResults results).
    destruct (completedResults results) as [|r rest]; simpl; [done|].
    split; [|done]. unfold bracketed. simpl. by intros [= ?]. }
  split; [done|].
  unfold download_offered. intros Hoffered Hdoc. apply Hiff in Hdoc.
  rewrite Hdoc in Hoffered. done.
Qed.

(** X18. The download is named after the date: for a timestamp made of a
    date without "T", a "T" and a time, whatever the results, the file
    name is "extraction-results-" + date + ".json". *)
Theorem download_named_by_date (date time : string) (results : list ExtractionResult) :
  forallb (λ c, negb (Ascii.eqb c "T")) (list_ascii_of_string date) = true →
  download (downloadResults (date ++ String "T" time) results)
  = "extraction-results-" ++ date ++ ".json".
Proof.
  intros Hdate. unfold downloadResults. simpl. by rewrite (before_T_app _ _ Hdate).
Qed.

End ExportEdges.

Section ProbeRequests.
Context `{Engine}.

(** X19. No probe step repeats another: the five requests built for a
    file and a credential are pairwise different (in a header, in the body
    or in the address), and each is a POST with a JSON content type and a
    body. *)
Theorem probe_steps_differ (file : FormDataEntryValue) (apiKey base64File : string) :
  NoDup (formats file apiKey base64File)
  ∧ Forall (λ request,
              method request = "POST"
              ∧ headers request !! 0 = Some ("Content-Type", "application/json")
              ∧ is_Some (body request))
      (formats file apiKey base64File).
Proof.
  split.
  - unfold formats, format1, format2, format3, format4, format5, post.
    assert (predict_url ++ "?apikey=" ++ apiKey ≠ predict_url) as Hurl.
    { intros Heq. apply (f_equal String.length) in Heq.
      rewrite !length_append in Heq. simpl in Heq. lia. }
    assert (JSON_stringify (images_body base64File) ≠ JSON_stringify (file_body file base64File))
      as Hbody.
    { destruct file; intros Heq;
        apply (f_equal (λ text, text ≫= String.get 2)) in Heq;
        vm_compute in Heq; discriminate Heq. }
    repeat (apply NoDup_cons; split;
            [rewrite ?elem_of_cons, elem_of_nil; intros Hin;
             repeat (destruct Hin as [Hin|Hin]; [inversion Hin; congruence|]); done|]).
    apply NoDup_nil. done.
  - unfold formats, format1, format2, format3, format4, format5, post.
    repeat (apply Forall_cons; split; [by repeat split|]). apply Forall_nil. done.
Qed.

End ProbeRequests.

(** ** The encoders lose nothing *)

Lemma base64_digits_decode :
  forallb (λ n, match base64_value (base64_digit n) with
                | Some m => (m =? n)%N && negb (Ascii.eqb (base64_digit n) "=")
                | None => false
                end) (N.of_nat <$> seq 0 64) = true.
Proof. vm_compute. reflexivity. Qed.

Lemma base64_value_digit (n : N) :
  (n < 64)%N →
  base64_value (base64_digit n) = Some n ∧ Ascii.eqb (base64_digit n) "=" = false.
Proof.
  intros Hn. pose proof base64_digits_decode as Hall.
  rewrite forallb_forall in Hall.
  specialize (Hall n). 
  destruct (base64_value (base64_digit n)) as [m|].
  - assert ((m =? n)%N && negb (Ascii.eqb (base64_digit n) "=") = true) as Hm.
    { apply Hall. apply list_elem_of_In, list_elem_of_fmap. exists (N.to_nat n).
      split; [lia|]. apply elem_of_seq. lia. }
    apply andb_prop in Hm as [Hm Hpad]. apply N.eqb_eq in Hm. subst m.
    split; [done|]. by destruct (Ascii.eqb (base64_digit n) "=").
  - exfalso. assert (false = true) as Hm; [|done].
    apply Hall. apply list_elem_of_In, list_elem_of_fmap. exists (N.to_nat n).
    split; [lia|]. apply elem_of_seq. lia.
Qed.

Lemma byte_below_256 (b : Byte.byte) : (Byte.to_N b < 256)%N.
Proof.
  pose proof (Byte.to_of_N_option_map (Byte.to_N b)) as Hb.
  rewrite Byte.of_to_N in Hb. simpl in Hb.
  destruct (N.leb_spec (Byte.to_N b) 255); [lia|done].
Qed.

Lemma bytes_of_group_take (a b c : Byte.byte) (count : nat) (n : N) :
  n = (Byte.to_N a * 65536 + Byte.to_N b * 256 + Byte.to_N c)%N →
  bytes_of_group n count = Some (take count [a; b; c]).
Proof.
  intros ->.
  pose proof (byte_below_256 a). pose proof (byte_below_256 b). pose proof (byte_below_256 c).
  unfold bytes_of_group.
  replace ((Byte.to_N a * 65536 + Byte.to_N b * 256 + Byte.to_N c) / 65536)%N
    with (Byte.to_N a) by (zify; Z.to_euclidean_division_equations; lia).
  replace (((Byte.to_N a * 65536 + Byte.to_N b * 256 + Byte.to_N c) / 256) mod 256)%N
    with (Byte.to_N b) by (zify; Z.to_euclidean_division_equations; lia).
  replace ((Byte.to_N a * 65536 + Byte.to_N b * 256 + Byte.to_N c) mod 256)%N
    with (Byte.to_N c) by (zify; Z.to_euclidean_division_equations; lia).
  rewrite !Byte.of_to_N. reflexivity.
Qed.

Lemma bytes_of_group_3 (a b c : Byte.byte) :
  bytes_of_group (Byte.to_N a * 65536 + Byte.to_N b * 256 + Byte.to_N c) 3 = Some [a; b; c].
Proof. by apply (bytes_of_group_take a b c 3). Qed.

(** The four digits of a group and the number they spell. *)
Lemma group_digits (n : N) :
  (n < 16777216)%N →
  let d k := ((n / 64 ^ k) mod 64)%N in
  (d 3 < 64 ∧ d 2 < 64 ∧ d 1 < 64 ∧ d 0 < 64)%N
  ∧ (((d 3 * 64 + d 2) * 64 + d 1) * 64 + d 0 = n)%N
  ∧ ((d 3 * 64 + d 2) * 4096 = n / 4096 * 4096)%N
  ∧ (((d 3 * 64 + d 2) * 64 + d 1) * 64 = n / 64 * 64)%N.
Proof.
  intros Hn d. subst d. simpl.
  change (64 ^ 3)%N with 262144%N. change (64 ^ 2)%N with 4096%N.
  change (64 ^ 1)%N with 64%N. change (64 ^ 0)%N with 1%N.
  repeat split; zify; Z.to_euclidean_division_equations; lia.
Qed.

Lemma triples_ind {A} (P : list A → Prop) :
  P [] → (∀ a, P [a]) → (∀ a b, P [a; b]) →
  (∀ a b c l, P l → P (a :: b :: c :: l)) →
  ∀ l, P l.
Proof.
  intros H0 H1 H2 H3.
  refine (fix go l := match l with
                      | [] => H0
                      | [a] => H1 a
                      | [a; b] => H2 a b
                      | a :: b :: c :: rest => H3 a b c rest (go rest)
                      end).
Qed.

Lemma append_cons (c : ascii) (s t : string) : String c s ++ t = String c (s ++ t).
Proof. reflexivity. Qed.

Lemma append_empty (t : string) : "" ++ t = t.
Proof. reflexivity. Qed.

(** X20. The base64 text sent upstream determines the file: decoding what
    [base64] produces gives the bytes back, so two different files are
    never sent as the same text; the text has four characters for every
    three bytes, rounded up. *)
Theorem base64_loses_nothing (bytes : list Byte.byte) :
  base64_decode (base64 bytes) = Some bytes
  ∧ String.length (base64 bytes) = 4 * ((length bytes + 2) / 3)
  ∧ ∀ other, base64 other = base64 bytes → other = bytes.
Proof.
  assert (∀ l, base64_decode (base64 l) = Some l) as Hdecode.
  { induction l as [|a|a b|a b c l IH] using triples_ind; [done|..].
    - pose proof (byte_below_256 a).
      destruct (group_digits (Byte.to_N a * 65536)) as ((H3 & H2 & _ & _) & _ & Hspell & _);
        [lia|].
      unfold base64, base64_group.
      change (64 ^ 3)%N with 262144%N in *. change (64 ^ 2)%N with 4096%N in *.
      destruct (base64_value_digit _ H3) as [V3 _], (base64_value_digit _ H2) as [V2 _].
      simpl. rewrite V3, V2. simpl. rewrite Hspell.
      apply (bytes_of_group_take a Byte.x00 Byte.x00 1). simpl.
      zify; Z.to_euclidean_division_equations; lia.
    - pose proof (byte_below_256 a). pose proof (byte_below_256 b).
      destruct (group_digits (Byte.to_N a * 65536 + Byte.to_N b * 256))
        as ((H3 & H2 & H1' & _) & _ & _ & Hspell); [lia|].
      unfold base64, base64_group.
      change (64 ^ 3)%N with 262144%N in *. change (64 ^ 2)%N with 4096%N in *.
      change (64 ^ 1)%N with 64%N in *.
      destruct (base64_value_digit _ H3) as [V3 _], (base64_value_digit _ H2) as [V2 _],
        (base64_value_digit _ H1') as [V1 P1].
      simpl. rewrite V3, V2, P1, V1. simpl. rewrite Hspell.
      apply (bytes_of_group_take a b Byte.x00 2). simpl.
      zify; Z.to_euclidean_division_equations; lia.
    - pose proof (byte_below_256 a). pose proof (byte_below_256 b).
      pose proof (byte_below_256 c).
      destruct (group_digits (Byte.to_N a * 65536 + Byte.to_N b * 256 + Byte.to_N c))
        as ((H3 & H2 & H1' & H0') & Hspell & _ & _); [lia|].
      change (base64 (a :: b :: c :: l))
        with (base64_group (Byte.to_N a * 65536 + Byte.to_N b * 256 + Byte.to_N c) 4
                ++ base64 l).
      unfold base64_group.
      change (64 ^ 3)%N with 262144%N in *. change (64 ^ 2)%N with 4096%N in *.
      change (64 ^ 1)%N with 64%N in *. change (64 ^ 0)%N with 1%N in *.
      destruct (base64_value_digit _ H3) as [V3 _], (base64_value_digit _ H2) as [V2 _],
        (base64_value_digit _ H1') as [V1 P1], (base64_value_digit _ H0') as [V0 P0].
      rewrite !append_cons, append_empty. simpl.
      rewrite V3, V2, P1, V1, P0, V0. simpl. rewrite Hspell, bytes_of_group_3, IH. done. }
  split; [done|]. split.
  - induction bytes as [|a|a b|a b c l IH] using triples_ind; [done..|].
    change (base64 (a :: b :: c :: l))
      with (base64_group (Byte.to_N a * 65536 + Byte.to_N b * 256 + Byte.to_N c) 4
              ++ base64 l).
    rewrite length_append, IH.
    change (String.length (base64_group _ 4)) with 4.
    replace (length (a :: b :: c :: l) + 2) with (1 * 3 + (length l + 2)) by (simpl; lia).
    rewrite Nat.div_add_l by lia. lia.
  - intros other Hsame. apply (f_equal base64_decode) in Hsame.
    rewrite !Hdecode in Hsame. by inversion Hsame.
Qed.

Lemma decode_encoded_char (c : ascii) (rest decoded : string) :
  decodeURIComponent (encodeURIComponent rest) = Some decoded →
  decodeURIComponent (encodeURIComponent (String c rest)) = Some (String c decoded).
Proof.
  intros Hrest. simpl encodeURIComponent.
  destruct c as [[] [] [] [] [] [] [] []];
    match goal with
    | |- context [?prefix ++ encodeURIComponent rest] =>
        let text := eval vm_compute in prefix in change prefix with text
    end;
    rewrite !append_cons, append_empty; simpl; rewrite Hrest; reflexivity.
Qed.

Lemma decode_encode (s : string) : decodeURIComponent (encodeURIComponent s) = Some s.
Proof. induction s as [|c s IH]; [done|]. by apply decode_encoded_char. Qed.

Section ExportedLink.
Context `{Engine}.

(** X21. The link holds the whole document: for any results list and time,
    the link is the data-URI prefix followed by an encoded text, and
    decoding that text gives back exactly the document that
    [JSON.stringify] produced. *)
Theorem link_holds_the_document (now : string) (results : list ExtractionResult) :
  ∃ document encoded,
    dataStr results = Some document
    ∧ href (downloadResults now results)
      = "data:application/json;charset=utf-8," ++ encoded
    ∧ decodeURIComponent encoded = Some document.
Proof.
  unfold downloadResults, dataStr, JSON_stringify_2. simpl.
  eexists _, _. split; [done|]. split; [done|]. apply decode_encode.
Qed.

End ExportedLink.
(** ** Reading the exported document back *)

Lemma any_nested_ind (P : any → Prop) :
  P JUndefined → P JNull → (∀ b, P (JBool b)) → (∀ q, P (JNum q)) → (∀ s, P (JStr s)) →
  (∀ items, Forall P items → P (JArr items)) →
  (∀ fields, Forall (λ kv, P (snd kv)) fields → P (JObj fields)) →
  ∀ v, P v.
Proof.
  intros Hu Hn Hb Hq Hs Harr Hobj. fix IH 1.
  intros [| |b|q|s|items|fields];
    [exact Hu | exact Hn | apply Hb | apply Hq | apply Hs | |].
  - apply Harr. induction items as [|x items IHitems]; constructor; [apply IH|exact IHitems].
  - apply Hobj. induction fields as [|kv fields IHfields]; constructor; [apply IH|exact IHfields].
Qed.

Lemma skip_space_white (w s : string) :
  all_space w = true → skip_space (w ++ s) = skip_space s.
Proof.
  induction w as [|c w IH]; [done|]. intros Hw. apply andb_true_iff in Hw as [Hc Hw].
  rewrite append_cons. cbn [skip_space]. rewrite Hc. by apply IH.
Qed.

Lemma all_space_app (a b : string) :
  all_space a = true → all_space b = true → all_space (a ++ b) = true.
Proof.
  induction a as [|c a IH]; [done|]. intros Ha Hb. apply andb_true_iff in Ha as [Hc Ha].
  rewrite append_cons. cbn [all_space]. rewrite Hc. by apply IH.
Qed.

Lemma read_value_white (fuel : nat) (w s : string) :
  all_space w = true → read_value fuel (w ++ s) = read_value fuel s.
Proof. intros Hw. destruct fuel; [done|]. simpl. by rewrite skip_space_white. Qed.

(** *** Strings *)

Lemma read_quoted_char (c : ascii) (text decoded rest : string) :
  read_string text = Some (decoded, rest) →
  read_string (quote_char c ++ text) = Some (String c decoded, rest).
Proof.
  intros Htext.
  destruct c as [[] [] [] [] [] [] [] []];
    match goal with
    | |- context [?prefix ++ text] =>
        let quoted := eval vm_compute in prefix in change prefix with quoted
    end;
    rewrite !append_cons, append_empty; simpl; rewrite Htext; reflexivity.
Qed.

Lemma read_quoted_chars (s rest : string) :
  read_string (quote_chars s ++ String quote_mark rest) = Some (s, rest).
Proof.
  induction s as [|c s IH]; [done|].
  simpl quote_chars. rewrite append_assoc. by apply read_quoted_char.
Qed.

Lemma read_quoted (s rest : string) :
  read_string (quote_chars s ++ double_quote ++ rest) = Some (s, rest).
Proof. apply read_quoted_chars. Qed.

Lemma quote_shape (s rest : string) :
  quote s ++ rest = String quote_mark (quote_chars s ++ double_quote ++ rest).
Proof. unfold quote. by rewrite !append_assoc. Qed.

Lemma read_value_string (fuel : nat) (s rest : string) :
  read_value (S fuel) (quote s ++ rest) = Some (JsonString s, rest).
Proof. rewrite quote_shape. simpl. by rewrite read_quoted. Qed.

(** *** Numbers *)

Lemma number_chars_cons (c : ascii) (s : string) :
  number_chars (String c s) = is_number_char c && number_chars s.
Proof. reflexivity. Qed.

Lemma digit_number_char (c : ascii) : is_digit c = true → is_number_char c = true.
Proof. unfold is_number_char. by intros ->. Qed.

Lemma skip_digits_chars (s : string) :
  number_chars (skip_digits s) = true → number_chars s = true.
Proof.
  induction s as [|c s IH]; [done|]. cbn [skip_digits].
  destruct (is_digit c) eqn:Hc; [|done]. intros Hs.
  by rewrite number_chars_cons, (digit_number_char _ Hc), IH.
Qed.

Lemma skipped_digits_chars (s : string) :
  String.eqb (skip_digits s) "" = true → number_chars s = true.
Proof. intros Hs%String.eqb_eq. apply skip_digits_chars. by rewrite Hs. Qed.

Lemma exponent_chars (s : string) : exponent_ok s = true → number_chars s = true.
Proof.
  destruct s as [|c rest]; [done|]. cbn [exponent_ok].
  intros [Hc Hrest]%andb_true_iff. rewrite number_chars_cons.
  apply andb_true_iff. split.
  { unfold is_number_char. apply orb_true_iff. right. simpl.
    apply orb_true_iff in Hc as [->| ->]; by rewrite ?orb_true_r. }
  destruct rest as [|sign rest']; [done|].
  destruct (Ascii.eqb sign "+" || Ascii.eqb sign "-") eqn:Hsign.
  - rewrite number_chars_cons. apply andb_true_iff. split.
    { unfold is_number_char. apply orb_true_iff. right. simpl.
      apply orb_true_iff in Hsign as [->| ->]; by rewrite ?orb_true_r. }
    destruct rest' as [|d digits]; [done|].
    apply andb_true_iff in Hrest as [Hd Hdigits].
    by rewrite number_chars_cons, (digit_number_char _ Hd), (skipped_digits_chars _ Hdigits).
  - apply andb_true_iff in Hrest as [Hd Hdigits].
    by rewrite number_chars_cons, (digit_number_char _ Hd), (skipped_digits_chars _ Hdigits).
Qed.

Lemma fraction_chars (s : string) : fraction_ok s = true → number_chars s = true.
Proof.
  destruct s as [|c rest]; [done|]. cbn [fraction_ok].
  destruct (Ascii.eqb c ".") eqn:Hc; [|apply exponent_chars].
  destruct rest as [|d digits]; [done|]. intros [Hd Hdigits]%andb_true_iff.
  rewrite !number_chars_cons, (digit_number_char _ Hd).
  rewrite (skip_digits_chars digits) by by apply exponent_chars.
  unfold is_number_char. simpl. rewrite Hc. by rewrite !orb_true_r.
Qed.

Lemma JSON_number_unsigned (s : string) :
  match s with
  | String d rest =>
      if Ascii.eqb d "0" then fraction_ok rest
      else is_digit d && fraction_ok (skip_digits rest)
  | EmptyString => false
  end = true →
  number_chars s = true ∧ ∃ d rest, s = String d rest ∧ is_digit d = true.
Proof.
  destruct s as [|d rest]; [done|].
  destruct (Ascii.eqb d "0") eqn:Hzero.
  - apply Ascii.eqb_eq in Hzero as ->. intros Hrest. split; [|by eexists _, _].
    by rewrite number_chars_cons, (fraction_chars _ Hrest).
  - intros [Hd Hrest]%andb_true_iff. split; [|by eexists _, _].
    rewrite number_chars_cons, (digit_number_char _ Hd).
    by rewrite (skip_digits_chars rest) by by apply fraction_chars.
Qed.

Lemma JSON_number_chars (s : string) :
  JSON_number s = true →
  number_chars s = true
  ∧ ∃ c rest, s = String c rest ∧ (c = "-"%char ∨ is_digit c = true).
Proof.
  unfold JSON_number. destruct s as [|c rest]; [done|].
  destruct (Ascii.eqb c "-") eqn:Hc.
  - apply Ascii.eqb_eq in Hc as ->. intros [Hrest _]%JSON_number_unsigned.
    split; [by rewrite number_chars_cons, Hrest|]. eexists _, _. split; [done|by left].
  - intros Hs. apply (JSON_number_unsigned (String c rest)) in Hs
      as [Hs (d & rest' & [= <- <-] & Hd)].
    split; [done|]. eexists _, _. split; [done|by right].
Qed.

Lemma take_number_chars (token rest : string) :
  number_chars token = true → delimited rest = true →
  take_number (token ++ rest) = (token, rest).
Proof.
  intros Htoken Hrest. induction token as [|c token IH].
  - rewrite append_empty. destruct rest as [|c rest]; [done|]. simpl in *.
    by destruct (is_number_char c).
  - rewrite number_chars_cons in Htoken. apply andb_true_iff in Htoken as [Hc Htoken].
    rewrite append_cons. cbn [take_number]. by rewrite Hc, IH.
Qed.

Lemma read_value_number (fuel : nat) (token rest : string) :
  JSON_number token = true → delimited rest = true →
  read_value (S fuel) (token ++ rest) = Some (JsonNumber token, rest).
Proof.
  intros Hnumber Hrest.
  destruct (JSON_number_chars _ Hnumber) as (Hchars & c & token' & -> & Hc).
  pose proof (take_number_chars _ _ Hchars Hrest) as Htake.
  rewrite append_cons in *.
  assert (is_space c = false ∧ Ascii.eqb c "[" = false ∧ Ascii.eqb c "{" = false
          ∧ Ascii.eqb c quote_mark = false
          ∧ Ascii.eqb "n" c = false ∧ Ascii.eqb "t" c = false ∧ Ascii.eqb "f" c = false)
    as (Hspace & Harray & Hobject & Hquote & Hn & Ht & Hf).
  { destruct Hc as [->|Hc]; [done|].
    by destruct c as [[] [] [] [] [] [] [] []]. }
  cbn [read_value skip_space]. rewrite Hspace, Harray, Hobject, Hquote.
  unfold read_atom. cbn [after]. rewrite Hn, Ht, Hf, Htake. by rewrite Hnumber.
Qed.

Lemma digits_skipped (u : Decimal.uint) :
  skip_digits (NilEmpty.string_of_uint u) = "".
Proof. induction u; simpl; done. Qed.

Lemma to_uint_normal (p : positive) :
  Decimal.unorm (Pos.to_uint p) = Pos.to_uint p.
Proof.
  rewrite <- (DecimalPos.Unsigned.to_of (Pos.to_uint p)).
  by rewrite DecimalPos.Unsigned.of_to.
Qed.

Lemma normal_uint_number (u : Decimal.uint) :
  Decimal.unorm u = u →
  JSON_number (NilZero.string_of_uint u) = true
  ∧ JSON_number (String "-" (NilZero.string_of_uint u)) = true.
Proof.
  intros Hu. destruct u as [|u|u|u|u|u|u|u|u|u|u];
    try (unfold JSON_number; simpl; rewrite (digits_skipped u); done).
  - done.
  - rewrite DecimalFacts.unorm_D0 in Hu.
    assert (u = Decimal.Nil) as ->; [|done].
    unfold Decimal.unorm in Hu. destruct (Decimal.nzhead u) eqn:Hhead.
    + by injection Hu as <-.
    + by destruct (DecimalFacts.nzhead_nonzero _ _ Hhead).
    + discriminate Hu.
    + discriminate Hu.
    + discriminate Hu.
    + discriminate Hu.
    + discriminate Hu.
    + discriminate Hu.
    + discriminate Hu.
    + discriminate Hu.
    + discriminate Hu.
Qed.

Lemma integer_number (z : Z) : JSON_number (integer_to_string z) = true.
Proof.
  unfold integer_to_string. destruct z as [|p|p]; [done|..]; simpl;
    by destruct (normal_uint_number _ (to_uint_normal p)).
Qed.

Section IntegerTokens.
Context `{Engine}.

Lemma number_to_string_number (q : Q) :
  (∀ q, JSON_number (fraction_to_string q) = true) →
  JSON_number (number_to_string q) = true.
Proof.
  intros Hlaw. unfold number_to_string. destruct (_ && _); [apply integer_number|apply Hlaw].
Qed.

End IntegerTokens.

(** *** Brackets *)

Lemma bracketed_shape (opening closing gap stepback : string) (parts : list string) :
  bracketed opening closing gap stepback parts
  = opening ++ opening_gap gap stepback
      ++ String.concat ("," ++ opening_gap gap stepback) parts
      ++ closing_gap gap stepback ++ closing.
Proof.
  unfold bracketed, opening_gap, closing_gap. destruct (String.eqb gap ""); [done|].
  unfold newline. rewrite !append_cons, !append_empty. by rewrite !append_assoc.
Qed.

Lemma space_not_number (c : ascii) : is_space c = true → is_number_char c = false.
Proof. by destruct c as [[] [] [] [] [] [] [] []]. Qed.

Lemma delimited_white (w : string) (c : ascii) (rest : string) :
  all_space w = true → is_number_char c = false → delimited (w ++ String c rest) = true.
Proof.
  destruct w as [|s w]; intros Hw Hc.
  - rewrite append_empty. simpl. by rewrite Hc.
  - apply andb_true_iff in Hw as [Hs _]. rewrite append_cons. simpl.
    by rewrite (space_not_number _ Hs).
Qed.

Lemma skip_space_mark (c : ascii) (s : string) :
  is_space c = false → skip_space (String c s) = String c s.
Proof. intros Hc. cbn [skip_space]. by rewrite Hc. Qed.

Lemma concat_cons (separator text : string) (next : string) (texts : list string) :
  String.concat separator (text :: next :: texts)
  = text ++ separator ++ String.concat separator (next :: texts).
Proof. reflexivity. Qed.

Lemma read_elements_texts (parts : list (string * json)) (lead tail rest : string) :
  Forall (λ p, ∀ rest' fuel',
              delimited rest' = true → (String.length (fst p) ≤ fuel')%nat →
              read_value fuel' (fst p ++ rest') = Some (snd p, rest')) parts →
  all_space lead = true → all_space tail = true →
  parts ≠ [] →
  ∀ fuel,
    (String.length (String.concat ("," ++ lead) (fst <$> parts) ++ tail) < fuel)%nat →
    read_elements fuel
      (lead ++ String.concat ("," ++ lead) (fst <$> parts) ++ tail ++ String "]" rest)
    = Some (snd <$> parts, rest).
Proof.
  intros Hparts Hlead Htail.
  induction Hparts as [|[text tree] parts Hp Hparts IH]; [done|]. intros _ fuel Hfuel.
  destruct fuel as [|fuel]; [lia|]. cbn [read_elements].
  rewrite read_value_white by done. cbn [fst snd] in Hp.
  destruct parts as [|next parts].
  - cbn [fmap list_fmap String.concat fst snd] in *. rewrite length_append in Hfuel.
    rewrite Hp; [|by apply delimited_white|lia].
    rewrite skip_space_white by done. by cbn.
  - rewrite fmap_cons in *. cbn [fst] in *. rewrite (fmap_cons _ next) in *.
    rewrite concat_cons in *. rewrite <- (fmap_cons fst next parts) in *.
    remember (String.concat ("," ++ lead) (fst <$> next :: parts)) as more eqn:Hmore.
    rewrite !append_assoc in *. rewrite !length_append in Hfuel.
    rewrite append_cons, append_empty.
    rewrite Hp; [|done|lia].
    rewrite (skip_space_mark "," _ eq_refl).
    change (Ascii.eqb "," ",") with true. cbv iota.
    rewrite IH; [by rewrite fmap_cons|done|]. rewrite length_append.
    cbn [String.length] in Hfuel. lia.
Qed.

Lemma read_members_texts (parts : list (string * (string * json)))
    (lead sp tail rest : string) :
  Forall (λ p, ∀ rest' fuel',
              delimited rest' = true → (String.length (fst (snd p)) ≤ fuel')%nat →
              read_value fuel' (fst (snd p) ++ rest') = Some (snd (snd p), rest')) parts →
  all_space lead = true → all_space sp = true → all_space tail = true →
  parts ≠ [] →
  ∀ fuel,
    (String.length
       (String.concat ("," ++ lead)
          ((λ p, quote (fst p) ++ ":" ++ sp ++ fst (snd p)) <$> parts) ++ tail) < fuel)%nat →
    read_members fuel
      (lead ++ String.concat ("," ++ lead)
                 ((λ p, quote (fst p) ++ ":" ++ sp ++ fst (snd p)) <$> parts)
         ++ tail ++ String "}" rest)
    = Some ((λ p, (fst p, snd (snd p))) <$> parts, rest).
Proof.
  intros Hparts Hlead Hsp Htail.
  induction Hparts as [|[key [text tree]] parts Hp Hparts IH]; [done|]. intros _ fuel Hfuel.
  destruct fuel as [|fuel]; [lia|]. cbn [read_members].
  rewrite skip_space_white by done. cbn [fst snd] in Hp.
  assert (∀ more,
            skip_space ((quote key ++ ":" ++ sp ++ text) ++ more)
            = String quote_mark (quote_chars key ++ double_quote
                                   ++ String ":" (sp ++ text ++ more))) as Hmember.
  { intros more. rewrite !append_assoc. rewrite quote_shape.
    by rewrite (skip_space_mark quote_mark _ eq_refl). }
  destruct parts as [|next parts].
  - cbn [fmap list_fmap String.concat fst snd] in *. rewrite !length_append in Hfuel.
    rewrite Hmember. change (Ascii.eqb quote_mark quote_mark) with true. cbv iota.
    rewrite read_quoted. rewrite (skip_space_mark ":" _ eq_refl).
    change (Ascii.eqb ":" ":") with true. cbv iota.
    rewrite read_value_white by done.
    rewrite Hp; [|by apply delimited_white|lia].
    rewrite skip_space_white by done. by cbn.
  - rewrite fmap_cons in *. cbn [fst snd] in *. rewrite (fmap_cons _ next) in *.
    rewrite concat_cons in *.
    rewrite <- (fmap_cons (λ p, quote (fst p) ++ ":" ++ sp ++ fst (snd p)) next parts) in *.
    remember (String.concat ("," ++ lead)
                ((λ p, quote (fst p) ++ ":" ++ sp ++ fst (snd p)) <$> next :: parts))
      as more eqn:Hmore.
    rewrite !length_append in Hfuel. cbn [String.length] in Hfuel.
    rewrite (append_assoc (quote key ++ ":" ++ sp ++ text)).
    rewrite Hmember. change (Ascii.eqb quote_mark quote_mark) with true. cbv iota.
    rewrite read_quoted. rewrite (skip_space_mark ":" _ eq_refl).
    change (Ascii.eqb ":" ":") with true. cbv iota.
    rewrite read_value_white by done.
    rewrite !append_assoc. rewrite append_cons, append_empty.
    rewrite Hp; [|done|lia].
    rewrite (skip_space_mark "," _ eq_refl).
    change (Ascii.eqb "," ",") with true. cbv iota.
    rewrite IH; [by rewrite fmap_cons|done|]. rewrite length_append. lia.
Qed.

(** *** A serialised value reads back as what was kept of it *)

Section ReadBack.
Context `{Engine}.
Hypothesis number_tokens : ∀ q, JSON_number (fraction_to_string q) = true.
Variable gap : string.
Hypothesis gap_white : all_space gap = true.

Lemma serialize_array (stepback : string) (items : list any) :
  serialize gap stepback (JArr items)
  = Some match items with
         | [] => "[]"
         | _ => bracketed "[" "]" gap stepback
                  ((λ x, default "null" (serialize gap (stepback ++ gap) x)) <$> items)
         end.
Proof.
  cbn [serialize]. f_equal.
  match goal with
  | |- match ?each items with [] => _ | _ => _ end = _ =>
      assert (each items
              = (λ x, default "null" (serialize gap (stepback ++ gap) x)) <$> items) as ->
  end.
  { induction items as [|x items IH]; [done|]. by rewrite fmap_cons, <- IH. }
  by destruct items.
Qed.

Lemma serialize_object (stepback : string) (fields : list (string * any)) :
  serialize gap stepback (JObj fields)
  = Some match flat_map (λ kv, match serialize gap (stepback ++ gap) (snd kv) with
                               | Some text => [quote (fst kv) ++ ":" ++ colon_gap gap ++ text]
                               | None => []
                               end) fields with
         | [] => "{}"
         | texts => bracketed "{" "}" gap stepback texts
         end.
Proof.
  cbn [serialize]. f_equal.
  match goal with
  | |- match ?each fields with [] => _ | _ => _ end = _ =>
      assert (each fields
              = flat_map (λ kv, match serialize gap (stepback ++ gap) (snd kv) with
                                | Some text =>
                                    [quote (fst kv) ++ ":" ++ colon_gap gap ++ text]
                                | None => []
                                end) fields) as ->
  end.
  { induction fields as [|[k x] fields IH]; [done|]. cbn [flat_map fst snd].
    rewrite <- IH. by destruct (serialize gap (stepback ++ gap) x). }
  by destruct (flat_map _ fields).
Qed.

Lemma serialize_None (stepback : string) (v : any) :
  serialize gap stepback v = None ↔ v = JUndefined.
Proof.
  split; [|by intros ->].
  by destruct v.
Qed.

Lemma gaps_white (stepback : string) :
  all_space stepback = true →
  all_space (opening_gap gap stepback) = true
  ∧ all_space (closing_gap gap stepback) = true
  ∧ all_space (colon_gap gap) = true
  ∧ all_space (stepback ++ gap) = true.
Proof.
  intros Hsb. unfold opening_gap, closing_gap, colon_gap.
  assert (all_space (stepback ++ gap) = true) as Hindent by by apply all_space_app.
  by destruct (String.eqb gap "").
Qed.

Lemma read_serialized (v : any) :
  ∀ stepback text rest fuel,
    all_space stepback = true →
    serialize gap stepback v = Some text →
    delimited rest = true →
    (String.length text ≤ fuel)%nat →
    read_value fuel (text ++ rest) = Some (jsonify v, rest).
Proof.
  induction v as [| |b|q|s|items IH|fields IH] using any_nested_ind;
    intros stepback text rest fuel Hsb Htext Hrest Hfuel.
  - discriminate Htext.
  - injection Htext as <-. destruct fuel; [simpl in Hfuel; lia|]. reflexivity.
  - injection Htext as <-. destruct fuel; [destruct b; simpl in Hfuel; lia|].
    by destruct b.
  - injection Htext as <-.
    pose proof (number_to_string_number q number_tokens) as Hnumber.
    destruct fuel.
    { destruct (JSON_number_chars _ Hnumber) as (_ & c & t & Heq & _).
      rewrite Heq in Hfuel. simpl in Hfuel. lia. }
    by apply read_value_number.
  - injection Htext as <-. destruct fuel; [unfold quote in Hfuel; simpl in Hfuel; lia|].
    apply read_value_string.
  - rewrite serialize_array in Htext. injection Htext as <-.
    destruct (gaps_white stepback Hsb) as (Hopening & Hclosing & _ & Hindent).
    destruct items as [|x items].
    { destruct fuel as [|[|[|fuel]]]; try (simpl in Hfuel; lia); reflexivity. }
    rewrite bracketed_shape in *.
    set (parts := (λ x, (default "null" (serialize gap (stepback ++ gap) x), jsonify x))
                    <$> x :: items).
    assert ((λ x, default "null" (serialize gap (stepback ++ gap) x)) <$> x :: items
            = fst <$> parts) as Htexts by (unfold parts; by rewrite <- list_fmap_compose).
    rewrite Htexts in *. clear Htexts.
    assert (jsonify (JArr (x :: items)) = JsonArray (snd <$> parts)) as ->.
    { unfold parts. rewrite <- list_fmap_compose. done. }
    assert (Forall (λ p, ∀ rest' fuel',
                      delimited rest' = true → (String.length (fst p) ≤ fuel')%nat →
                      read_value fuel' (fst p ++ rest') = Some (snd p, rest')) parts)
      as Hparts.
    { unfold parts. apply Forall_fmap. eapply Forall_impl; [exact IH|].
      intros y Hy rest' fuel' Hrest' Hfuel'. cbn [fst snd compose] in *.
      destruct (serialize gap (stepback ++ gap) y) as [part|] eqn:Hpart.
      - by apply (Hy (stepback ++ gap)).
      - apply serialize_None in Hpart as ->. cbn [default from_option] in *.
        destruct fuel'; [simpl in Hfuel'; lia|]. reflexivity. }
    rewrite append_cons, append_empty in Hfuel.
    cbn [String.length] in Hfuel. rewrite !length_append in Hfuel.
    cbn [String.length] in Hfuel.
    destruct fuel as [|fuel]; [lia|].
    rewrite !append_assoc. rewrite append_cons, append_empty.
    cbn [read_value]. rewrite (skip_space_mark "[" _ eq_refl).
    change (Ascii.eqb "[" "[") with true. cbv iota.
    rewrite (read_elements_texts parts _ _ rest Hparts Hopening Hclosing); [done|done|].
    rewrite length_append. lia.
  - rewrite serialize_object in Htext. injection Htext as <-.
    destruct (gaps_white stepback Hsb) as (Hopening & Hclosing & Hcolon & Hindent).
    set (parts := flat_map (λ kv, match serialize gap (stepback ++ gap) (snd kv) with
                                  | Some text => [(fst kv, (text, jsonify (snd kv)))]
                                  | None => []
                                  end) fields).
    assert (flat_map (λ kv, match serialize gap (stepback ++ gap) (snd kv) with
                            | Some text => [quote (fst kv) ++ ":" ++ colon_gap gap ++ text]
                            | None => []
                            end) fields
            = (λ p, quote (fst p) ++ ":" ++ colon_gap gap ++ fst (snd p)) <$> parts)
      as Htexts.
    { unfold parts. clear. induction fields as [|[k x] fields IHf]; [done|].
      cbn [flat_map fst snd]. rewrite fmap_app, <- IHf.
      by destruct (serialize gap (stepback ++ gap) x). }
    rewrite Htexts in *. clear Htexts.
    assert (jsonify (JObj fields) = JsonObject ((λ p, (fst p, snd (snd p))) <$> parts)) as ->.
    { unfold parts. cbn [jsonify]. f_equal. clear.
      induction fields as [|[k x] fields IHf]; [done|].
      cbn [flat_map fst snd]. rewrite fmap_app, <- IHf. f_equal.
      destruct (serialize gap (stepback ++ gap) x) as [part|] eqn:Hpart.
      - by destruct x.
      - by apply serialize_None in Hpart as ->. }
    assert (Forall (λ p, ∀ rest' fuel',
                      delimited rest' = true → (String.length (fst (snd p)) ≤ fuel')%nat →
                      read_value fuel' (fst (snd p) ++ rest') = Some (snd (snd p), rest'))
              parts) as Hparts.
    { unfold parts. clear -IH Hindent. induction IH as [|[k x] fields Hx _ IHf]; [done|].
      cbn [flat_map fst snd] in *.
      destruct (serialize gap (stepback ++ gap) x) as [part|] eqn:Hpart; [|exact IHf].
      constructor; [|exact IHf]. intros rest' fuel' Hrest' Hfuel'.
      by apply (Hx (stepback ++ gap)). }
    clearbody parts. destruct parts as [|part more].
    { destruct fuel as [|[|[|fuel]]]; try (simpl in Hfuel; lia); reflexivity. }
    remember (part :: more) as parts eqn:Hshape.
    assert (parts ≠ []) as Hnonempty by by subst parts.
    assert (match (λ p, quote (fst p) ++ ":" ++ colon_gap gap ++ fst (snd p)) <$> parts with
            | [] => "{}"
            | texts => bracketed "{" "}" gap stepback texts
            end
            = bracketed "{" "}" gap stepback
                ((λ p, quote (fst p) ++ ":" ++ colon_gap gap ++ fst (snd p)) <$> parts))
      as Hbraces by by subst parts.
    rewrite Hbraces in *. clear Hbraces Hshape.
    rewrite bracketed_shape in *.
    rewrite append_cons, append_empty in Hfuel.
    cbn [String.length] in Hfuel. rewrite !length_append in Hfuel.
    cbn [String.length] in Hfuel.
    destruct fuel as [|fuel]; [lia|].
    rewrite !append_assoc. rewrite append_cons, append_empty.
    cbn [read_value]. rewrite (skip_space_mark "{" _ eq_refl).
    change (Ascii.eqb "{" "[") with false. change (Ascii.eqb "{" "{") with true. cbv iota.
    rewrite (read_members_texts parts _ _ _ rest Hparts Hopening Hcolon Hclosing);
      [done|done|].
    rewrite length_append. lia.
Qed.

(** [JSON.parse] of what [JSON.stringify] printed, with or without
    indentation. *)
Lemma parse_serialized (v : any) (text : string) :
  serialize gap "" v = Some text → JSON_parse text = Some (jsonify v).
Proof.
  intros Htext. unfold JSON_parse.
  pose proof (read_serialized v "" text "" (String.length text) eq_refl Htext eq_refl
                (le_n _)) as Hread.
  assert (text ++ "" = text) as Hright.
  { clear. induction text as [|c text IH]; [done|]. by rewrite append_cons, IH. }
  rewrite Hright in Hread. by rewrite Hread.
Qed.

End ReadBack.

(** ** The exported document *)

Section ExportProperties.
Context `{Engine}.

Lemma exported_completed (r : ExtractionResult) :
  status r = Status.completed → jsonify (result_to_any r) = exported_entry r.
Proof.
  intros Hstatus. unfold result_to_any, exported_entry, member.
  cbn [jsonify flat_map fst snd]. rewrite Hstatus. cbn [Status.to_string].
  by rewrite app_nil_r.
Qed.

(** C8. On an engine that prints numbers as JSON number tokens, the link
    that [downloadResults] clicks holds, URI-encoded, one document that
    [JSON.parse] reads as one array, whose elements are, in the order of
    the results, exactly the entries whose status is completed, each as an
    object with its file name, the status "completed" and its data,
    extracted text and entities; no entry in error or processing is in it;
    and with no completed entry the document is "[]". *)
Theorem export_completed_only (now : string) (results : list ExtractionResult) :
  (∀ q, JSON_number (fraction_to_string q) = true) →
  ∃ document encoded : string,
    href (downloadResults now results) = "data:application/json;charset=utf-8," ++ encoded
    ∧ decodeURIComponent encoded = Some document
    ∧ JSON_parse document
      = Some (JsonArray
                (exported_entry <$> filter (λ r, status r = Status.completed) results))
    ∧ ((∀ r, r ∈ results → status r ≠ Status.completed) → document = "[]").
Proof.
  intros Hnumbers.
  destruct (dataStr results) as [document|] eqn:Hdocument; [|discriminate Hdocument].
  exists document, (encodeURIComponent document).
  split; [unfold downloadResults; by rewrite Hdocument|].
  split; [apply decode_encode|].
  split.
  - unfold dataStr, JSON_stringify_2 in Hdocument.
    rewrite (parse_serialized Hnumbers "  " eq_refl _ _ Hdocument).
    cbn [jsonify]. do 2 f_equal. unfold completedResults.
    rewrite <- list_fmap_compose. apply Forall_fmap_ext, Forall_forall.
    intros r Hr. apply list_elem_of_filter in Hr as [Hcompleted _].
    by apply exported_completed.
  - intros Hnone.
    assert (completedResults results = []) as Hempty.
    { unfold completedResults.
      destruct (filter _ results) as [|r rest] eqn:Hfilter; [done|].
      assert (r ∈ filter (λ r, status r = Status.completed) results) as Hr
        by (rewrite Hfilter; left).
      apply list_elem_of_filter in Hr as [Hc Hr]. by destruct (Hnone r Hr). }
    unfold dataStr in Hdocument. rewrite Hempty in Hdocument. by injection Hdocument as <-.
Qed.

End ExportProperties.

(** ** The theorems at the sample inputs *)

#[local] Existing Instance plain_engine.

Lemma probing_order_witness :
  formData sample_request = Normal sample_form
  ∧ provided (FormData_get "file" sample_form) = Some (EntryFile sample_file)
  ∧ provided (FormData_get "apiKey" sample_form) = Some (EntryString "secret")
  ∧ length (snd (POST (answering 401) sample_now sample_request)) = 5.
Proof.
  do 3 (split; [reflexivity|]).
  apply (@probing_order plain_engine (answering 401) sample_now sample_request sample_form
           sample_file (EntryString "secret") eq_refl eq_refl eq_refl).
  intros k Hk. do 5 (destruct k as [|k]; [reflexivity|]). lia.
Defined.

Lemma response_mapping_witness :
  last (snd (POST (answering 500) sample_now sample_request))
  = Some (format1 (EntryFile sample_file) "secret" "TWFu")
  ∧ answering 500 0 (format1 (EntryFile sample_file) "secret" "TWFu")
    = Normal {| Response.status := 500;
                Response.text := Normal "denied";
                Response.json := Throw "Unexpected token d in JSON at position 0" |}
  ∧ fst (POST (answering 500) sample_now sample_request)
    = NextResponse_json (error_body "LandingAI API error (500): denied") 500.
Proof.
  do 2 (split; [reflexivity|]).
  destruct (@response_mapping plain_engine (answering 500) sample_now sample_request sample_form
              sample_file (EntryString "secret") _ _ eq_refl eq_refl eq_refl eq_refl eq_refl)
    as (Hread & _ & _).
  destruct (Hread "denied" eq_refl) as (_ & _ & Hother).
  apply Hother; [reflexivity | discriminate | discriminate | simpl; lia].
Defined.

Lemma text_extraction_precedence_witness :
  extractTextFromResult segments_payload = JStr "a b".
Proof.
  destruct (proj1 (@text_extraction_precedence plain_engine segments_payload)
              (JObj [("text_segments", JArr [JObj [("text", JStr "a")]; JObj [("text", JStr "b")]])])
              [] eq_refl eq_refl)
    as (_ & _ & _ & Hsegments & _).
  exact (Hsegments [JObj [("text", JStr "a")]; JObj [("text", JStr "b")]] ["a"; "b"]
           eq_refl eq_refl eq_refl eq_refl eq_refl).
Defined.

Lemma top_level_fallback_after_predictions_witness :
  extractTextFromResult bare_prediction_payload = JStr "top".
Proof.
  apply (@top_level_fallback_after_predictions plain_engine bare_prediction_payload
           (JObj []) [] eq_refl eq_refl).
  repeat constructor.
Defined.

Lemma entities_first_truthy_field_witness :
  ∃ others,
    extractEntitiesFromResult typed_entity_payload
    = ([{| type := JStr "PERSON"; value := JStr "Jane"; confidence := JNum (9 # 10) |}]
         ++ others)%list.
Proof.
  apply (proj1 (@entities_first_truthy_field plain_engine) typed_entity_payload
           (JObj [("entities", JArr [typed_entity])]) [] [typed_entity] _ eq_refl eq_refl eq_refl).
Defined.


Lemma normalization_never_throws_witness :
  (extractTextFromResult (JObj []) = JStr "No text extracted"
   ∧ extractEntitiesFromResult (JObj []) = [])
  ∧ reply_status (fst (POST (serving (JObj [])) sample_now sample_request)) = 200
  ∧ ∃ next entry,
      settle 0 (Normal (received (fst (POST (serving (JObj [])) sample_now sample_request))))
        (initialResults [sample_file]) = Normal next
      ∧ next !! 0 = Some entry
      ∧ status entry = Status.completed
      ∧ data entry = JObj []
      ∧ extractedText entry = JStr "No text extracted"
      ∧ entities entry = JArr [].
Proof.
  destruct (@normalization_never_throws plain_engine (JObj []))
    as (_ & _ & _ & _ & _ & Hnone & Hcompleted).
  split; [apply Hnone; [reflexivity | repeat constructor]|].
  exact (Hcompleted (serving (JObj [])) sample_now sample_request sample_form sample_file
           (EntryString "secret") _ _ 0 (initialResults [sample_file]) _
           eq_refl eq_refl eq_refl eq_refl eq_refl eq_refl eq_refl eq_refl).
Defined.

Lemma missing_input_rejected_witness :
  ∃ message,
    POST (answering 200) sample_now keyless_request
    = (NextResponse_json (error_body message) 400, [])
    ∧ message = "No API key provided".
Proof.
  apply (@missing_input_rejected plain_engine (answering 200) sample_now keyless_request
           [("file", EntryFile sample_file)] eq_refl).
  right. reflexivity.
Defined.

Lemma export_completed_only_witness :
  (∀ q, JSON_number (@fraction_to_string integral_engine q) = true)
  ∧ ∃ document encoded : string,
      href (@downloadResults integral_engine sample_now mixed_results)
      = "data:application/json;charset=utf-8," ++ encoded
      ∧ decodeURIComponent encoded = Some document
      ∧ JSON_parse document
        = Some (JsonArray
                  [JsonObject [("fileName", JsonString "scan.pdf");
                               ("status", JsonString "completed");
                               ("data", JsonObject [("pages", JsonNumber "2")]);
                               ("extractedText", JsonString "No text extracted");
                               ("entities", JsonArray [])]]).
Proof.
  assert (∀ q, JSON_number (@fraction_to_string integral_engine q) = true) as Hnumbers
    by (intros q; apply integer_number).
  split; [exact Hnumbers|].
  destruct (@export_completed_only integral_engine sample_now mixed_results Hnumbers)
    as (document & encoded & Hhref & Hdecode & Hparse & _).
  exists document, encoded. split; [exact Hhref|]. split; [exact Hdecode|exact Hparse].
Defined.

Lemma updates_are_index_local_and_monotonic_witness :
  (∃ next,
      settle 0 (Throw "Failed to fetch") (initialResults two_files) = Normal next
      ∧ length next = 2
      ∧ next !! 1 = initialResults two_files !! 1)
  ∧ step (dispatched two_files) first_failed
  ∧ ∃ entry,
      results first_failed !! 0 = Some entry
      ∧ (Some entry = results (dispatched two_files) !! 0
         ∨ (status entry = Status.completed ∨ status entry = Status.error)).
Proof.
  destruct updates_are_index_local_and_monotonic as (Hlocal & Hstep & _).
  assert (step (dispatched two_files) first_failed) as Hfirst.
  { apply (step_settle (dispatched two_files) 0 (Throw "Failed to fetch")); [|reflexivity].
    apply elem_of_list_to_set, elem_of_seq. simpl. lia. }
  split; [|split; [exact Hfirst|]].
  - eexists. split; [reflexivity|].
    destruct (Hlocal 0 (Throw "Failed to fetch") (initialResults two_files) _ eq_refl)
      as [Hlength Hsibling].
    split; [exact Hlength|]. apply Hsibling. discriminate.
  - destruct (Hstep two_files (dispatched two_files) first_failed 0 _
                (reachable_start two_files) Hfirst eq_refl) as (entry & Hentry & Hchange).
    exists entry. split; [exact Hentry|].
    destruct Hchange as [->|[_ Hterminal]]; [by left|by right].
Defined.

(** ** Where the specification and the code part *)

(** C2 as stated fails: when all five calls are answered 401 and the
    body of the last response cannot be read, the answer is status 500
    with the reading error, not status 401 with the credential message. *)
Lemma unreadable_denial_counterexample :
  (∃ step response,
      last (snd (POST (unreadable 401) sample_now sample_request)) = Some step
      ∧ length (snd (POST (unreadable 401) sample_now sample_request)) = 5
      ∧ unreadable 401 4 step = Normal response
      ∧ Response.status response = 401)
  ∧ fst (POST (unreadable 401) sample_now sample_request)
    = NextResponse_json (error_body "Failed to process document: terminated") 500
  ∧ reply_status (fst (POST (unreadable 401) sample_now sample_request)) ≠ 401.
Proof. split; [by eexists _, _|]. split; [reflexivity|discriminate]. Qed.

(** C4 as stated fails: when an element carries a [type] field, the
    entity's type is that field, not its [label]. *)
Lemma promised_entity_counterexample :
  extractEntitiesFromResult typed_entity_payload
  = [{| type := JStr "PERSON"; value := JStr "Jane"; confidence := JNum (9 # 10) |}]
  ∧ promised_entity typed_entity
    = {| type := JStr "NAME"; value := JStr "Jane"; confidence := JNum (9 # 10) |}
  ∧ extractEntitiesFromResult typed_entity_payload
    ≠ [promised_entity typed_entity].
Proof. repeat split. discriminate. Qed.

(** C3 at [{"predictions":[{"text_segments":[{"text":"Hello"},{"text":""},
    {"text":"World"}]}]}]: the segment whose [text] is empty does not
    contribute its own [text] field, as the specification promises (the
    text would be "Hello  World"); [segment.text || segment] falls through
    to the segment object, which [join] prints as "[object Object]". *)
Lemma empty_segment_prints_as_object :
  extractTextFromResult empty_segment_payload = JStr "Hello [object Object] World"
  ∧ segment_text empty_segment = Normal empty_segment
  ∧ promised_segment empty_segment = JStr ""
  ∧ join " " (promised_segment <$> [JObj [("text", JStr "Hello")]; empty_segment;
                                    JObj [("text", JStr "World")]])
    = Normal "Hello  World".
Proof. repeat split. Qed.

(** C6 at [{"text":42}]: the extracted text is the number 42 as the
    payload holds it, which is no string, although the function is
    declared to return a string and each of its other paths does. *)
Lemma numeric_text_returned_unconverted :
  extractTextFromResult numeric_text_payload = JNum 42
  ∧ ¬ ∃ s : string, extractTextFromResult numeric_text_payload = JStr s.
Proof. split; [reflexivity|]. intros [s Hs]. discriminate Hs. Qed.

(** ** The further theorems at sample inputs *)

Lemma network_failure_aborts_witness :
  POST failing_second sample_now sample_request
  = (NextResponse_json (error_body "Network error occurred") 500,
     take 2 (formats (EntryFile sample_file) "secret" "TWFu")).
Proof.
  apply (@network_failure_aborts plain_engine failing_second sample_now sample_request
           sample_form sample_file (EntryString "secret") 1
           (format2 (EntryFile sample_file) "secret" "TWFu") "read ECONNRESET"
           eq_refl eq_refl eq_refl).
  - intros j Hj. destruct j as [|j]; [reflexivity|lia].
  - reflexivity.
  - reflexivity.
Defined.

Lemma unreadable_request_rejected_witness :
  POST (answering 200) sample_now text_file_request
  = (NextResponse_json
       (error_body "Failed to process document: file.arrayBuffer is not a function") 500,
     []).
Proof.
  destruct (@unreadable_request_rejected plain_engine (answering 200) sample_now
              text_file_request) as [_ Htext].
  apply (Htext _ "scan.pdf" eq_refl eq_refl); [discriminate|reflexivity].
Defined.

Lemma unparsable_success_body_witness :
  fst (POST (answering 200) sample_now sample_request)
  = NextResponse_json
      (error_body "Failed to process document: Unexpected token d in JSON at position 0") 500.
Proof.
  apply (@unparsable_success_body plain_engine (answering 200) sample_now sample_request
           sample_form sample_file (EntryString "secret") _ _
           eq_refl eq_refl eq_refl eq_refl eq_refl eq_refl).
Defined.

Lemma entities_in_source_order_witness :
  ∃ from_tables,
    extractEntitiesFromResult mixed_payload
    = ([{| type := JStr "NAME"; value := JStr "Jane"; confidence := JNat 0 |}]
         ++ [{| type := JStr "Total"; value := JStr "42"; confidence := JNat 0 |}]
         ++ from_tables
         ++ [{| type := JStr "logo"; value := JStr "Detection 1"; confidence := JNat 0 |}])%list
    ∧ length from_tables = 1.
Proof.
  apply (@entities_in_source_order plain_engine mixed_payload mixed_prediction [] _
           eq_refl eq_refl).
  simpl. lia.
Defined.

Lemma entities_of_well_formed_prediction_witness :
  extractEntitiesFromResult mixed_payload
  = [{| type := JStr "NAME"; value := JStr "Jane"; confidence := JNat 0 |};
     {| type := JStr "Total"; value := JStr "42"; confidence := JNat 0 |};
     {| type := JStr "Table"; value := JStr "Table 1 (2 rows)"; confidence := JNat 0 |};
     {| type := JStr "logo"; value := JStr "Detection 1"; confidence := JNat 0 |}].
Proof.
  apply (@entities_of_well_formed_prediction plain_engine mixed_payload mixed_prediction []
           eq_refl eq_refl).
  - repeat constructor.
  - repeat constructor. exists 2. split; [reflexivity|lia].
  - simpl. lia.
  - simpl. lia.
Defined.

Lemma only_first_prediction_is_read_witness :
  extractEntitiesFromResult mixed_payload = extractEntitiesFromResult mixed_payload_with_more
  ∧ extractTextFromResult mixed_payload = extractTextFromResult mixed_payload_with_more.
Proof.
  destruct (@only_first_prediction_is_read plain_engine mixed_payload mixed_payload_with_more
              mixed_prediction [] [JObj [("text", JStr "second")]] eq_refl eq_refl)
    as [Hentities Htext].
  split; [exact Hentities|]. apply Htext; reflexivity.
Defined.

Lemma null_first_prediction_witness :
  extractTextFromResult null_prediction_payload = JStr "Error extracting text"
  ∧ extractEntitiesFromResult null_prediction_payload = [].
Proof.
  apply (@null_first_prediction plain_engine null_prediction_payload JNull []
           eq_refl eq_refl).
Defined.

Lemma null_element_empties_entities_witness :
  extractEntitiesFromResult null_table_payload = [].
Proof.
  apply (@null_element_empties_entities plain_engine null_table_payload
           (JObj [("entities", JArr [JObj [("label", JStr "NAME"); ("text", JStr "Jane")]]);
                  ("tables", JArr [JNull])])
           [] "tables" eq_refl).
  - repeat constructor.
  - constructor. reflexivity.
Defined.

Lemma settle_outcomes_witness :
  ∃ next,
    settle 1 (Normal {| Response.status := 502;
                        Response.text := Normal "Bad Gateway";
                        Response.json := Throw "Unexpected token B in JSON at position 0" |})
      (initialResults two_files) = Normal next
    ∧ next !! 1
      = Some {| fileName := "scan.pdf";
                status := Status.error;
                data := JUndefined;
                error := JStr "Network error occurred";
                extractedText := JUndefined;
                entities := JUndefined |}.
Proof.
  destruct (settle_outcomes 1 (initialResults two_files) _ eq_refl) as [Hfailed _].
  apply (Hfailed _ "Unexpected token B in JSON at position 0").
  right. eexists. split; reflexivity.
Defined.

Lemma gateway_reply_reaches_entry_witness :
  ∃ next entry,
    settle 0 (Normal (received (fst (POST (answering 401) sample_now sample_request))))
      (initialResults two_files) = Normal next
    ∧ next !! 0 = Some entry
    ∧ status entry = Status.error
    ∧ ∃ message,
        error entry = JStr message
        ∧ error_reply (fst (POST (answering 401) sample_now sample_request)) message.
Proof.
  destruct (@gateway_reply_reaches_entry plain_engine (answering 401) sample_now
              sample_request 0 (initialResults two_files) _ eq_refl)
    as (next & entry & Hnext & Hentry & _ & _ & _ & Herror).
  exists next, entry. split; [exact Hnext|]. split; [exact Hentry|].
  apply Herror. discriminate.
Defined.

Lemma first_failed_step : step (dispatched two_files) first_failed.
Proof.
  apply (step_settle (dispatched two_files) 0 (Throw "Failed to fetch")); [|reflexivity].
  apply elem_of_list_to_set, elem_of_seq. simpl. lia.
Defined.

Lemma run_keeps_its_shape_witness :
  session two_files interrupted
  ∧ ∀ s', event interrupted s' → Page.results (page s') = [].
Proof.
  assert (session two_files interrupted) as Hsession.
  { apply (session_event two_files (started two_files)); [constructor|].
    exact (event_select (started two_files) (Some [second_file])). }
  split; [exact Hsession|].
  apply (proj2 (run_keeps_its_shape two_files interrupted Hsession)). reflexivity.
Defined.

Lemma run_is_bounded_witness :
  size (in_flight first_failed) + 1 = 2.
Proof.
  apply (run_is_bounded two_files 1 first_failed).
  apply (settled_next two_files 0 (dispatched two_files)); [constructor|].
  exact first_failed_step.
Defined.

Lemma removeFile_deletes_one_witness :
  Page.files (removeFile 0 {| Page.files := [sample_file; second_file];
                              Page.results := initialResults [sample_file; second_file] |})
  = [second_file]
  ∧ Page.results (removeFile 0 {| Page.files := [sample_file; second_file];
                                  Page.results := initialResults [sample_file; second_file] |})
    = initialResults [sample_file; second_file].
Proof.
  destruct (removeFile_deletes_one 0
              {| Page.files := [sample_file; second_file];
                 Page.results := initialResults [sample_file; second_file] |})
    as (Hfiles & _ & _ & _ & Hkept & _).
  split; [exact Hfiles|]. apply Hkept. rewrite Hfiles. discriminate.
Defined.

Lemma enabled_button_dispatches_witness :
  ∃ s, processFiles "secret" two_files = Some s.
Proof.
  apply (proj1 (enabled_button_dispatches "secret" two_files)). reflexivity.
Defined.

Lemma empty_document_iff_none_completed_witness :
  download_offered (initialResults two_files) = false
  ∧ dataStr (initialResults two_files) = Some "[]".
Proof.
  split; [reflexivity|].
  apply (proj1 (@empty_document_iff_none_completed plain_engine (initialResults two_files))).
  reflexivity.
Defined.

Lemma download_named_by_date_witness :
  download (downloadResults sample_now (initialResults two_files))
  = "extraction-results-2024-05-01.json".
Proof.
  apply (@download_named_by_date plain_engine "2024-05-01" "10:00:00.000Z"). reflexivity.
Defined.

Lemma base64_loses_nothing_witness :
  base64_decode "TWFu" = Some (File.bytes sample_file)
  ∧ ∀ other, base64 other = "TWFu" → other = File.bytes sample_file.
Proof.
  destruct (base64_loses_nothing (File.bytes sample_file)) as (Hdecode & _ & Hinjective).
  split; [exact Hdecode|exact Hinjective].
Defined.
